(** * go-grpc-template: idempotency gate, unit of work, retry and circuit breaker

    A shallow embedding of the reliability layer of the repository:

    - [pkg/idempotency]                 the idempotency gate ([Execute]);
    - [internal/repository]             the unit of work and its lazily built
                                        repositories;
    - [internal/service]                [GetUser] and [CreateUser];
    - [pkg/retry/implementation]        the retry executor over go-retry;
    - [pkg/circuitbreaker]              the circuit breaker over gobreaker.

    Go code is stateful: every function below is written in a small state
    monad [M W A] over a world [W], in which [None] stands for a panic of the
    running goroutine.  Interface values (repositories, units of work, the
    closures handed to [Execute]) are records or functions whose methods are
    computations in that monad, exactly as a Go interface value is a table of
    methods closed over some mutable state.  Objects with state of their own
    (the unit of work, the backoff of the retry executor, the breaker) are
    threaded through the calls that mutate them.

    Two third-party modules decide what the retry executor and the breaker
    do: go-retry and gobreaker.  Each has a module of its own below, kept
    apart from the code of the repository that calls it. *)

From Stdlib Require Import ZArith String List Lia Bool DecimalString.
From stdpp Require Import base option list gmap strings.

Local Open Scope string_scope.
Local Open Scope list_scope.
Local Open Scope Z_scope.

(** ** Go values shared by all packages *)

(** [error] values.  [errors_New] is an error built by [errors.New];
    [retryableError] is go-retry's wrapper ([goretry.RetryableError]); the two
    gobreaker sentinels and the two context errors are the ones the libraries
    synthesize themselves. *)
Inductive error : Type :=
| errors_New (msg : string)
| retryableError (err : error)
| ErrOpenState
| ErrTooManyRequests
| context_Canceled
| context_DeadlineExceeded.

(** [time.Time]: an instant (nanoseconds) and whether its location is UTC. *)
Record Time : Type := mkTime { instant : Z; utc : bool }.

Definition Time_UTC (t : Time) : Time := {| instant := instant t; utc := true |}.

(** The zero [time.Time]. *)
Definition Time_zero : Time := {| instant := 0; utc := true |}.

(** [model.User]. *)
Record User : Type := mkUser {
  Id : Z;
  Email : string;
  Username : string;
  Password : string;
  CreatedAt : Time;
  UpdatedAt : Time
}.

(** [&model.User{}]: every field has its zero value. *)
Definition User_zero : User :=
  {| Id := 0; Email := ""; Username := ""; Password := "";
     CreatedAt := Time_zero; UpdatedAt := Time_zero |}.

(** Heap addresses of [model.User] objects; [*model.User] is [option loc]
    with [None] the nil pointer. *)
Definition loc : Type := nat.

(** The values that travel through [any] in this code base: the untyped nil
    interface, or a [*model.User] (possibly a nil pointer of that type). *)
Inductive any : Type :=
| any_nil
| any_User (p : option loc).

(** ** The state monad with panics *)

Definition M (W A : Type) : Type := W -> option (A * W).

Definition ret {W A : Type} (a : A) : M W A := fun w => Some (a, w).

Definition bind {W A B : Type} (m : M W A) (k : A -> M W B) : M W B :=
  fun w => match m w with
           | Some (a, w') => k a w'
           | None => None
           end.

Definition panic {W A : Type} : M W A := fun _ => None.

Declare Scope go_scope.
Delimit Scope go_scope with go.
Notation "x <- m ;; k" := (bind m (fun x => k))
  (at level 20, m at level 99, k at level 200, only parsing) : go_scope.
Notation "' pat <- m ;; k" := (bind m (fun x => match x with pat => k end))
  (at level 20, pat pattern, m at level 99, k at level 200, only parsing) : go_scope.
Local Open Scope go_scope.

(** ** Observation of calls across an interface

    The Go tests observe which methods of a mock were called through
    variables captured by the mock's closures ([fnCalled], [callCount],
    [insertedRecord]).  [observe ev m] does the same for any computation [m]:
    it runs [m] on the world and appends [ev] to a call log kept next to it;
    [quiet m] runs [m] and leaves the log alone. *)

Section Observation.
Context {W Ev A : Type}.

Definition observe (ev : Ev) (m : M W A) : M (W * list Ev) A :=
  fun s => match m (fst s) with
           | Some (a, w') => Some (a, (w', snd s ++ [ev]))
           | None => None
           end.

Definition quiet (m : M W A) : M (W * list Ev) A :=
  fun s => match m (fst s) with
           | Some (a, w') => Some (a, (w', snd s))
           | None => None
           end.
End Observation.

(** ** pkg/idempotency *)

Module idempotency.

(** [idempotency.Record]. *)
Record Record : Type := mkRecord {
  Id : Z;
  RequestType : string;
  ReferenceId : Z;
  ResponseData : string;
  CreatedAt : Time
}.

(** [idempotency.RecordRepository]: [Get] returns the Go pair of a
    [*Record] (nil when absent) and an [error]; [Insert] returns an [error]. *)
Record RecordRepository (W : Type) : Type := mkRecordRepository {
  Get : Z -> M W (option Record * option error);
  Insert : Record -> M W (option error)
}.
Arguments Get {W} _ _.
Arguments Insert {W} _ _.

(** What [Execute] uses of the Go standard library: [encoding/json]
    ([json.Marshal] reads the value behind an [any], [json.Unmarshal]
    writes into the object its target points to) and [time.Now]. *)
Record Stdlib (W : Type) : Type := mkStdlib {
  json_Marshal : any -> M W (string * option error);
  json_Unmarshal : string -> any -> M W (option error);
  time_Now : M W Time
}.
Arguments json_Marshal {W} _ _.
Arguments json_Unmarshal {W} _ _ _.
Arguments time_Now {W} _.

(** [idempotencyImpl.Execute] (pkg/idempotency/implementation/idempotency.go). *)
Definition Execute {W : Type} (std : Stdlib W)
    (repo : RecordRepository W) (id : Z) (requestType : string)
    (referenceId : Z) (newResult : M W any)
    (fn : M W (any * option error)) : M W (any * option error) :=
  '(record, err) <- Get repo id ;;
  match err with
  | Some e => ret (any_nil, Some e)
  | None =>
    match record with
    | Some rec =>
        result <- newResult ;;
        err <- json_Unmarshal std (ResponseData rec) result ;;
        match err with
        | Some e => ret (any_nil, Some e)
        | None => ret (result, None)
        end
    | None =>
        '(result, err) <- fn ;;
        match err with
        | Some e => ret (any_nil, Some e)
        | None =>
            '(data, err) <- json_Marshal std result ;;
            match err with
            | Some e => ret (any_nil, Some e)
            | None =>
                now <- time_Now std ;;
                err <- Insert repo
                         {| Id := id;
                            RequestType := requestType;
                            ReferenceId := referenceId;
                            ResponseData := data;
                            CreatedAt := now |} ;;
                match err with
                | Some e => ret (any_nil, Some e)
                | None => ret (result, None)
                end
            end
        end
    end
  end.

(** Calls that cross the boundary of [Execute]. *)
Inductive Call : Type :=
| CallGet (id : Z)
| CallInsert (r : Record)
| CallNewResult
| CallFn.

(** The collaborators of [Execute], each recording its own invocation. *)
Definition observedRepo {W : Type} (repo : RecordRepository W)
    : RecordRepository (W * list Call) :=
  {| Get := fun id => observe (CallGet id) (Get repo id);
     Insert := fun r => observe (CallInsert r) (Insert repo r) |}.

Definition quietStdlib {W : Type} (std : Stdlib W) : Stdlib (W * list Call) :=
  {| json_Marshal := fun v => quiet (json_Marshal std v);
     json_Unmarshal := fun d v => quiet (json_Unmarshal std d v);
     time_Now := quiet (time_Now std) |}.

(** [Execute] run against recording collaborators, from an empty log. *)
Definition observedExecute {W : Type} (std : Stdlib W)
    (repo : RecordRepository W) (id : Z) (requestType : string)
    (referenceId : Z) (newResult : M W any)
    (fn : M W (any * option error)) (w : W)
    : option ((any * option error) * (W * list Call)) :=
  Execute (quietStdlib std) (observedRepo repo) id requestType referenceId
    (observe CallNewResult newResult) (observe CallFn fn) (w, []).

End idempotency.


(** ** internal/constant *)

Module constant.

(** Modelled from the spec: [constant.RequestTypeCreateUser] lives in
    internal/constant, which is not part of the sources at hand; the
    specification gives the tag of the create-user operation as
    "create_user".  No statement below depends on the spelling. *)
Definition RequestTypeCreateUser : string := "create_user".

End constant.

(** ** internal/repository: the unit of work

    [transactionDbUnitOfWork] holds the transaction handle, the circuit
    breaker and the retry executor it was created with, and one slot and one
    [sync.Once] per repository.  Repositories are heap objects
    ([NewUserRepository] returns the address of a fresh
    [UserRepositoryImpl]); "the same instance" is equality of addresses. *)

Module repository.

(** Opaque handles: a [*gorm.DB], a [circuitbreaker.CircuitBreaker] and a
    [retry.Retry] are passed around by reference only. *)
Definition handle : Type := Z.

(** The three repository structs have the same four fields. *)
Record RepositoryImpl : Type := mkRepositoryImpl {
  db : handle;
  cb : handle;
  retry : handle;
  notFoundAsError : bool
}.

Inductive Kind : Type := KUser | KLedger | KIdempotencyRecord.

(** A heap object: which struct it is, and its fields. *)
Record Object : Type := mkObject { kind : Kind; impl : RepositoryImpl }.

(** [sync.Once]: the [done] flag. *)
Record Once : Type := mkOnce { done : bool }.

Record transactionDbUnitOfWork : Type := mkUow {
  tx : handle;
  uow_cb : handle;
  uow_retry : handle;
  userRepository : option loc;
  userRepositoryOnce : Once;
  ledgerRepository : option loc;
  ledgerRepositoryOnce : Once;
  idempotencyRecordRepository : option loc;
  idempotencyRecordRepositoryOnce : Once
}.

(** The memory the accessors act on: the unit of work itself and the heap of
    repository objects (an address is an index into the list). *)
Record Memory : Type := mkMemory {
  uow : transactionDbUnitOfWork;
  objects : list Object
}.

Definition Kind_eqb (a b : Kind) : bool :=
  match a, b with
  | KUser, KUser | KLedger, KLedger | KIdempotencyRecord, KIdempotencyRecord => true
  | _, _ => false
  end.

(** [&XRepositoryImpl{db: db, cb: cb, retry: retry, notFoundAsError: n}]:
    allocate the struct and return its address. *)
Definition NewRepository (k : Kind) (d c r : handle) (n : bool) : M Memory loc :=
  fun m =>
    Some (length (objects m),
          {| uow := uow m;
             objects := objects m ++
               [ {| kind := k;
                    impl := {| db := d; cb := c; retry := r; notFoundAsError := n |} |} ] |}).

Definition NewUserRepository := NewRepository KUser.
Definition NewLedgerRepository := NewRepository KLedger.
Definition NewIdempotencyRecordRepository := NewRepository KIdempotencyRecord.

(** [once.Do(f)]: run [f] unless the flag is set, then set it.  [get] and
    [set] select the [sync.Once] field of the unit of work. *)
Definition Once_Do (get : transactionDbUnitOfWork -> Once)
    (set : Once -> transactionDbUnitOfWork -> transactionDbUnitOfWork)
    (f : M Memory unit) : M Memory unit :=
  fun m =>
    if done (get (uow m)) then Some (tt, m)
    else match f m with
         | Some (_, m') =>
             Some (tt, {| uow := set {| done := true |} (uow m');
                          objects := objects m' |})
         | None => None
         end.

Definition set_userRepository (p : option loc) (u : transactionDbUnitOfWork) :=
  {| tx := tx u; uow_cb := uow_cb u; uow_retry := uow_retry u;
     userRepository := p;
     userRepositoryOnce := userRepositoryOnce u;
     ledgerRepository := ledgerRepository u;
     ledgerRepositoryOnce := ledgerRepositoryOnce u;
     idempotencyRecordRepository := idempotencyRecordRepository u;
     idempotencyRecordRepositoryOnce := idempotencyRecordRepositoryOnce u |}.

Definition set_userRepositoryOnce (o : Once) (u : transactionDbUnitOfWork) :=
  {| tx := tx u; uow_cb := uow_cb u; uow_retry := uow_retry u;
     userRepository := userRepository u;
     userRepositoryOnce := o;
     ledgerRepository := ledgerRepository u;
     ledgerRepositoryOnce := ledgerRepositoryOnce u;
     idempotencyRecordRepository := idempotencyRecordRepository u;
     idempotencyRecordRepositoryOnce := idempotencyRecordRepositoryOnce u |}.

Definition set_ledgerRepository (p : option loc) (u : transactionDbUnitOfWork) :=
  {| tx := tx u; uow_cb := uow_cb u; uow_retry := uow_retry u;
     userRepository := userRepository u;
     userRepositoryOnce := userRepositoryOnce u;
     ledgerRepository := p;
     ledgerRepositoryOnce := ledgerRepositoryOnce u;
     idempotencyRecordRepository := idempotencyRecordRepository u;
     idempotencyRecordRepositoryOnce := idempotencyRecordRepositoryOnce u |}.

Definition set_ledgerRepositoryOnce (o : Once) (u : transactionDbUnitOfWork) :=
  {| tx := tx u; uow_cb := uow_cb u; uow_retry := uow_retry u;
     userRepository := userRepository u;
     userRepositoryOnce := userRepositoryOnce u;
     ledgerRepository := ledgerRepository u;
     ledgerRepositoryOnce := o;
     idempotencyRecordRepository := idempotencyRecordRepository u;
     idempotencyRecordRepositoryOnce := idempotencyRecordRepositoryOnce u |}.

Definition set_idempotencyRecordRepository (p : option loc) (u : transactionDbUnitOfWork) :=
  {| tx := tx u; uow_cb := uow_cb u; uow_retry := uow_retry u;
     userRepository := userRepository u;
     userRepositoryOnce := userRepositoryOnce u;
     ledgerRepository := ledgerRepository u;
     ledgerRepositoryOnce := ledgerRepositoryOnce u;
     idempotencyRecordRepository := p;
     idempotencyRecordRepositoryOnce := idempotencyRecordRepositoryOnce u |}.

Definition set_idempotencyRecordRepositoryOnce (o : Once) (u : transactionDbUnitOfWork) :=
  {| tx := tx u; uow_cb := uow_cb u; uow_retry := uow_retry u;
     userRepository := userRepository u;
     userRepositoryOnce := userRepositoryOnce u;
     ledgerRepository := ledgerRepository u;
     ledgerRepositoryOnce := ledgerRepositoryOnce u;
     idempotencyRecordRepository := idempotencyRecordRepository u;
     idempotencyRecordRepositoryOnce := o |}.

(** Field reads and writes on the receiver [u]. *)
Definition read {A : Type} (f : transactionDbUnitOfWork -> A) : M Memory A :=
  fun m => Some (f (uow m), m).

Definition write (f : transactionDbUnitOfWork -> transactionDbUnitOfWork) : M Memory unit :=
  fun m => Some (tt, {| uow := f (uow m); objects := objects m |}).

(** [transactionDbUnitOfWork.UserRepository]. *)
Definition UserRepository : M Memory (option loc) :=
  _ <- Once_Do userRepositoryOnce set_userRepositoryOnce
         (t <- read tx ;; c <- read uow_cb ;; r <- read uow_retry ;;
          p <- NewUserRepository t c r false ;;
          write (set_userRepository (Some p))) ;;
  read userRepository.

(** [transactionDbUnitOfWork.LedgerRepository]. *)
Definition LedgerRepository : M Memory (option loc) :=
  _ <- Once_Do ledgerRepositoryOnce set_ledgerRepositoryOnce
         (t <- read tx ;; c <- read uow_cb ;; r <- read uow_retry ;;
          p <- NewLedgerRepository t c r false ;;
          write (set_ledgerRepository (Some p))) ;;
  read ledgerRepository.

(** [transactionDbUnitOfWork.IdempotencyRecordRepository]. *)
Definition IdempotencyRecordRepository : M Memory (option loc) :=
  _ <- Once_Do idempotencyRecordRepositoryOnce set_idempotencyRecordRepositoryOnce
         (t <- read tx ;; c <- read uow_cb ;; r <- read uow_retry ;;
          p <- NewIdempotencyRecordRepository t c r false ;;
          write (set_idempotencyRecordRepository (Some p))) ;;
  read idempotencyRecordRepository.

(** [transactionDbUnitOfWorkFactory]: the database handle, the breaker and
    the retry executor shared by every unit of work it creates. *)
Record transactionDbUnitOfWorkFactory : Type := mkFactory {
  f_db : handle;
  f_cb : handle;
  f_retry : handle
}.

(** [transactionDbUnitOfWorkFactory.New].  [Begin] is gorm's [db.Begin()]
    followed by the read of [tx.Error]: it yields the transaction handle and
    the error.  On success the unit of work is the struct literal of the
    source: the three handles set, every other field at its zero value. *)
Definition New (Begin : handle -> handle * option error)
    (f : transactionDbUnitOfWorkFactory)
    : option transactionDbUnitOfWork * option error :=
  let '(t, err) := Begin (f_db f) in
  match err with
  | Some e => (None, Some e)
  | None =>
      (Some {| tx := t; uow_cb := f_cb f; uow_retry := f_retry f;
               userRepository := None;
               userRepositoryOnce := {| done := false |};
               ledgerRepository := None;
               ledgerRepositoryOnce := {| done := false |};
               idempotencyRecordRepository := None;
               idempotencyRecordRepositoryOnce := {| done := false |} |},
       None)
  end.

(** The accessor for each kind of repository, and a run of any sequence of
    accessor calls on one unit of work, collecting the returned addresses. *)
Definition accessor (k : Kind) : M Memory (option loc) :=
  match k with
  | KUser => UserRepository
  | KLedger => LedgerRepository
  | KIdempotencyRecord => IdempotencyRecordRepository
  end.

Fixpoint calls (ks : list Kind) : M Memory (list (option loc)) :=
  match ks with
  | [] => ret []
  | k :: ks' => p <- accessor k ;; ps <- calls ks' ;; ret (p :: ps)
  end.

(** How many objects of kind [k] a heap holds. *)
Definition constructed (k : Kind) (h : list Object) : nat :=
  length (filter (fun o => Kind_eqb (kind o) k = true) h).

(** The slot and the [sync.Once] of each kind of repository. *)
Definition slot (k : Kind) (u : transactionDbUnitOfWork) : option loc :=
  match k with
  | KUser => userRepository u
  | KLedger => ledgerRepository u
  | KIdempotencyRecord => idempotencyRecordRepository u
  end.

Definition once (k : Kind) (u : transactionDbUnitOfWork) : Once :=
  match k with
  | KUser => userRepositoryOnce u
  | KLedger => ledgerRepositoryOnce u
  | KIdempotencyRecord => idempotencyRecordRepositoryOnce u
  end.

Definition set_slot (k : Kind) (p : option loc) (u : transactionDbUnitOfWork)
    : transactionDbUnitOfWork :=
  match k with
  | KUser => set_userRepository p u
  | KLedger => set_ledgerRepository p u
  | KIdempotencyRecord => set_idempotencyRecordRepository p u
  end.

Definition set_once (k : Kind) (o : Once) (u : transactionDbUnitOfWork)
    : transactionDbUnitOfWork :=
  match k with
  | KUser => set_userRepositoryOnce o u
  | KLedger => set_ledgerRepositoryOnce o u
  | KIdempotencyRecord => set_idempotencyRecordRepositoryOnce o u
  end.

(** The repository of kind [k] bound to the handles of [u]. *)
Definition bound (k : Kind) (u : transactionDbUnitOfWork) : Object :=
  {| kind := k;
     impl := {| db := tx u; cb := uow_cb u; retry := uow_retry u;
                notFoundAsError := false |} |}.

(** What holds of a unit of work [u0] all along its life, in a memory that
    started with the objects [h0]: the handles are those of [u0]; objects are
    only ever added; a repository whose [Once] has fired sits in its slot, is
    bound to the handles, and is the only one of its kind built since; a
    repository whose [Once] has not fired has not been built. *)
Definition inv (u0 : transactionDbUnitOfWork) (h0 : list Object) (m : Memory) : Prop :=
  tx (uow m) = tx u0 /\ uow_cb (uow m) = uow_cb u0 /\ uow_retry (uow m) = uow_retry u0
  /\ (exists new, objects m = h0 ++ new
       /\ forall k,
            if done (once k (uow m))
            then (exists a, slot k (uow m) = Some a
                            /\ objects m !! a = Some (bound k u0))
                 /\ constructed k new = 1%nat
            else constructed k new = 0%nat).

End repository.

(** ** internal/service: the user service

    The service works on [*model.User] pointers, so its world carries the
    heap of [model.User] objects next to the state [E] of its collaborators
    (database, clock, id generator).  Collaborators act on [E] only: a method
    that takes a [*model.User] is handed the contents of the object at the
    time of the call, and a method that returns one hands back the contents
    of a new object, which the caller finds at a fresh address. *)

Module service.

Record World (E : Type) : Type := mkWorld { heap : list User; env : E }.
Arguments mkWorld {E} _ _.
Arguments heap {E} _.
Arguments env {E} _.

Section Heap.
Context {E : Type}.

(** Run a collaborator's method on its own state. *)
Definition liftE {A : Type} (m : M E A) : M (World E) A :=
  fun w => match m (env w) with
           | Some (a, e') => Some (a, {| heap := heap w; env := e' |})
           | None => None
           end.

(** [*p]: a nil or dangling pointer panics. *)
Definition load (p : option loc) : M (World E) User :=
  fun w => match p with
           | Some a => match heap w !! a with
                       | Some u => Some (u, w)
                       | None => None
                       end
           | None => None
           end.

(** [p.f = v], written as the update [f] of the object at [p]. *)
Definition store (p : option loc) (f : User -> User) : M (World E) unit :=
  fun w => match p with
           | Some a => match heap w !! a with
                       | Some u => Some (tt, {| heap := <[a := f u]> (heap w); env := env w |})
                       | None => None
                       end
           | None => None
           end.

(** [&u]: a new object holding [u]. *)
Definition alloc (u : User) : M (World E) loc :=
  fun w => Some (length (heap w), {| heap := heap w ++ [u]; env := env w |}).

Definition set_Id (v : Z) (u : User) : User :=
  {| Id := v; Email := Email u; Username := Username u; Password := Password u;
     CreatedAt := CreatedAt u; UpdatedAt := UpdatedAt u |}.

Definition set_CreatedAt (v : Time) (u : User) : User :=
  {| Id := Id u; Email := Email u; Username := Username u; Password := Password u;
     CreatedAt := v; UpdatedAt := UpdatedAt u |}.

Definition set_UpdatedAt (v : Time) (u : User) : User :=
  {| Id := Id u; Email := Email u; Username := Username u; Password := Password u;
     CreatedAt := CreatedAt u; UpdatedAt := v |}.

(** The three assignments [CreateUser] makes to its argument. *)
Definition stamp (id : Z) (now : Time) (u : User) : User :=
  set_UpdatedAt now (set_CreatedAt now (set_Id id u)).

(** [repository.UserRepository]. *)
Record UserRepository : Type := mkUserRepository {
  Get : Z -> M E (option User * option error);
  Insert : User -> M E (option error)
}.

(** [repository.UnitOfWork] (the ledger accessor is not used by the user
    service and is left out). *)
Record UnitOfWork : Type := mkUnitOfWork {
  Commit : M E (option error);
  Abort : M E (option error);
  UserRepository_ : M E UserRepository;
  IdempotencyRecordRepository : M E (idempotency.RecordRepository E)
}.

(** [repository.UnitOfWorkFactory]. *)
Record UnitOfWorkFactory : Type := mkUnitOfWorkFactory {
  New : M E (UnitOfWork * option error)
}.

(** [snowflake.Snowflake]. *)
Record Snowflake : Type := mkSnowflake { Generate : M E Z }.

(** [idempotency.Idempotency]: the gate as the service sees it. *)
Record Idempotency : Type := mkIdempotency {
  Execute : idempotency.RecordRepository (World E) -> Z -> string -> Z ->
            M (World E) any -> M (World E) (any * option error) ->
            M (World E) (any * option error)
}.

Record userService : Type := mkUserService {
  uowFactory : UnitOfWorkFactory;
  idempotency_ : Idempotency;
  snowflake : Snowflake
}.

(** A record repository of the collaborators, used from the service's world. *)
Definition liftRepo (r : idempotency.RecordRepository E)
    : idempotency.RecordRepository (World E) :=
  {| idempotency.Get := fun id => liftE (idempotency.Get r id);
     idempotency.Insert := fun rec => liftE (idempotency.Insert r rec) |}.

(** [repo.Get(ctx, id)] seen from the caller: the returned [*model.User] is
    nil or the address of a new object. *)
Definition UserRepository_Get (r : UserRepository) (id : Z)
    : M (World E) (option loc * option error) :=
  '(ou, err) <- liftE (Get r id) ;;
  match ou with
  | Some u => p <- alloc u ;; ret (Some p, err)
  | None => ret (None, err)
  end.

(** [repo.Insert(ctx, user)] seen from the caller. *)
Definition UserRepository_Insert (r : UserRepository) (user : option loc)
    : M (World E) (option error) :=
  u <- load user ;;
  liftE (Insert r u).

(** [userService.GetUser] (internal/service/user_service.go). *)
Definition GetUser (s : userService) (id : Z)
    : M (World E) (option loc * option error) :=
  '(uow, err) <- liftE (New (uowFactory s)) ;;
  match err with
  | Some e => ret (None, Some e)
  | None =>
      repo <- liftE (UserRepository_ uow) ;;
      '(user, err) <- UserRepository_Get repo id ;;
      match err with
      | Some e =>
          _ <- liftE (Abort uow) ;;
          ret (None, Some e)
      | None =>
          err <- liftE (Commit uow) ;;
          match err with
          | Some e => ret (None, Some e)
          | None => ret (user, None)
          end
      end
  end.

(** The closure [func() any { return &model.User{} }]. *)
Definition newUser : M (World E) any :=
  p <- alloc User_zero ;; ret (any_User (Some p)).

(** The closure handed to the gate by [CreateUser]: insert [user], then read
    it back by [user.Id]. *)
Definition createUser_fn (uow : UnitOfWork) (user : option loc)
    : M (World E) (any * option error) :=
  repo <- liftE (UserRepository_ uow) ;;
  err <- UserRepository_Insert repo user ;;
  match err with
  | Some e => ret (any_nil, Some e)
  | None =>
      repo <- liftE (UserRepository_ uow) ;;
      u <- load user ;;
      '(createdUser, err) <- UserRepository_Get repo (Id u) ;;
      match err with
      | Some e => ret (any_nil, Some e)
      | None => ret (any_User createdUser, None)
      end
  end.

(** [userService.CreateUser] (internal/service/user_service.go).  The type
    assertion of [result] to [*model.User] panics on the untyped nil. *)
Definition CreateUser (s : userService) (time_Now : M E Time)
    (idempotencyId : Z) (user : option loc)
    : M (World E) (option loc * option error) :=
  '(uow, err) <- liftE (New (uowFactory s)) ;;
  match err with
  | Some e => ret (None, Some e)
  | None =>
      t <- liftE time_Now ;;
      let now := Time_UTC t in
      id <- liftE (Generate (snowflake s)) ;;
      _ <- store user (set_Id id) ;;
      _ <- store user (set_CreatedAt now) ;;
      _ <- store user (set_UpdatedAt now) ;;
      repo <- liftE (IdempotencyRecordRepository uow) ;;
      u <- load user ;;
      '(result, err) <- Execute (idempotency_ s) (liftRepo repo) idempotencyId
                          constant.RequestTypeCreateUser (Id u) newUser
                          (createUser_fn uow user) ;;
      match err with
      | Some e =>
          _ <- liftE (Abort uow) ;;
          ret (None, Some e)
      | None =>
          err <- liftE (Commit uow) ;;
          match err with
          | Some e => ret (None, Some e)
          | None =>
              match result with
              | any_User p => ret (p, None)
              | any_nil => panic
              end
          end
      end
  end.

(** [encoding/json] on the values of this code base.  The codec itself is
    the library's: [encode] renders a [model.User], [decode data u] fills the
    object [u] from [data] and reports the object as the decoder leaves it
    together with the error, if any. *)
Record Codec : Type := mkCodec {
  encode : User -> string * option error;
  decode : string -> User -> User * option error
}.

(** [json.Marshal(v)]: nil, as an interface or as a pointer, renders as
    [null]. *)
Definition json_Marshal (c : Codec) (v : any) : M (World E) (string * option error) :=
  match v with
  | any_nil => ret ("null", None)
  | any_User None => ret ("null", None)
  | any_User (Some a) => u <- load (Some a) ;; ret (encode c u)
  end.

(** [json.Unmarshal(data, v)]: a nil target is an [InvalidUnmarshalError];
    otherwise the object behind [v] is decoded into. *)
Definition json_Unmarshal (c : Codec) (data : string) (v : any)
    : M (World E) (option error) :=
  match v with
  | any_nil => ret (Some (errors_New "json: Unmarshal(nil)"))
  | any_User None => ret (Some (errors_New "json: Unmarshal(nil *model.User)"))
  | any_User (Some a) =>
      u <- load (Some a) ;;
      let '(u', err) := decode c data u in
      _ <- store (Some a) (fun _ => u') ;;
      ret err
  end.

Definition stdlib (c : Codec) (time_Now : M E Time) : idempotency.Stdlib (World E) :=
  {| idempotency.json_Marshal := json_Marshal c;
     idempotency.json_Unmarshal := json_Unmarshal c;
     idempotency.time_Now := liftE time_Now |}.

(** [implementation.NewIdempotency()]: the gate of pkg/idempotency. *)
Definition NewIdempotency (c : Codec) (time_Now : M E Time) : Idempotency :=
  {| Execute := idempotency.Execute (stdlib c time_Now) |}.

End Heap.

Arguments UserRepository : clear implicits.
Arguments UnitOfWork : clear implicits.
Arguments UnitOfWorkFactory : clear implicits.
Arguments Snowflake : clear implicits.
Arguments Idempotency : clear implicits.
Arguments userService : clear implicits.

End service.

(** ** Machine integers *)

Definition int64_wrap (z : Z) : Z := (z + 2 ^ 63) mod 2 ^ 64 - 2 ^ 63.

Definition uint64_wrap (z : Z) : Z := z mod 2 ^ 64.

Definition math_MaxInt64 : Z := 2 ^ 63 - 1.

(** [x << s] for an [int64] [x] and a [uint64] shift count [s]: bits shifted
    out are lost, and a count of 64 or more leaves zero. *)
Definition int64_shl (x s : Z) : Z :=
  if 64 <=? s then 0 else int64_wrap (Z.shiftl x s).

(** ** The go-retry module

    [github.com/sethvargo/go-retry] is a dependency of the repository; what
    [NewRetry] and [goRetry.Execute] use of it is modelled here after the
    module's behaviour: [Backoff] is an interface with the single method
    [Next() (time.Duration, bool)], so a backoff is an object with state of
    its own and [Next] advances it; [NewExponential] doubles its delay on
    every call of [Next]; [WithMaxRetries] counts the calls of [Next] and
    reports stop once it has seen [max] of them; [Do] loops over the
    operation and the backoff. *)

Module goretry.

(** [time.Duration]: nanoseconds in an [int64]. *)
Definition Duration : Type := Z.

(** The [Backoff] interface, over the state of the object implementing it. *)
Class Backoff (B : Type) : Type := Next : B -> (Duration * bool) * B.

(** [exponentialBackoff]: the base delay and the number of calls so far. *)
Record exponentialBackoff : Type := mkExponential {
  base : Duration;
  exp_attempt : Z
}.

(** [NewExponential(base)] panics unless [base] is positive. *)
Definition NewExponential (b : Duration) : option exponentialBackoff :=
  if b <=? 0 then None else Some {| base := b; exp_attempt := 0 |}.

(** [exponentialBackoff.Next]: [base << (attempt++ )], saturating at the
    largest duration once the shift overflows to a non-positive value (the
    counter is then stepped back). *)
Definition exponentialBackoff_Next (b : exponentialBackoff)
    : (Duration * bool) * exponentialBackoff :=
  let attempt' := uint64_wrap (exp_attempt b + 1) in
  let next := int64_shl (base b) (uint64_wrap (attempt' - 1)) in
  if next <=? 0
  then ((math_MaxInt64, false),
        {| base := base b; exp_attempt := uint64_wrap (attempt' + (2 ^ 64 - 1)) |})
  else ((next, false), {| base := base b; exp_attempt := attempt' |}).

#[global] Instance exponentialBackoff_Backoff : Backoff exponentialBackoff :=
  exponentialBackoff_Next.

(** The closure returned by [WithMaxRetries(max, next)]: it captures [max],
    its own call counter [attempt], and the wrapped backoff. *)
Record maxRetries (B : Type) : Type := mkMaxRetries {
  max : Z;
  attempt : Z;
  next : B
}.
Arguments mkMaxRetries {B} _ _ _.
Arguments max {B} _.
Arguments attempt {B} _.
Arguments next {B} _.

Definition WithMaxRetries {B : Type} (m : Z) (b : B) : maxRetries B :=
  {| max := m; attempt := 0; next := b |}.

Definition maxRetries_Next {B : Type} `{Backoff B} (b : maxRetries B)
    : (Duration * bool) * maxRetries B :=
  if max b <=? attempt b then ((0, true), b)
  else
    let attempt' := uint64_wrap (attempt b + 1) in
    let '((val, stop), inner) := Next (next b) in
    let b' := {| max := max b; attempt := attempt'; next := inner |} in
    if stop then ((0, true), b') else ((val, false), b').

#[global] Instance maxRetries_Backoff {B : Type} `{Backoff B} : Backoff (maxRetries B) :=
  maxRetries_Next.

(** [errors.As(err, &rerr)] for go-retry's [*retryableError], and
    [rerr.Unwrap()]: the wrapped error when [err] is one. *)
Definition as_retryableError (e : error) : option error :=
  match e with
  | retryableError inner => Some inner
  | _ => None
  end.

(** What [Do] needs of [context.Context] and of the timer: whether the
    context is done right now, its error once it is, and the wait
    [select { case <-ctx.Done(): ...; case <-t.C: ... }] on a timer of the
    given duration, which answers [true] when the context wins. *)
Record Runtime (W Ctx : Type) : Type := mkRuntime {
  ctx_Done : Ctx -> M W bool;
  ctx_Err : Ctx -> M W (option error);
  timer_wait : Ctx -> Duration -> M W bool
}.
Arguments ctx_Done {W Ctx} _ _.
Arguments ctx_Err {W Ctx} _ _.
Arguments timer_wait {W Ctx} _ _ _.

(** [Do(ctx, b, f)].  The loop of the module has no bound of its own, so the
    model takes the number of iterations it may run as [fuel]; the result is
    [None] when they do not suffice, and otherwise the error [Do] returns.
    The backoff object [b] is threaded through and handed back. *)
Fixpoint Do {W Ctx B : Type} `{Backoff B} (rt : Runtime W Ctx) (fuel : nat)
    (ctx : Ctx) (b : B) (f : Ctx -> M W (option error))
    : M W (option (option error) * B) :=
  match fuel with
  | O => ret (None, b)
  | S fuel' =>
      done <- ctx_Done rt ctx ;;
      if done then e <- ctx_Err rt ctx ;; ret (Some e, b) else
      err <- f ctx ;;
      match err with
      | None => ret (Some None, b)
      | Some e =>
          match as_retryableError e with
          | None => ret (Some (Some e), b)
          | Some inner =>
              let '((d, stop), b') := Next b in
              if stop then ret (Some (Some inner), b') else
              done <- ctx_Done rt ctx ;;
              if done then e <- ctx_Err rt ctx ;; ret (Some e, b') else
              done <- timer_wait rt ctx d ;;
              if done then e <- ctx_Err rt ctx ;; ret (Some e, b') else
              Do rt fuel' ctx b' f
          end
      end
  end.

End goretry.

(** ** pkg/retry *)

Module retry.

(** [retry.Config]; a nil [RetryableFn] is [None]. *)
Record Config : Type := mkConfig {
  RetryableFn : option (error -> bool);
  Interval : goretry.Duration
}.

(** [retry.Option]: the two option constructors of the package. *)
Inductive Option : Type :=
| WithRetryable (fn : option (error -> bool))
| WithInterval (d : goretry.Duration).

Definition apply (c : Config) (o : Option) : Config :=
  match o with
  | WithRetryable fn => {| RetryableFn := fn; Interval := Interval c |}
  | WithInterval d => {| RetryableFn := RetryableFn c; Interval := d |}
  end.

(** [retry.ApplyOptions]: the options applied in order to the zero config. *)
Definition ApplyOptions (opts : list Option) : Config :=
  fold_left apply opts {| RetryableFn := None; Interval := 0 |}.

(** [goRetry] (pkg/retry/implementation/go_retry.go): the backoff object
    built by [NewRetry], and the predicate. *)
Record goRetry : Type := mkGoRetry {
  backoff : goretry.maxRetries goretry.exponentialBackoff;
  retryableFn : option (error -> bool)
}.

(** [NewRetry(maxRetries, opts...)]; [None] is the panic of
    [goretry.NewExponential] on a non-positive interval. *)
Definition NewRetry (maxRetries : Z) (opts : list Option) : option goRetry :=
  let cfg := ApplyOptions opts in
  match goretry.NewExponential (Interval cfg) with
  | None => None
  | Some b =>
      Some {| backoff := goretry.WithMaxRetries maxRetries b;
              retryableFn := RetryableFn cfg |}
  end.

(** The function literal [goRetry.Execute] passes to [goretry.Do]. *)
Definition attempt_fn {W Ctx : Type} (r : goRetry) (fn : M W (option error))
    : Ctx -> M W (option error) :=
  fun _ =>
    err <- fn ;;
    match err with
    | None => ret None
    | Some e =>
        match retryableFn r with
        | Some p => if negb (p e) then ret (Some e) else ret (Some (retryableError e))
        | None => ret (Some (retryableError e))
        end
    end.

(** [goRetry.Execute]: [goretry.Do] on the executor's own backoff object.
    The executor comes back with its backoff in the state [Do] left it in. *)
Definition Execute {W Ctx : Type} (rt : goretry.Runtime W Ctx) (fuel : nat)
    (r : goRetry) (ctx : Ctx) (fn : M W (option error))
    : M W (option (option error) * goRetry) :=
  '(res, b') <- goretry.Do rt fuel ctx (backoff r) (attempt_fn r fn) ;;
  ret (res, {| backoff := b'; retryableFn := retryableFn r |}).

(** *** A scripted operation, as in the unit tests

    The tests drive [Execute] with closures that count their calls and
    decide the outcome from the count.  [script n] is the outcome of call
    number [n] (from 0); the world counts the calls made, and keeps the
    durations the executor slept and a clock that those sleeps advance. *)
Record Sim : Type := mkSim {
  callCount : nat;
  slept : list goretry.Duration;
  clock : Z
}.

Definition op (script : nat -> option error) : M Sim (option error) :=
  fun w => Some (script (callCount w),
                 {| callCount := S (callCount w); slept := slept w; clock := clock w |}).

(** A context with an optional instant at which it is cancelled;
    [context.Background()] has none. *)
Record Context : Type := mkContext { cancelAt : option Z }.

Definition Background : Context := {| cancelAt := None |}.

Definition cancelled (ctx : Context) (now : Z) : bool :=
  match cancelAt ctx with
  | Some t => t <=? now
  | None => false
  end.

Definition simRuntime : goretry.Runtime Sim Context :=
  {| goretry.ctx_Done := fun ctx w => Some (cancelled ctx (clock w), w);
     goretry.ctx_Err := fun ctx w =>
       Some (if cancelled ctx (clock w) then Some context_Canceled else None, w);
     goretry.timer_wait := fun ctx d w =>
       if cancelled ctx (clock w + d)
       then Some (true, {| callCount := callCount w; slept := slept w;
                           clock := match cancelAt ctx with
                                    | Some t => Z.max t (clock w)
                                    | None => clock w
                                    end |})
       else Some (false, {| callCount := callCount w; slept := slept w ++ [d];
                            clock := clock w + d |}) |}.

Definition sim0 : Sim := {| callCount := 0; slept := []; clock := 0 |}.

(** [r.Execute(context.Background(), op)] from a world with fresh counters:
    the error returned, the number of calls of the operation, the sleeps, and
    the executor afterwards. *)
Definition run (fuel : nat) (r : goRetry) (script : nat -> option error)
    : option (option (option error) * nat * list goretry.Duration * goRetry) :=
  match Execute simRuntime fuel r Background (op script) sim0 with
  | Some ((res, r'), w) => Some (res, callCount w, slept w, r')
  | None => None
  end.

(** The operation of the claims: [k] failures with the error [e], then
    success; and the operation that always fails. *)
Definition failsThenSucceeds (k : nat) (e : error) : nat -> option error :=
  fun n => if (n <? k)%nat then Some e else None.

Definition alwaysFails (e : error) : nat -> option error := fun _ => Some e.

(** Whether the executor takes [e] for retryable: a nil predicate accepts
    every error. *)
Definition retryable (r : goRetry) (e : error) : bool :=
  match retryableFn r with
  | Some p => p e
  | None => true
  end.

(** The next [k] delays an exponential backoff hands out, and the backoff
    after them. *)
Fixpoint delays (b : goretry.exponentialBackoff) (k : nat)
    : list goretry.Duration * goretry.exponentialBackoff :=
  match k with
  | O => ([], b)
  | S k' =>
      let '((d, _), b') := goretry.exponentialBackoff_Next b in
      let '(ds, b'') := delays b' k' in
      (d :: ds, b'')
  end.

(** The executor and the world after [k] rounds of a failed call, a step of
    the backoff and a sleep. *)
Definition retried (k : nat) (r : goRetry) : goRetry :=
  {| backoff :=
       {| goretry.max := goretry.max (backoff r);
          goretry.attempt := goretry.attempt (backoff r) + Z.of_nat k;
          goretry.next := snd (delays (goretry.next (backoff r)) k) |};
     retryableFn := retryableFn r |}.

Definition slept_after (k : nat) (r : goRetry) (w : Sim) : Sim :=
  let ds := fst (delays (goretry.next (backoff r)) k) in
  {| callCount := callCount w + k;
     slept := slept w ++ ds;
     clock := clock w + fold_right Z.add 0 ds |}.

(** An executor as [NewRetry] may have built it and [Execute] may have left
    it: the retry counter is within the [uint64] bound [max]. *)
Definition valid (r : goRetry) : Prop :=
  0 <= goretry.attempt (backoff r) <= goretry.max (backoff r)
  /\ goretry.max (backoff r) < 2 ^ 64.

(** The retries an executor has left. *)
Definition budget (r : goRetry) : nat :=
  Z.to_nat (goretry.max (backoff r) - goretry.attempt (backoff r)).

End retry.

(** ** pkg/circuitbreaker *)

Module circuitbreaker.

(** [circuitbreaker.State]: [Closed], [HalfOpen], [Open] in the order of the
    [iota] declaration. *)
Inductive State : Type := Closed | HalfOpen | Open.

End circuitbreaker.

(** ** The gobreaker module

    [gobreakerCircuitBreaker] delegates [Execute] and [State] to
    [*gobreaker.CircuitBreaker], a dependency whose source is not among the
    files of the repository.  Its state machine is taken from section 4.1 of
    the specification. *)

Module gobreaker.

(** Modelled from the spec: [gobreaker.State] is declared in the gobreaker
    module; the three states of the specification, under the names
    circuit_breaker.go switches over. *)
Inductive State : Type := StateClosed | StateHalfOpen | StateOpen.

(** Modelled from the spec: [gobreaker.Counts] is declared in the gobreaker
    module, not in the sources at hand; it has the five counters of the
    specification's "counts" (requests, successes, failures,
    consecutiveSuccesses, consecutiveFailures), under the names the unit
    tests use. *)
Record Counts : Type := mkCounts {
  Requests : nat;
  TotalSuccesses : nat;
  TotalFailures : nat;
  ConsecutiveSuccesses : nat;
  ConsecutiveFailures : nat
}.

(** Modelled from the spec: [gobreaker.Settings] is declared in the gobreaker
    module; the specification configures a breaker by a trip predicate over
    the counts, the timeout after which an open breaker probes again, the
    number of trial calls admitted while half open, and the number of
    consecutive successes that closes it. *)
Record Settings : Type := mkSettings {
  ReadyToTrip : Counts -> bool;
  Timeout : Z;
  trialLimit : nat;
  successThreshold : nat
}.

(** Modelled from the spec: the breaker object of the gobreaker module, with
    the fields of the specification's data model: [state], [counts], and
    [openedAt], the instant of the last transition to open. *)
Record CircuitBreaker : Type := mkCircuitBreaker {
  settings : Settings;
  state : State;
  counts : Counts;
  openedAt : Z
}.

(** Modelled from the spec: the counts after a reset. *)
Definition noCounts : Counts :=
  {| Requests := 0; TotalSuccesses := 0; TotalFailures := 0;
     ConsecutiveSuccesses := 0; ConsecutiveFailures := 0 |}.

(** Modelled from the spec: [gobreaker.NewCircuitBreaker] is not in the
    sources at hand; a new breaker is closed with all counts at zero. *)
Definition NewCircuitBreaker (st : Settings) : CircuitBreaker :=
  {| settings := st; state := StateClosed; counts := noCounts; openedAt := 0 |}.

(** Modelled from the spec: the transition function of the gobreaker module;
    "counts: reset on every state transition", and "openedAt: timestamp when
    transition to Open occurred". *)
Definition setState (cb : CircuitBreaker) (s : State) (now : Z) : CircuitBreaker :=
  {| settings := settings cb;
     state := s;
     counts := noCounts;
     openedAt := match s with StateOpen => now | _ => openedAt cb end |}.

(** Modelled from the spec: the lazy transition of the gobreaker module:
    "once now - openedAt >= timeout, the breaker transitions to HalfOpen on
    the next call (lazy transition, not a background timer)". *)
Definition currentState (cb : CircuitBreaker) (now : Z) : CircuitBreaker :=
  match state cb with
  | StateOpen =>
      if Timeout (settings cb) <=? now - openedAt cb
      then setState cb StateHalfOpen now
      else cb
  | _ => cb
  end.

(** Modelled from the spec: the breaker with its counts replaced. *)
Definition withCounts (cb : CircuitBreaker) (c : Counts) : CircuitBreaker :=
  {| settings := settings cb; state := state cb; counts := c;
     openedAt := openedAt cb |}.

(** Modelled from the spec: the bookkeeping of the gobreaker module when a
    call is let through: one more request. *)
Definition onRequest (c : Counts) : Counts :=
  {| Requests := S (Requests c); TotalSuccesses := TotalSuccesses c;
     TotalFailures := TotalFailures c;
     ConsecutiveSuccesses := ConsecutiveSuccesses c;
     ConsecutiveFailures := ConsecutiveFailures c |}.

(** Modelled from the spec: the bookkeeping of the gobreaker module after a
    success: "on success, consecutive-failure counter resets"; while half
    open, "a trial success increments consecutive successes; when a
    success-threshold is met, transition to Closed and reset counts". *)
Definition onSuccess (cb : CircuitBreaker) (now : Z) : CircuitBreaker :=
  let c := counts cb in
  let c' := {| Requests := Requests c; TotalSuccesses := S (TotalSuccesses c);
               TotalFailures := TotalFailures c;
               ConsecutiveSuccesses := S (ConsecutiveSuccesses c);
               ConsecutiveFailures := 0 |} in
  match state cb with
  | StateClosed => withCounts cb c'
  | StateHalfOpen =>
      if (successThreshold (settings cb) <=? ConsecutiveSuccesses c')%nat
      then setState cb StateClosed now
      else withCounts cb c'
  | StateOpen => cb
  end.

(** Modelled from the spec: the bookkeeping of the gobreaker module after a
    failure: while closed, "consecutive-failure counter increments; if a
    configurable trip predicate over the rolling counts returns true, state
    transitions to Open and openedAt is recorded"; while half open, "a trial
    failure immediately transitions back to Open, resetting openedAt". *)
Definition onFailure (cb : CircuitBreaker) (now : Z) : CircuitBreaker :=
  let c := counts cb in
  let c' := {| Requests := Requests c; TotalSuccesses := TotalSuccesses c;
               TotalFailures := S (TotalFailures c);
               ConsecutiveSuccesses := 0;
               ConsecutiveFailures := S (ConsecutiveFailures c) |} in
  match state cb with
  | StateClosed =>
      if ReadyToTrip (settings cb) c'
      then setState cb StateOpen now
      else withCounts cb c'
  | StateHalfOpen => setState cb StateOpen now
  | StateOpen => cb
  end.

(** Modelled from the spec: [Execute] of gobreaker's [CircuitBreaker] is not in
    the sources at hand.  "In Closed: every call to Execute invokes op.  In
    Open: Execute does not invoke op; it fails immediately with a circuit
    open error.  In HalfOpen: a bounded number of trial calls are admitted.
    The breaker never swallows the underlying error."  The clock is read
    through [time_Now]; the breaker object is threaded through and handed
    back. *)
Definition Execute {W : Type} (time_Now : M W Z) (cb : CircuitBreaker)
    (op : M W (any * option error))
    : M W ((any * option error) * CircuitBreaker) :=
  now <- time_Now ;;
  let cb1 := currentState cb now in
  let cb2 := withCounts cb1 (onRequest (counts cb1)) in
  let proceed :=
    ('(result, err) <- op ;;
     now' <- time_Now ;;
     match err with
     | None => ret ((result, err), onSuccess cb2 now')
     | Some _ => ret ((result, err), onFailure cb2 now')
     end) in
  match state cb1 with
  | StateOpen => ret ((any_nil, Some ErrOpenState), cb1)
  | StateHalfOpen =>
      if (trialLimit (settings cb1) <=? Requests (counts cb1))%nat
      then ret ((any_nil, Some ErrTooManyRequests), cb1)
      else proceed
  | StateClosed => proceed
  end.

(** Modelled from the spec: [State] of gobreaker's [CircuitBreaker] is not in the
    sources at hand; it reports the state after the lazy transition. *)
Definition State_ {W : Type} (time_Now : M W Z) (cb : CircuitBreaker)
    : M W (State * CircuitBreaker) :=
  now <- time_Now ;;
  let cb1 := currentState cb now in
  ret (state cb1, cb1).

End gobreaker.

(** ** pkg/circuitbreaker/implementation *)

Module cbImpl.

(** [gobreakerCircuitBreaker]: the wrapper of circuit_breaker.go. *)
Record gobreakerCircuitBreaker : Type := mkBreaker {
  cb : gobreaker.CircuitBreaker
}.

Definition NewCircuitBreaker (st : gobreaker.Settings) : gobreakerCircuitBreaker :=
  {| cb := gobreaker.NewCircuitBreaker st |}.

(** [gobreakerCircuitBreaker.Execute]: [return g.cb.Execute(fn)]. *)
Definition Execute {W : Type} (time_Now : M W Z) (g : gobreakerCircuitBreaker)
    (fn : M W (any * option error))
    : M W ((any * option error) * gobreakerCircuitBreaker) :=
  '(r, cb') <- gobreaker.Execute time_Now (cb g) fn ;;
  ret (r, {| cb := cb' |}).

(** [gobreakerCircuitBreaker.State]: the [switch] over [g.cb.State()]. *)
Definition State {W : Type} (time_Now : M W Z) (g : gobreakerCircuitBreaker)
    : M W (circuitbreaker.State * gobreakerCircuitBreaker) :=
  '(s, cb') <- gobreaker.State_ time_Now (cb g) ;;
  ret (match s with
       | gobreaker.StateClosed => circuitbreaker.Closed
       | gobreaker.StateHalfOpen => circuitbreaker.HalfOpen
       | gobreaker.StateOpen => circuitbreaker.Open
       end, {| cb := cb' |}).

(** A run of calls on one breaker, as in the loop of the unit test
    ([for i := 0; i < 3; i++ { cb.Execute(...) }]): the results in order, and
    the breaker after the last call. *)
Fixpoint ExecuteAll {W : Type} (time_Now : M W Z) (g : gobreakerCircuitBreaker)
    (fns : list (M W (any * option error)))
    : M W (list (any * option error) * gobreakerCircuitBreaker) :=
  match fns with
  | [] => ret ([], g)
  | fn :: fns' =>
      '(r, g') <- Execute time_Now g fn ;;
      '(rs, g'') <- ExecuteAll time_Now g' fns' ;;
      ret (r :: rs, g'')
  end.

End cbImpl.

(** ** The idempotency record table

    [main.idempotency_records] (migrations: [id BIGINT PRIMARY KEY]) as the
    gate sees it through [IdempotencyRecordRepositoryImpl] built with
    [notFoundAsError = false], while the database answers: [Get] finds the
    row or reports nil without error, [Insert] adds the row unless the key
    is taken.  The table is one component of the world, next to any state
    [S] of the rest of the program. *)

Module store.

Definition ErrDuplicateKey : error :=
  errors_New "duplicate key value violates unique constraint".

Definition Get {S : Type} (id : Z)
    : M (gmap Z idempotency.Record * S) (option idempotency.Record * option error) :=
  fun w => Some ((fst w !! id, None), w).

Definition Insert {S : Type} (r : idempotency.Record)
    : M (gmap Z idempotency.Record * S) (option error) :=
  fun w => match fst w !! idempotency.Id r with
           | Some _ => Some (Some ErrDuplicateKey, w)
           | None => Some (None, (<[idempotency.Id r := r]> (fst w), snd w))
           end.

Definition repo {S : Type} : idempotency.RecordRepository (gmap Z idempotency.Record * S) :=
  {| idempotency.Get := Get; idempotency.Insert := Insert |}.

End store.

(** ** Fixtures

    Small concrete collaborators in the manner of the mocks of test/unit,
    on which the statements below are exercised. *)

Module fixture.

(** The world of the gate's fixtures: the record table and the call counter
    of the business function. *)
Definition W : Type := (gmap Z idempotency.Record * nat)%type.

Definition t0 : Time := {| instant := 1700000000; utc := false |}.

(** A stand-in for [encoding/json]: every value renders as the payload
    ["{}"], and only that payload parses. *)
Definition std : idempotency.Stdlib W :=
  {| idempotency.json_Marshal := fun _ => ret ("{}", None);
     idempotency.json_Unmarshal := fun d _ =>
       ret (if String.eqb d "{}" then None
            else Some (errors_New "invalid character"));
     idempotency.time_Now := ret t0 |}.

Definition newResult : M W any := ret (any_User (Some 0%nat)).

(** Business functions that count their calls. *)
Definition fnOk (v : any) : M W (any * option error) :=
  fun w => Some ((v, None), (fst w, S (snd w))).

Definition fnErr (e : error) : M W (any * option error) :=
  fun w => Some ((any_nil, Some e), (fst w, S (snd w))).

Definition cached : idempotency.Record :=
  {| idempotency.Id := 100; idempotency.RequestType := "create_user";
     idempotency.ReferenceId := 200; idempotency.ResponseData := "{}";
     idempotency.CreatedAt := t0 |}.

Definition corrupt : idempotency.Record :=
  {| idempotency.Id := 100; idempotency.RequestType := "create_user";
     idempotency.ReferenceId := 200;
     idempotency.ResponseData := "not valid json{{{";
     idempotency.CreatedAt := t0 |}.

Definition emptyTable : gmap Z idempotency.Record := ∅.

Definition businessErr : error := errors_New "business logic failed".

(** The collaborators of the service: each call leaves its name in the
    environment, which is the list of the calls made so far. *)
Definition Env : Type := list string.

Definition called {A : Type} (name : string) (a : A) : M Env A :=
  fun l => Some (a, l ++ [name]).

Definition userRepo (got : option User * option error) (inserted : option error)
    : service.UserRepository Env :=
  {| service.Get := fun _ => called "UserRepository.Get" got;
     service.Insert := fun _ => called "UserRepository.Insert" inserted |}.

Definition recordRepo (got : option idempotency.Record * option error)
    (inserted : option error) : idempotency.RecordRepository Env :=
  {| idempotency.Get := fun _ => called "RecordRepository.Get" got;
     idempotency.Insert := fun _ => called "RecordRepository.Insert" inserted |}.

Definition unitOfWork (commit abort : option error)
    (ur : service.UserRepository Env)
    (rr : idempotency.RecordRepository Env) : service.UnitOfWork Env :=
  {| service.Commit := called "Commit" commit;
     service.Abort := called "Abort" abort;
     service.UserRepository_ := ret ur;
     service.IdempotencyRecordRepository := ret rr |}.

Definition factory (u : service.UnitOfWork Env) : service.UnitOfWorkFactory Env :=
  {| service.New := called "New" (u, None) |}.

Definition snowflakeId : Z := 12345.

Definition snowflake : service.Snowflake Env :=
  {| service.Generate := called "Generate" snowflakeId |}.

Definition now : M Env Time := ret t0.

(** A stand-in codec: the payload is the e-mail address, and an empty
    payload does not parse. *)
Definition codec : service.Codec :=
  {| service.encode := fun u => (Email u, None);
     service.decode := fun d u =>
       if String.eqb d "" then (u, Some (errors_New "unexpected end of JSON input"))
       else ({| Id := Id u; Email := d; Username := Username u;
                Password := Password u; CreatedAt := CreatedAt u;
                UpdatedAt := UpdatedAt u |}, None) |}.

Definition userService (u : service.UnitOfWork Env) : service.userService Env :=
  {| service.uowFactory := factory u;
     service.idempotency_ := service.NewIdempotency codec now;
     service.snowflake := snowflake |}.

Definition alice : User :=
  {| Id := 1; Email := "a@b.com"; Username := "alice"; Password := "hash";
     CreatedAt := Time_zero; UpdatedAt := Time_zero |}.

Definition dbErr : error := errors_New "db error".
Definition commitErr : error := errors_New "commit failed".
Definition abortErr : error := errors_New "rollback failed".

Definition cachedUserRecord : idempotency.Record :=
  {| idempotency.Id := 99; idempotency.RequestType := "create_user";
     idempotency.ReferenceId := 100;
     idempotency.ResponseData := "cached@test.com";
     idempotency.CreatedAt := t0 |}.

(** The caller's object of [CreateUser] sits at address 0. *)
Definition world0 : service.World Env :=
  {| service.heap := [alice]; service.env := [] |}.

(** A breaker that trips at three consecutive failures and probes again
    after 60s, in a world that is just the clock. *)
Definition breakerSettings : gobreaker.Settings :=
  {| gobreaker.ReadyToTrip :=
       fun c => (3 <=? gobreaker.ConsecutiveFailures c)%nat;
     gobreaker.Timeout := 60000000000;
     gobreaker.trialLimit := 1;
     gobreaker.successThreshold := 1 |}.

Definition clockNow : M Z Z := fun w => Some (w, w).

Definition failing : M Z (any * option error) :=
  fun w => Some ((any_nil, Some (errors_New "fail")), w).

Definition openBreaker : cbImpl.gobreakerCircuitBreaker :=
  {| cbImpl.cb :=
       {| gobreaker.settings := breakerSettings;
          gobreaker.state := gobreaker.StateOpen;
          gobreaker.counts := gobreaker.noCounts;
          gobreaker.openedAt := 1000 |} |}.

(** A unit of work as the factory builds it. *)
Definition someFactory : repository.transactionDbUnitOfWorkFactory :=
  {| repository.f_db := 1; repository.f_cb := 2; repository.f_retry := 3 |}.

Definition begin (d : repository.handle) : repository.handle * option error :=
  (d + 10, None).

Definition freshUow : repository.transactionDbUnitOfWork :=
  {| repository.tx := 11; repository.uow_cb := 2; repository.uow_retry := 3;
     repository.userRepository := None;
     repository.userRepositoryOnce := {| repository.done := false |};
     repository.ledgerRepository := None;
     repository.ledgerRepositoryOnce := {| repository.done := false |};
     repository.idempotencyRecordRepository := None;
     repository.idempotencyRecordRepositoryOnce := {| repository.done := false |} |}.

End fixture.

(** ** More fixtures *)

Module sample.

(** A stand-in for [encoding/json] whose [Marshal] rejects every value, as
    [json.Marshal] does for a function value. *)
Definition unsupported : error := errors_New "json: unsupported type: func()".

Definition stdNoMarshal : idempotency.Stdlib fixture.W :=
  {| idempotency.json_Marshal := fun _ => ret ("", Some unsupported);
     idempotency.json_Unmarshal := idempotency.json_Unmarshal fixture.std;
     idempotency.time_Now := idempotency.time_Now fixture.std |}.

Definition connErr : error := errors_New "database connection failed".

(** A record repository whose [Get] fails. *)
Definition downRepo : idempotency.RecordRepository fixture.W :=
  {| idempotency.Get := fun _ => ret (None, Some connErr);
     idempotency.Insert := fun _ => panic |}.

End sample.

(** ** Observation of the service's collaborators

    The unit tests of the services record in captured variables whether
    [Commit] and [Abort] were called ([committed], [aborted]).  Here the unit
    of work a factory hands out logs the two calls; every other collaborator
    runs as it is. *)

Module finalization.

Inductive Call : Type := Committed | Aborted.

Section Observed.
Context {E : Type}.

Definition quietUserRepo (r : service.UserRepository E)
    : service.UserRepository (E * list Call) :=
  {| service.Get := fun id => quiet (service.Get r id);
     service.Insert := fun u => quiet (service.Insert r u) |}.

Definition quietRecordRepo (r : idempotency.RecordRepository E)
    : idempotency.RecordRepository (E * list Call) :=
  {| idempotency.Get := fun id => quiet (idempotency.Get r id);
     idempotency.Insert := fun rec => quiet (idempotency.Insert r rec) |}.

Definition observedUow (u : service.UnitOfWork E)
    : service.UnitOfWork (E * list Call) :=
  {| service.Commit := observe Committed (service.Commit u);
     service.Abort := observe Aborted (service.Abort u);
     service.UserRepository_ :=
       bind (quiet (service.UserRepository_ u)) (fun r => ret (quietUserRepo r));
     service.IdempotencyRecordRepository :=
       bind (quiet (service.IdempotencyRecordRepository u))
            (fun r => ret (quietRecordRepo r)) |}.

Definition observedFactory (f : service.UnitOfWorkFactory E)
    : service.UnitOfWorkFactory (E * list Call) :=
  {| service.New :=
       bind (quiet (service.New f))
            (fun x => ret (observedUow (fst x), snd x)) |}.

(** The service [s] with its units of work observed, and [g] as its gate. *)
Definition observedService (s : service.userService E)
    (g : service.Idempotency (E * list Call))
    : service.userService (E * list Call) :=
  {| service.uowFactory := observedFactory (service.uowFactory s);
     service.idempotency_ := g;
     service.snowflake :=
       {| service.Generate := quiet (service.Generate (service.snowflake s)) |} |}.

End Observed.

End finalization.

(** ** internal/service: the ledger service

    [GetLedgers] only hands the slice of ledgers through, so a
    [[]*model.Ledger] is the list of the ledgers pointed to, and the nil slice
    is the empty list. *)

Module ledger.

(** [decimal.Decimal] of shopspring/decimal, which the service never looks
    into: a coefficient and a power of ten. *)
Record Decimal : Type := mkDecimal { coefficient : Z; exponent : Z }.

(** [model.Ledger]. *)
Record Ledger : Type := mkLedger {
  Id : Z;
  UserId : Z;
  TransactionType : string;
  Token : string;
  Amount : Decimal;
  CreatedAt : Time
}.


(** [repository.GetQuery]. *)
Record GetQuery : Type := mkGetQuery {
  IdEq : Z;
  UserIdEq : Z;
  TransactionTypeEq : string;
  TokenEq : string
}.

Section Service.
Context {E : Type}.

(** [repository.LedgerRepository]. *)
Record LedgerRepository : Type := mkLedgerRepository {
  Get : GetQuery -> M E (list Ledger * option error);
  Insert : Ledger -> M E (option error)
}.

(** [repository.UnitOfWork], as the ledger service uses it. *)
Record UnitOfWork : Type := mkUnitOfWork {
  Commit : M E (option error);
  Abort : M E (option error);
  LedgerRepository_ : M E LedgerRepository
}.

(** [repository.UnitOfWorkFactory]. *)
Record UnitOfWorkFactory : Type := mkUnitOfWorkFactory {
  New : M E (UnitOfWork * option error)
}.

Record ledgerService : Type := mkLedgerService {
  uowFactory : UnitOfWorkFactory
}.


End Service.

Arguments LedgerRepository : clear implicits.
Arguments UnitOfWork : clear implicits.
Arguments UnitOfWorkFactory : clear implicits.
Arguments ledgerService : clear implicits.

(** The ledger service with the [Commit] and [Abort] of its units of work
    observed. *)
Definition observedService {E : Type} (s : ledgerService E)
    : ledgerService (E * list finalization.Call) :=
  {| uowFactory :=
       {| New :=
            bind (quiet (New (uowFactory s)))
              (fun x =>
                 ret ({| Commit := observe finalization.Committed (Commit (fst x));
                         Abort := observe finalization.Aborted (Abort (fst x));
                         LedgerRepository_ :=
                           bind (quiet (LedgerRepository_ (fst x)))
                             (fun r =>
                                ret {| Get := fun q => quiet (Get r q);
                                       Insert := fun l => quiet (Insert r l) |}) |},
                      snd x)) |} |}.

End ledger.

(** ** Fixtures of the services *)

Module serviceSample.

(** A factory that cannot open a transaction. *)
Definition brokenFactory (u : service.UnitOfWork fixture.Env)
    : service.UnitOfWorkFactory fixture.Env :=
  {| service.New := fixture.called "New" (u, Some fixture.dbErr) |}.

Definition brokenService (u : service.UnitOfWork fixture.Env)
    : service.userService fixture.Env :=
  {| service.uowFactory := brokenFactory u;
     service.idempotency_ := service.NewIdempotency fixture.codec fixture.now;
     service.snowflake := fixture.snowflake |}.

(** The user as the database returns it after the insert. *)
Definition created : User :=
  {| Id := fixture.snowflakeId; Email := "a@b.com"; Username := "alice";
     Password := "hash";
     CreatedAt := {| instant := 1700000000; utc := true |};
     UpdatedAt := {| instant := 1700000000; utc := true |} |}.

Definition deposit : ledger.Ledger :=
  {| ledger.Id := 1; ledger.UserId := 100; ledger.TransactionType := "deposit";
     ledger.Token := "USDT";
     ledger.Amount := {| ledger.coefficient := 1005; ledger.exponent := -1 |};
     ledger.CreatedAt := fixture.t0 |}.

(** A ledger repository that answers a query for user 100 with one ledger
    and every other query with none. *)
Definition ledgerRepo : ledger.LedgerRepository fixture.Env :=
  {| ledger.Get := fun q =>
       fixture.called "LedgerRepository.Get"
         (if Z.eqb (ledger.UserIdEq q) 100 then [deposit] else [], None);
     ledger.Insert := fun _ => fixture.called "LedgerRepository.Insert" None |}.

Definition ledgerService : ledger.ledgerService fixture.Env :=
  {| ledger.uowFactory :=
       {| ledger.New :=
            fixture.called "New"
              ({| ledger.Commit := fixture.called "Commit" None;
                  ledger.Abort := fixture.called "Abort" None;
                  ledger.LedgerRepository_ := ret ledgerRepo |}, None) |} |}.

End serviceSample.

(** ** Fixtures of the retry executor *)

Module retrySample.

(** [NewRetry(3, retry.WithInterval(time.Millisecond))]. *)
Definition executor : retry.goRetry :=
  {| retry.backoff :=
       goretry.WithMaxRetries 3
         {| goretry.base := 1000000; goretry.exp_attempt := 0 |};
     retry.retryableFn := None |}.

Definition retryableErr : error := errors_New "retryable".
Definition fatalErr : error := errors_New "fatal".

Definition isRetryableErr (e : error) : bool :=
  match e with
  | errors_New s => String.eqb s "retryable"
  | _ => false
  end.

(** The executor of the unit test that retries by error identity:
    [NewRetry(5, WithInterval(time.Millisecond), WithRetryable(...))]. *)
Definition selective : retry.goRetry :=
  {| retry.backoff :=
       goretry.WithMaxRetries 5
         {| goretry.base := 1000000; goretry.exp_attempt := 0 |};
     retry.retryableFn := Some isRetryableErr |}.

(** Two retryable failures, then a fatal one. *)
Definition twoThenFatal : nat -> option error :=
  fun n => if (n <? 2)%nat then Some retryableErr else Some fatalErr.

(** A context cancelled half a millisecond from the start. *)
Definition soonCancelled : retry.Context := {| retry.cancelAt := Some 500000 |}.

End retrySample.

(** ** internal/bootstrap: the snowflake node of a pod

    [PodNodeID] hashes the host name with [hash/fnv] and reads the digest
    back with [encoding/binary]; both are of Go's standard library and are
    written out here as the library has them.  A byte is a [Z] below 256. *)

Module fnv.

Definition offset64 : Z := 14695981039346656037.
Definition prime64 : Z := 1099511628211.

(** [fnv.New64a()]: the state of a [sum64a] is the hash so far. *)
Definition New64a : Z := offset64.

(** [sum64a.Write]: for every byte, [hash ^= c] and then [hash *= prime64]
    on a [uint64]. *)
Definition Write (s : Z) (data : list Z) : Z :=
  fold_left (fun hash c => uint64_wrap (Z.lxor hash c * prime64)) data s.

(** [byte(v)]: the low eight bits. *)
Definition byte (v : Z) : Z := Z.land v 255.

(** [sum64a.Sum(in)]: the eight bytes of the hash, most significant first,
    appended to [in]. *)
Definition Sum (s : Z) (b : list Z) : list Z :=
  b ++ [byte (Z.shiftr s 56); byte (Z.shiftr s 48); byte (Z.shiftr s 40);
        byte (Z.shiftr s 32); byte (Z.shiftr s 24); byte (Z.shiftr s 16);
        byte (Z.shiftr s 8); byte s].

End fnv.

Module binary.

(** [binary.BigEndian.Uint64(b)]; [None] is the panic of the bounds check
    [_ = b[7]] on a slice shorter than eight bytes. *)
Definition BigEndian_Uint64 (b : list Z) : option Z :=
  match b with
  | b0 :: b1 :: b2 :: b3 :: b4 :: b5 :: b6 :: b7 :: _ =>
      Some (Z.lor b7 (Z.lor (Z.shiftl b6 8) (Z.lor (Z.shiftl b5 16)
           (Z.lor (Z.shiftl b4 24) (Z.lor (Z.shiftl b3 32)
           (Z.lor (Z.shiftl b2 40) (Z.lor (Z.shiftl b1 48)
                  (Z.shiftl b0 56))))))))
  | _ => None
  end.

End binary.

(** The bwmarrin/snowflake module, as far as [NewSnowflake] depends on it:
    with the module's default of ten node bits, [NewNode] accepts the node
    numbers 0 to 1023 and refuses every other. *)
Module bwmarrin.

Record Node : Type := mkNode { node : Z }.

Definition nodeMax : Z := 1023.

Definition NewNode (n : Z) : option Node * option error :=
  if (n <? 0) || (nodeMax <? n)
  then (None, Some (errors_New "Node number must be between 0 and 1023"))
  else (Some {| node := n |}, None).

End bwmarrin.

Module bootstrap.

(** [[]byte(s)]. *)
Fixpoint bytes (s : string) : list Z :=
  match s with
  | EmptyString => []
  | String c s' => Z.of_N (Ascii.N_of_ascii c) :: bytes s'
  end.

(** [os.Getenv(key)] on the environment of the process: an unset variable
    reads as the empty string. *)
Definition os_Getenv (environ : gmap string string) (key : string) : string :=
  default "" (environ !! key).

(** [PodNodeID] (internal/bootstrap/snowflake.go); [None] is a panic. *)
Definition PodNodeID (environ : gmap string string) : option (Z * option error) :=
  let hostname := os_Getenv environ "HOSTNAME" in
  if String.eqb hostname "" then Some (0, Some (errors_New "HOSTNAME is not set"))
  else
    let h := fnv.Write fnv.New64a (bytes hostname) in
    match binary.BigEndian_Uint64 (fnv.Sum h []) with
    | Some v => Some (int64_wrap (v mod 1024), None)
    | None => None
    end.

(** [bwmarrinSnowflake] and [NewSnowflake]
    (pkg/snowflake/implementation/bwmarrin_snowflake.go). *)
Record bwmarrinSnowflake : Type := mkSnowflake { node : bwmarrin.Node }.

Definition NewSnowflake (nodeID : Z) : option bwmarrinSnowflake * option error :=
  let '(n, err) := bwmarrin.NewNode nodeID in
  match err, n with
  | Some e, _ => (None, Some e)
  | None, Some n => (Some {| node := n |}, None)
  | None, None => (None, None)
  end.

(** [InitializeSnowflake]. *)
Definition InitializeSnowflake (environ : gmap string string)
    : option (option bwmarrinSnowflake * option error) :=
  match PodNodeID environ with
  | None => None
  | Some (nodeID, Some e) => Some (None, Some e)
  | Some (nodeID, None) => Some (NewSnowflake nodeID)
  end.

End bootstrap.

(** ** The gRPC layer: pkg/apperror, internal/controller, internal/interceptor

    The controllers and the interceptor tell errors apart by the two
    sentinels of pkg/apperror, which [errors.Is] finds through the wrappers
    [fmt.Errorf] builds with the verb [%w].  A sentinel is one object, so an
    error of the layers below, whatever its text, is never one. *)

Module apperror.

(** [ErrNotFound = errors.New("not found")] and
    [ErrInvalidArgument = errors.New("invalid argument")]. *)
Inductive Sentinel : Type := ErrNotFound | ErrInvalidArgument.

(** An error as the gRPC layer meets it: a sentinel, an error wrapped by
    [fmt.Errorf(prefix + "%w", err)], or an error of the layers below. *)
Inductive Error : Type :=
| sentinel (s : Sentinel)
| Errorf (prefix : string) (err : Error)
| lower (e : error).

Definition Sentinel_eqb (a b : Sentinel) : bool :=
  match a, b with
  | ErrNotFound, ErrNotFound | ErrInvalidArgument, ErrInvalidArgument => true
  | _, _ => false
  end.

(** [errors.Is(err, target)] for a sentinel [target]: the chain of [Unwrap]
    is followed until the very object [target] is met. *)
Fixpoint errors_Is (err : Error) (target : Sentinel) : bool :=
  match err with
  | sentinel s => Sentinel_eqb s target
  | Errorf _ inner => errors_Is inner target
  | lower _ => false
  end.

(** [err.Error()] of the errors of the layers below. *)
Fixpoint error_Error (e : error) : string :=
  match e with
  | errors_New msg => msg
  | retryableError inner => "retryable: " ++ error_Error inner
  | ErrOpenState => "circuit breaker is open"
  | ErrTooManyRequests => "too many requests"
  | context_Canceled => "context canceled"
  | context_DeadlineExceeded => "context deadline exceeded"
  end.

(** [err.Error()]. *)
Fixpoint Error_ (err : Error) : string :=
  match err with
  | sentinel ErrNotFound => "not found"
  | sentinel ErrInvalidArgument => "invalid argument"
  | Errorf prefix inner => prefix ++ Error_ inner
  | lower e => error_Error e
  end.

End apperror.

(** [google.golang.org/grpc]: the status codes the interceptor uses, and the
    error [status.Error(code, msg)] builds. *)
Module grpc.

Inductive Code : Type := NotFound | InvalidArgument | Internal.

Record Status : Type := mkStatus { code : Code; message : string }.

Definition status_Error (c : Code) (msg : string) : Status :=
  {| code := c; message := msg |}.

End grpc.

Module interceptor.

(** [observability.Field]: the fields the interceptor logs.
    [String_panic] is [observability.String("panic", fmt.Sprintf("%v", r))],
    whose value is the panic value, which the monad does not record. *)
Inductive Field : Type :=
| Err (e : apperror.Error)
| String_ (key value : string)
| String_panic.

(** A call of [log.Error]. *)
Record ErrorCall : Type := mkErrorCall { msg : string; fields : list Field }.

(** [ErrorInterceptor(log)] applied to a handler
    (internal/interceptor/error_interceptor.go): the response and the status
    error returned, the calls of [log.Error] made, and the world the handler
    left, which is known when the handler returned and not when it panicked
    and the deferred function recovered. *)
Definition ErrorInterceptor {W A : Type} (FullMethod : string)
    (handler : M W (option A * option apperror.Error)) (w : W)
    : (option A * option grpc.Status) * list ErrorCall * option W :=
  match handler w with
  | None =>
      ((None, Some (grpc.status_Error grpc.Internal "internal server error")),
       [ {| msg := "panic recovered";
            fields := [String_panic; String_ "method" FullMethod] |} ],
       None)
  | Some ((resp, None), w') => ((resp, None), [], Some w')
  | Some ((resp, Some err), w') =>
      if apperror.errors_Is err apperror.ErrNotFound
      then ((None, Some (grpc.status_Error grpc.NotFound (apperror.Error_ err))),
            [], Some w')
      else if apperror.errors_Is err apperror.ErrInvalidArgument
      then ((None, Some (grpc.status_Error grpc.InvalidArgument
                           (apperror.Error_ err))),
            [], Some w')
      else ((None, Some (grpc.status_Error grpc.Internal "internal server error")),
            [ {| msg := "unhandled error";
                 fields := [Err err; String_ "method" FullMethod] |} ],
            Some w')
  end.

End interceptor.

(** The messages of the service, package [v1] of the generated code.
    [GetUserByIdResponse] and [CreateUserResponse] carry the same five
    fields, here under one record. *)
Module v1.

Record GetUserByIdRequest : Type := mkGetUserByIdRequest { Id : Z }.

Record CreateUserRequest : Type := mkCreateUserRequest {
  IdempotencyId : Z;
  Email : string;
  Username : string;
  Password : string
}.

Record UserResponse : Type := mkUserResponse {
  r_Id : Z;
  r_Email : string;
  r_Username : string;
  r_CreatedAt : Z;
  r_UpdatedAt : Z
}.

End v1.

Module controller.

(** The verb [%d] of [fmt] on an [int64]. *)
Definition itoa (z : Z) : string := NilZero.string_of_int (Z.to_int z).

(** [timestamppb.New(t)]: the instant of [t], without its location. *)
Definition timestamppb_New (t : Time) : Z := instant t.

Section Controller.
Context {E : Type}.

(** [service.UserService]. *)
Record UserService : Type := mkUserService {
  GetUser : Z -> M (service.World E) (option loc * option error);
  CreateUser_ : Z -> option loc -> M (service.World E) (option loc * option error)
}.

(** The user service of internal/service behind that interface. *)
Definition NewUserService (s : service.userService E) (time_Now : M E Time)
    : UserService :=
  {| GetUser := service.GetUser s;
     CreateUser_ := service.CreateUser s time_Now |}.

(** The response built from a user: the password is not part of it. *)
Definition response (u : User) : v1.UserResponse :=
  {| v1.r_Id := Id u;
     v1.r_Email := Email u;
     v1.r_Username := Username u;
     v1.r_CreatedAt := timestamppb_New (CreatedAt u);
     v1.r_UpdatedAt := timestamppb_New (UpdatedAt u) |}.

(** [UserController.GetUserById]. *)
Definition GetUserById (userService : UserService) (request : v1.GetUserByIdRequest)
    : M (service.World E) (option v1.UserResponse * option apperror.Error) :=
  if v1.Id request <=? 0
  then ret (None, Some (apperror.Errorf "id must be greater than 0: "
                          (apperror.sentinel apperror.ErrInvalidArgument)))
  else
    '(user, err) <- GetUser userService (v1.Id request) ;;
    match err with
    | Some e => ret (None, Some (apperror.lower e))
    | None =>
        match user with
        | None =>
            ret (None, Some (apperror.Errorf ("user " ++ itoa (v1.Id request) ++ ": ")
                               (apperror.sentinel apperror.ErrNotFound)))
        | Some _ =>
            u <- service.load user ;;
            ret (Some (response u), None)
        end
    end.

(** [UserController.CreateUser]; the dereference of a nil [createdUser]
    panics. *)
Definition CreateUser (userService : UserService) (request : v1.CreateUserRequest)
    : M (service.World E) (option v1.UserResponse * option apperror.Error) :=
  if v1.IdempotencyId request <=? 0
  then ret (None, Some (apperror.Errorf "idempotency_id must be greater than 0: "
                          (apperror.sentinel apperror.ErrInvalidArgument)))
  else if String.eqb (v1.Email request) ""
  then ret (None, Some (apperror.Errorf "email is required: "
                          (apperror.sentinel apperror.ErrInvalidArgument)))
  else if String.eqb (v1.Username request) ""
  then ret (None, Some (apperror.Errorf "username is required: "
                          (apperror.sentinel apperror.ErrInvalidArgument)))
  else if String.eqb (v1.Password request) ""
  then ret (None, Some (apperror.Errorf "password is required: "
                          (apperror.sentinel apperror.ErrInvalidArgument)))
  else
    user <- service.alloc
              {| Id := 0; Email := v1.Email request;
                 Username := v1.Username request;
                 Password := v1.Password request;
                 CreatedAt := Time_zero; UpdatedAt := Time_zero |} ;;
    '(createdUser, err) <- CreateUser_ userService (v1.IdempotencyId request)
                             (Some user) ;;
    match err with
    | Some e => ret (None, Some (apperror.lower e))
    | None =>
        u <- service.load createdUser ;;
        ret (Some (response u), None)
    end.

End Controller.

Arguments UserService : clear implicits.

End controller.

(** ** Fixtures of the gRPC layer *)

Module grpcSample.

(** A user service that panics as soon as it is called. *)
Definition unreachable : controller.UserService fixture.Env :=
  {| controller.GetUser := fun _ => panic;
     controller.CreateUser_ := fun _ _ => panic |}.

(** The user service of the repository over a database without users. *)
Definition emptyDb : controller.UserService fixture.Env :=
  controller.NewUserService
    (fixture.userService
       (fixture.unitOfWork None None
          (fixture.userRepo (None, None) None)
          (fixture.recordRepo (None, None) None)))
    fixture.now.

(** The same over a database that fails. *)
Definition brokenDb : controller.UserService fixture.Env :=
  controller.NewUserService
    (fixture.userService
       (fixture.unitOfWork None None
          (fixture.userRepo (None, Some fixture.dbErr) (Some fixture.dbErr))
          (fixture.recordRepo (None, None) None)))
    fixture.now.

Definition newUserRequest : v1.CreateUserRequest :=
  {| v1.IdempotencyId := 99; v1.Email := "a@b.com"; v1.Username := "alice";
     v1.Password := "hash" |}.

Definition noWorld : service.World fixture.Env :=
  {| service.heap := []; service.env := [] |}.

End grpcSample.

(* ====================================================================== *)
(** * Properties *)
(* ====================================================================== *)

(** ** The idempotency gate *)

Section ExecuteFacts.
Context {W : Type} (std : idempotency.Stdlib W)
        (repo : idempotency.RecordRepository W)
        (id : Z) (requestType : string) (referenceId : Z)
        (newResult : M W any).

Local Ltac step :=
  match goal with
  | H : ?m ?w = Some _ |- context [?m ?w] => rewrite H; cbn
  end.

Local Ltac run :=
  unfold idempotency.observedExecute, idempotency.Execute,
         idempotency.observedRepo, idempotency.quietStdlib;
  repeat (cbn; unfold bind, observe, quiet, ret; cbn; try step).

(** A failing [Get] is reported as it is. *)
Lemma Execute_get_error (fn : M W (any * option error)) w rec e w1 :
  idempotency.Get repo id w = Some ((rec, Some e), w1) ->
  idempotency.Execute std repo id requestType referenceId newResult fn w
    = Some ((any_nil, Some e), w1).
Proof. intros HG. run. reflexivity. Qed.

(** The hit branch as a whole: the fresh instance of [newResult] is handed to
    [json.Unmarshal], and the outcome of the call is decided by the error of
    [json.Unmarshal] alone. *)
Lemma Execute_hit (fn : M W (any * option error)) w rec w1 res w2 uerr w3 :
  idempotency.Get repo id w = Some ((Some rec, None), w1) ->
  newResult w1 = Some (res, w2) ->
  idempotency.json_Unmarshal std (idempotency.ResponseData rec) res w2
    = Some (uerr, w3) ->
  idempotency.Execute std repo id requestType referenceId newResult fn w
    = Some (match uerr with
            | Some e => (any_nil, Some e)
            | None => (res, None)
            end, w3).
Proof. intros HG HN HU. run. destruct uerr; reflexivity. Qed.

(** C1: when [Get] finds a record, [Execute] answers with the fresh instance
    of [newResult] after [json.Unmarshal] has filled it from the record's
    [ResponseData], whatever [fn] is; the calls that cross its boundary are
    [Get] and [newResult] and nothing else, so [fn] is not invoked: even a
    business function that panics as soon as it is called (the
    [t.Fatal] closure of the unit test) leaves the answer as it is. *)
Theorem Execute_hit_returns_cached (fn : M W (any * option error))
    w rec w1 res w2 w3 :
  idempotency.Get repo id w = Some ((Some rec, None), w1) ->
  newResult w1 = Some (res, w2) ->
  idempotency.json_Unmarshal std (idempotency.ResponseData rec) res w2
    = Some (None, w3) ->
  idempotency.Execute std repo id requestType referenceId newResult fn w
    = Some ((res, None), w3)
  /\ idempotency.observedExecute std repo id requestType referenceId newResult fn w
    = Some ((res, None),
            (w3, [idempotency.CallGet id; idempotency.CallNewResult]))
  /\ idempotency.Execute std repo id requestType referenceId newResult panic w
    = Some ((res, None), w3).
Proof. intros HG HN HU. repeat split; run; reflexivity. Qed.

(** The answer on a hit does not depend on [fn]: a business function that
    panics as soon as it is called changes nothing. *)
Corollary Execute_hit_ignores_fn (fn fn' : M W (any * option error)) w rec w1 :
  idempotency.Get repo id w = Some ((Some rec, None), w1) ->
  idempotency.Execute std repo id requestType referenceId newResult fn w
  = idempotency.Execute std repo id requestType referenceId newResult fn' w.
Proof. intros HG. run. reflexivity. Qed.

(** C7: when [Get] finds a record whose [ResponseData] does not deserialize,
    [Execute] returns the error of [json.Unmarshal] and no result, whatever
    [fn] is; [fn] is not invoked, not even when it is a function that panics
    as soon as it is called: the failure is final, there is no fall back to
    running the business function. *)
Theorem Execute_corrupt_record_fails (fn : M W (any * option error))
    w rec w1 res w2 e w3 :
  idempotency.Get repo id w = Some ((Some rec, None), w1) ->
  newResult w1 = Some (res, w2) ->
  idempotency.json_Unmarshal std (idempotency.ResponseData rec) res w2
    = Some (Some e, w3) ->
  idempotency.Execute std repo id requestType referenceId newResult fn w
    = Some ((any_nil, Some e), w3)
  /\ idempotency.observedExecute std repo id requestType referenceId newResult fn w
    = Some ((any_nil, Some e),
            (w3, [idempotency.CallGet id; idempotency.CallNewResult]))
  /\ idempotency.Execute std repo id requestType referenceId newResult panic w
    = Some ((any_nil, Some e), w3).
Proof. intros HG HN HU. repeat split; run; reflexivity. Qed.

(** On a miss, a failing [fn] ends the call: its error is reported, the world
    is the one [fn] left, and [Insert] is not called. *)
Lemma Execute_fn_error (fn : M W (any * option error)) w w1 v e w2 :
  idempotency.Get repo id w = Some ((None, None), w1) ->
  fn w1 = Some ((v, Some e), w2) ->
  idempotency.Execute std repo id requestType referenceId newResult fn w
    = Some ((any_nil, Some e), w2)
  /\ idempotency.observedExecute std repo id requestType referenceId newResult fn w
    = Some ((any_nil, Some e),
            (w2, [idempotency.CallGet id; idempotency.CallFn])).
Proof. intros HG HF. split; run; reflexivity. Qed.

(** On a miss, a result that does not serialize ends the call before any
    [Insert]. *)
Lemma Execute_marshal_error (fn : M W (any * option error))
    w w1 R w2 data e w3 :
  idempotency.Get repo id w = Some ((None, None), w1) ->
  fn w1 = Some ((R, None), w2) ->
  idempotency.json_Marshal std R w2 = Some ((data, Some e), w3) ->
  idempotency.observedExecute std repo id requestType referenceId newResult fn w
    = Some ((any_nil, Some e),
            (w3, [idempotency.CallGet id; idempotency.CallFn])).
Proof. intros HG HF HM. run. reflexivity. Qed.

(** C3: on a miss with [fn] returning [R] and [R] serializing to [data],
    [Execute] calls [Insert] once, with the record
    [{id, requestType, referenceId, data, now}], after [Get] and [fn] and
    nothing else; it then returns [R] itself if the insert succeeded, and the
    insert's error with no result otherwise. *)
Theorem Execute_miss_inserts_once (fn : M W (any * option error))
    w w1 R w2 data w3 now w4 ierr w5 :
  idempotency.Get repo id w = Some ((None, None), w1) ->
  fn w1 = Some ((R, None), w2) ->
  idempotency.json_Marshal std R w2 = Some ((data, None), w3) ->
  idempotency.time_Now std w3 = Some (now, w4) ->
  idempotency.Insert repo
    {| idempotency.Id := id; idempotency.RequestType := requestType;
       idempotency.ReferenceId := referenceId;
       idempotency.ResponseData := data; idempotency.CreatedAt := now |} w4
    = Some (ierr, w5) ->
  let outcome := match ierr with
                 | Some e => (any_nil, Some e)
                 | None => (R, None)
                 end in
  idempotency.Execute std repo id requestType referenceId newResult fn w
    = Some (outcome, w5)
  /\ idempotency.observedExecute std repo id requestType referenceId newResult fn w
    = Some (outcome,
            (w5, [idempotency.CallGet id; idempotency.CallFn;
                  idempotency.CallInsert
                    {| idempotency.Id := id;
                       idempotency.RequestType := requestType;
                       idempotency.ReferenceId := referenceId;
                       idempotency.ResponseData := data;
                       idempotency.CreatedAt := now |}])).
Proof.
  intros HG HF HM HT HI outcome. subst outcome.
  split; run; destruct ierr; reflexivity.
Qed.

End ExecuteFacts.

(** ** The gate over the record table *)

Section ExecuteOnTable.
Context {S : Type} (std : idempotency.Stdlib (gmap Z idempotency.Record * S))
        (id : Z) (requestType : string) (referenceId : Z)
        (newResult : M (gmap Z idempotency.Record * S) any).

(** C2: with no record for [id] in the table and [fn] failing with [e]
    (without writing to the table itself), [Execute] returns exactly [e] and
    no result; it calls [Get] and [fn] and never [Insert], so the table is
    what it was; and a later call with the same [id], made while the table
    is still the same, invokes its business function again: whenever that
    call returns, its log starts with [Get] and [fn], and if the function
    fails again it is that new error which is reported. *)
Theorem Execute_fn_error_keeps_table
    (fn : M (gmap Z idempotency.Record * S) (any * option error))
    (t : gmap Z idempotency.Record) (s : S) v e s' :
  t !! id = None ->
  fn (t, s) = Some ((v, Some e), (t, s')) ->
  idempotency.Execute std store.repo id requestType referenceId newResult fn (t, s)
    = Some ((any_nil, Some e), (t, s'))
  /\ idempotency.observedExecute std store.repo id requestType referenceId
       newResult fn (t, s)
    = Some ((any_nil, Some e),
            ((t, s'), [idempotency.CallGet id; idempotency.CallFn]))
  /\ (forall fn2 s2 r w tr,
        idempotency.observedExecute std store.repo id requestType referenceId
          newResult fn2 (t, s2) = Some (r, (w, tr)) ->
        firstn 2 tr = [idempotency.CallGet id; idempotency.CallFn])
  /\ (forall fn2 s2 v2 e2 w2,
        fn2 (t, s2) = Some ((v2, Some e2), w2) ->
        idempotency.Execute std store.repo id requestType referenceId
          newResult fn2 (t, s2) = Some ((any_nil, Some e2), w2)).
Proof.
  intros Hnone Hfn.
  assert (HG : forall s0 : S, idempotency.Get (@store.repo S) id (t, s0)
                          = Some ((None, None), (t, s0))).
  { intros s0. cbn. unfold store.Get. cbn. rewrite Hnone. reflexivity. }
  destruct (Execute_fn_error std store.repo id requestType referenceId newResult
              fn (t, s) (t, s) v e (t, s') (HG s) Hfn) as [H1 H2].
  repeat split; try assumption.
  - intros fn2 s2 r w tr.
    unfold idempotency.observedExecute, idempotency.Execute,
           idempotency.observedRepo, idempotency.quietStdlib.
    cbn. unfold bind, observe, quiet, ret, store.Get. simpl. rewrite Hnone.
    match goal with
    | |- context [fn2 ?x] => destruct (fn2 x) as [[[v2 [e2|]] w2]|]
    end; simpl; [| |intros; discriminate].
    + intros [= <- <- <-]. reflexivity.
    + destruct (idempotency.json_Marshal std v2 w2) as [[[d [e3|]] w3]|];
        simpl; [| |intros; discriminate].
      * intros [= <- <- <-]. reflexivity.
      * destruct (idempotency.time_Now std w3) as [[n w4]|]; simpl;
          [|intros; discriminate].
        match goal with
        | |- context [store.Insert ?x ?y] =>
            destruct (store.Insert x y) as [[[e5|] w5]|]
        end; simpl; [| |intros; discriminate]; intros [= <- <- <-]; reflexivity.
  - intros fn2 s2 v2 e2 w2 Hfn2.
    exact (proj1 (Execute_fn_error std store.repo id requestType referenceId
                    newResult fn2 (t, s2) (t, s2) v2 e2 w2 (HG s2) Hfn2)).
Qed.

End ExecuteOnTable.

(** *** The gate on the fixtures *)

Lemma Execute_hit_returns_cached_witness :
  idempotency.Execute fixture.std store.repo 100 "create_user" 200
    fixture.newResult (fixture.fnOk any_nil)
    (<[100 := fixture.cached]> fixture.emptyTable, 0%nat)
  = Some ((any_User (Some 0%nat), None),
          (<[100 := fixture.cached]> fixture.emptyTable, 0%nat))
  /\ idempotency.observedExecute fixture.std store.repo 100 "create_user" 200
       fixture.newResult (fixture.fnOk any_nil)
       (<[100 := fixture.cached]> fixture.emptyTable, 0%nat)
  = Some ((any_User (Some 0%nat), None),
          ((<[100 := fixture.cached]> fixture.emptyTable, 0%nat),
           [idempotency.CallGet 100; idempotency.CallNewResult]))
  /\ idempotency.Execute fixture.std store.repo 100 "create_user" 200
       fixture.newResult panic
       (<[100 := fixture.cached]> fixture.emptyTable, 0%nat)
  = Some ((any_User (Some 0%nat), None),
          (<[100 := fixture.cached]> fixture.emptyTable, 0%nat)).
Proof.
  apply (Execute_hit_returns_cached fixture.std store.repo 100 "create_user" 200
           fixture.newResult (fixture.fnOk any_nil)
           (<[100 := fixture.cached]> fixture.emptyTable, 0%nat)
           fixture.cached
           (<[100 := fixture.cached]> fixture.emptyTable, 0%nat)
           (any_User (Some 0%nat))
           (<[100 := fixture.cached]> fixture.emptyTable, 0%nat)
           (<[100 := fixture.cached]> fixture.emptyTable, 0%nat));
    reflexivity.
Defined.

Lemma Execute_corrupt_record_fails_witness :
  idempotency.Execute fixture.std store.repo 100 "create_user" 200
    fixture.newResult (fixture.fnOk any_nil)
    (<[100 := fixture.corrupt]> fixture.emptyTable, 0%nat)
  = Some ((any_nil, Some (errors_New "invalid character")),
          (<[100 := fixture.corrupt]> fixture.emptyTable, 0%nat))
  /\ idempotency.observedExecute fixture.std store.repo 100 "create_user" 200
       fixture.newResult (fixture.fnOk any_nil)
       (<[100 := fixture.corrupt]> fixture.emptyTable, 0%nat)
  = Some ((any_nil, Some (errors_New "invalid character")),
          ((<[100 := fixture.corrupt]> fixture.emptyTable, 0%nat),
           [idempotency.CallGet 100; idempotency.CallNewResult]))
  /\ idempotency.Execute fixture.std store.repo 100 "create_user" 200
       fixture.newResult panic
       (<[100 := fixture.corrupt]> fixture.emptyTable, 0%nat)
  = Some ((any_nil, Some (errors_New "invalid character")),
          (<[100 := fixture.corrupt]> fixture.emptyTable, 0%nat)).
Proof.
  apply (Execute_corrupt_record_fails fixture.std store.repo 100 "create_user" 200
           fixture.newResult (fixture.fnOk any_nil)
           (<[100 := fixture.corrupt]> fixture.emptyTable, 0%nat)
           fixture.corrupt
           (<[100 := fixture.corrupt]> fixture.emptyTable, 0%nat)
           (any_User (Some 0%nat))
           (<[100 := fixture.corrupt]> fixture.emptyTable, 0%nat)
           (errors_New "invalid character")
           (<[100 := fixture.corrupt]> fixture.emptyTable, 0%nat));
    reflexivity.
Defined.

Lemma Execute_miss_inserts_once_witness :
  let rec := {| idempotency.Id := 100; idempotency.RequestType := "create_user";
                idempotency.ReferenceId := 200; idempotency.ResponseData := "{}";
                idempotency.CreatedAt := fixture.t0 |} in
  idempotency.observedExecute fixture.std store.repo 100 "create_user" 200
    fixture.newResult (fixture.fnOk (any_User (Some 7%nat)))
    (fixture.emptyTable, 0%nat)
  = Some ((any_User (Some 7%nat), None),
          ((<[100 := rec]> fixture.emptyTable, 1%nat),
           [idempotency.CallGet 100; idempotency.CallFn;
            idempotency.CallInsert rec])).
Proof.
  exact (proj2 (Execute_miss_inserts_once fixture.std store.repo 100
           "create_user" 200 fixture.newResult
           (fixture.fnOk (any_User (Some 7%nat)))
           (fixture.emptyTable, 0%nat) (fixture.emptyTable, 0%nat)
           (any_User (Some 7%nat)) (fixture.emptyTable, 1%nat)
           "{}" (fixture.emptyTable, 1%nat) fixture.t0
           (fixture.emptyTable, 1%nat) None
           (<[100 := {| idempotency.Id := 100;
                        idempotency.RequestType := "create_user";
                        idempotency.ReferenceId := 200;
                        idempotency.ResponseData := "{}";
                        idempotency.CreatedAt := fixture.t0 |}]>
              fixture.emptyTable, 1%nat)
           eq_refl eq_refl eq_refl eq_refl eq_refl)).
Defined.

Lemma Execute_fn_error_keeps_table_witness :
  idempotency.observedExecute fixture.std store.repo 100 "create_user" 200
    fixture.newResult (fixture.fnErr fixture.businessErr)
    (fixture.emptyTable, 0%nat)
  = Some ((any_nil, Some fixture.businessErr),
          ((fixture.emptyTable, 1%nat),
           [idempotency.CallGet 100; idempotency.CallFn])).
Proof.
  exact (proj1 (proj2 (Execute_fn_error_keeps_table fixture.std 100
           "create_user" 200 fixture.newResult
           (fixture.fnErr fixture.businessErr)
           fixture.emptyTable 0%nat any_nil fixture.businessErr 1%nat
           eq_refl eq_refl))).
Defined.

(** ** The user service *)

Section ServiceFacts.
Context {E : Type}.

Lemma load_valid (h : list User) (e : E) a u :
  h !! a = Some u ->
  service.load (Some a) {| service.heap := h; service.env := e |}
  = Some (u, {| service.heap := h; service.env := e |}).
Proof. intros H. unfold service.load. cbn. rewrite H. reflexivity. Qed.

Lemma store_valid (h : list User) (e : E) a u f :
  h !! a = Some u ->
  service.store (Some a) f {| service.heap := h; service.env := e |}
  = Some (tt, {| service.heap := <[a := f u]> h; service.env := e |}).
Proof. intros H. unfold service.store. cbn. rewrite H. reflexivity. Qed.

(** The three assignments of [CreateUser] amount to one update of the
    caller's object. *)
Lemma stamp_stores (h : list User) (e : E) a u id now :
  h !! a = Some u ->
  bind (service.store (Some a) (service.set_Id id)) (fun _ =>
  bind (service.store (Some a) (service.set_CreatedAt now)) (fun _ =>
        service.store (Some a) (service.set_UpdatedAt now)))
    {| service.heap := h; service.env := e |}
  = Some (tt, {| service.heap := <[a := service.stamp id now u]> h;
                 service.env := e |}).
Proof.
  intros H. pose proof (lookup_lt_Some _ _ _ H) as Hlt.
  unfold bind. rewrite (store_valid h e a u _ H).
  rewrite (store_valid _ e a (service.set_Id id u)).
  2:{ apply list_lookup_insert_eq. exact Hlt. }
  rewrite (store_valid _ e a (service.set_CreatedAt now (service.set_Id id u))).
  2:{ apply list_lookup_insert_eq. rewrite length_insert. exact Hlt. }
  rewrite !list_insert_insert_eq. reflexivity.
Qed.

(** [CreateUser] up to the call of the gate: the unit of work is opened, the
    caller's object is stamped, the record repository is fetched, and the
    gate runs on the stamped heap; what follows is decided by the gate's
    answer. *)
Lemma CreateUser_unfold (s : service.userService E) (time_Now : M E Time)
    idempotencyId a h u e0 uow e1 t e2 sid e3 repo e4 :
  service.New (service.uowFactory s) e0 = Some ((uow, None), e1) ->
  time_Now e1 = Some (t, e2) ->
  service.Generate (service.snowflake s) e2 = Some (sid, e3) ->
  h !! a = Some u ->
  service.IdempotencyRecordRepository uow e3 = Some (repo, e4) ->
  service.CreateUser s time_Now idempotencyId (Some a)
    {| service.heap := h; service.env := e0 |}
  = bind (service.Execute (service.idempotency_ s) (service.liftRepo repo)
            idempotencyId constant.RequestTypeCreateUser sid service.newUser
            (service.createUser_fn uow (Some a)))
      (fun x => match x with
                | (result, Some e) =>
                    bind (service.liftE (service.Abort uow))
                      (fun _ => ret (None, Some e))
                | (result, None) =>
                    bind (service.liftE (service.Commit uow))
                      (fun err => match err with
                                  | Some e => ret (None, Some e)
                                  | None => match result with
                                            | any_User p => ret (p, None)
                                            | any_nil => panic
                                            end
                                  end)
                end)
      {| service.heap := <[a := service.stamp sid (Time_UTC t) u]> h;
         service.env := e4 |}.
Proof.
  intros HN HT HG Hu HR.
  pose proof (lookup_lt_Some _ _ _ Hu) as Hlt.
  unfold service.CreateUser.
  unfold bind at 1. unfold service.liftE at 1. cbn. rewrite HN.
  unfold bind at 1. unfold service.liftE at 1. cbn. rewrite HT.
  unfold bind at 1. unfold service.liftE at 1. cbn. rewrite HG.
  pose proof (stamp_stores h e3 a u sid (Time_UTC t) Hu) as HS.
  unfold bind in HS. unfold bind at 1.
  destruct (service.store (Some a) (service.set_Id sid)
              {| service.heap := h; service.env := e3 |}) as [[[] w1]|];
    [|discriminate].
  unfold bind at 1.
  destruct (service.store (Some a) (service.set_CreatedAt (Time_UTC t)) w1)
    as [[[] w2]|]; [|discriminate].
  unfold bind at 1. rewrite HS.
  unfold bind at 1. unfold service.liftE at 1. cbn. rewrite HR.
  unfold bind at 1.
  rewrite (load_valid _ e4 a (service.stamp sid (Time_UTC t) u)).
  2:{ apply list_lookup_insert_eq. exact Hlt. }
  cbn. unfold bind.
  destruct (service.Execute _ _ _ _ _ _ _ _) as [[[result [e|]] w5]|];
    reflexivity.
Qed.

(** C4, as the code has it: an error of [Commit] is what [GetUser] and
    [CreateUser] return, with no result, although the operation itself had
    succeeded; an error of [Abort] is dropped, and the caller receives the
    error that led to the abort. *)
Theorem finalization_errors (s : service.userService E) :
  (* GetUser, Commit fails *)
  (forall id h e0 uow e1 repo e2 ou e3 err e4,
     service.New (service.uowFactory s) e0 = Some ((uow, None), e1) ->
     service.UserRepository_ uow e1 = Some (repo, e2) ->
     service.Get repo id e2 = Some ((ou, None), e3) ->
     service.Commit uow e3 = Some (Some err, e4) ->
     service.GetUser s id {| service.heap := h; service.env := e0 |}
     = Some ((None, Some err),
             {| service.heap := match ou with Some u => h ++ [u] | None => h end;
                service.env := e4 |}))
  /\
  (* CreateUser, Commit fails *)
  (forall time_Now idempotencyId a h u e0 uow e1 t e2 sid e3 repo e4 result w5 err e6,
     service.New (service.uowFactory s) e0 = Some ((uow, None), e1) ->
     time_Now e1 = Some (t, e2) ->
     service.Generate (service.snowflake s) e2 = Some (sid, e3) ->
     h !! a = Some u ->
     service.IdempotencyRecordRepository uow e3 = Some (repo, e4) ->
     service.Execute (service.idempotency_ s) (service.liftRepo repo)
       idempotencyId constant.RequestTypeCreateUser sid service.newUser
       (service.createUser_fn uow (Some a))
       {| service.heap := <[a := service.stamp sid (Time_UTC t) u]> h;
          service.env := e4 |}
     = Some ((result, None), w5) ->
     service.Commit uow (service.env w5) = Some (Some err, e6) ->
     service.CreateUser s time_Now idempotencyId (Some a)
       {| service.heap := h; service.env := e0 |}
     = Some ((None, Some err),
             {| service.heap := service.heap w5; service.env := e6 |}))
  /\
  (* GetUser, Abort fails or not *)
  (forall id h e0 uow e1 repo e2 ou cause e3 aerr e4,
     service.New (service.uowFactory s) e0 = Some ((uow, None), e1) ->
     service.UserRepository_ uow e1 = Some (repo, e2) ->
     service.Get repo id e2 = Some ((ou, Some cause), e3) ->
     service.Abort uow e3 = Some (aerr, e4) ->
     service.GetUser s id {| service.heap := h; service.env := e0 |}
     = Some ((None, Some cause),
             {| service.heap := match ou with Some u => h ++ [u] | None => h end;
                service.env := e4 |}))
  /\
  (* CreateUser, Abort fails or not *)
  (forall time_Now idempotencyId a h u e0 uow e1 t e2 sid e3 repo e4 result cause
          w5 aerr e6,
     service.New (service.uowFactory s) e0 = Some ((uow, None), e1) ->
     time_Now e1 = Some (t, e2) ->
     service.Generate (service.snowflake s) e2 = Some (sid, e3) ->
     h !! a = Some u ->
     service.IdempotencyRecordRepository uow e3 = Some (repo, e4) ->
     service.Execute (service.idempotency_ s) (service.liftRepo repo)
       idempotencyId constant.RequestTypeCreateUser sid service.newUser
       (service.createUser_fn uow (Some a))
       {| service.heap := <[a := service.stamp sid (Time_UTC t) u]> h;
          service.env := e4 |}
     = Some ((result, Some cause), w5) ->
     service.Abort uow (service.env w5) = Some (aerr, e6) ->
     service.CreateUser s time_Now idempotencyId (Some a)
       {| service.heap := h; service.env := e0 |}
     = Some ((None, Some cause),
             {| service.heap := service.heap w5; service.env := e6 |})).
Proof.
  repeat split.
  - intros id h e0 uow e1 repo e2 ou e3 err e4 HN HU HG HC.
    unfold service.GetUser, service.UserRepository_Get, bind, service.liftE,
           service.alloc, ret. cbn.
    rewrite HN. cbn. rewrite HU. cbn. rewrite HG.
    destruct ou; cbn; rewrite HC; reflexivity.
  - intros time_Now idempotencyId a h u e0 uow e1 t e2 sid e3 repo e4 result w5
           err e6 HN HT HG Hu HR HX HC.
    rewrite (CreateUser_unfold s time_Now idempotencyId a h u e0 uow e1 t e2
               sid e3 repo e4 HN HT HG Hu HR).
    unfold bind at 1. rewrite HX. unfold bind, service.liftE, ret.
    rewrite HC. reflexivity.
  - intros id h e0 uow e1 repo e2 ou cause e3 aerr e4 HN HU HG HA.
    unfold service.GetUser, service.UserRepository_Get, bind, service.liftE,
           service.alloc, ret. cbn.
    rewrite HN. cbn. rewrite HU. cbn. rewrite HG.
    destruct ou; cbn; rewrite HA; reflexivity.
  - intros time_Now idempotencyId a h u e0 uow e1 t e2 sid e3 repo e4 result
           cause w5 aerr e6 HN HT HG Hu HR HX HA.
    rewrite (CreateUser_unfold s time_Now idempotencyId a h u e0 uow e1 t e2
               sid e3 repo e4 HN HT HG Hu HR).
    unfold bind at 1. rewrite HX. unfold bind, service.liftE, ret.
    rewrite HA. reflexivity.
Qed.

End ServiceFacts.

Section CreateUserOnHit.
Context {E : Type}.

(** The gate of pkg/idempotency on the service's heap, when the record
    repository finds a record that decodes: the answer is a new object
    holding the decoded user. *)
Lemma gate_hit_allocates (codec : service.Codec) (time_Now : M E Time)
    (repo : idempotency.RecordRepository E) id rt ref
    (fn : M (service.World E) (any * option error))
    (h : list User) e4 rec e5 cachedUser :
  idempotency.Get repo id e4 = Some ((Some rec, None), e5) ->
  service.decode codec (idempotency.ResponseData rec) User_zero
    = (cachedUser, None) ->
  service.Execute (service.NewIdempotency codec time_Now) (service.liftRepo repo)
    id rt ref service.newUser fn {| service.heap := h; service.env := e4 |}
  = Some ((any_User (Some (length h)), None),
          {| service.heap := h ++ [cachedUser]; service.env := e5 |}).
Proof.
  intros HG HD. cbn.
  refine (Execute_hit (service.stdlib codec time_Now)
            (service.liftRepo repo) id rt ref service.newUser fn
            {| service.heap := h; service.env := e4 |} rec
            {| service.heap := h; service.env := e5 |}
            (any_User (Some (length h)))
            {| service.heap := h ++ [User_zero]; service.env := e5 |}
            None
            {| service.heap := h ++ [cachedUser]; service.env := e5 |}
            _ _ _).
  - cbn. unfold service.liftE. cbn. rewrite HG. reflexivity.
  - reflexivity.
  - cbn. unfold bind.
    rewrite (load_valid (h ++ [User_zero]) e5 (length h) User_zero).
    2:{ apply list_lookup_middle. reflexivity. }
    rewrite HD.
    rewrite (store_valid (h ++ [User_zero]) e5 (length h) User_zero).
    2:{ apply list_lookup_middle. reflexivity. }
    unfold ret. rewrite insert_app_r_alt by lia.
    replace (length h - length h)%nat with 0%nat by lia. reflexivity.
Qed.

(** C10: [CreateUser] stamps the caller's object (a fresh snowflake id, and
    the current time in UTC as [CreatedAt] and [UpdatedAt]) before the gate
    is entered, whichever gate the service was built with; and with the gate
    of pkg/idempotency, when the record repository finds a record for the
    idempotency id, the call returns a new object holding the user decoded
    from the record, distinct from the caller's object, which keeps its
    stamp.  The collaborators have done nothing but open the unit of work,
    read the clock, generate the id, hand out the record repository, look the
    record up, and commit: no [Insert], of a user or of a record, is part
    of the run, whatever those methods would do. *)
Theorem CreateUser_hit_mutates_input (s : service.userService E)
    (codec : service.Codec) (time_Now : M E Time)
    idempotencyId a h u e0 uow e1 t e2 sid e3 repo e4 rec e5 cachedUser e6 :
  service.New (service.uowFactory s) e0 = Some ((uow, None), e1) ->
  time_Now e1 = Some (t, e2) ->
  service.Generate (service.snowflake s) e2 = Some (sid, e3) ->
  h !! a = Some u ->
  service.IdempotencyRecordRepository uow e3 = Some (repo, e4) ->
  idempotency.Get repo idempotencyId e4 = Some ((Some rec, None), e5) ->
  service.decode codec (idempotency.ResponseData rec) User_zero
    = (cachedUser, None) ->
  service.Commit uow e5 = Some (None, e6) ->
  let stamped :=
    {| Id := sid; Email := Email u; Username := Username u;
       Password := Password u;
       CreatedAt := {| instant := instant t; utc := true |};
       UpdatedAt := {| instant := instant t; utc := true |} |} in
  let p := length h in
  let w' := {| service.heap := <[a := stamped]> h ++ [cachedUser];
               service.env := e6 |} in
  (* the gate is entered with the caller's object already stamped *)
  service.CreateUser s time_Now idempotencyId (Some a)
    {| service.heap := h; service.env := e0 |}
  = bind (service.Execute (service.idempotency_ s) (service.liftRepo repo)
            idempotencyId constant.RequestTypeCreateUser sid service.newUser
            (service.createUser_fn uow (Some a)))
      (fun x => match x with
                | (result, Some e) =>
                    bind (service.liftE (service.Abort uow))
                      (fun _ => ret (None, Some e))
                | (result, None) =>
                    bind (service.liftE (service.Commit uow))
                      (fun err => match err with
                                  | Some e => ret (None, Some e)
                                  | None => match result with
                                            | any_User p => ret (p, None)
                                            | any_nil => panic
                                            end
                                  end)
                end)
      {| service.heap := <[a := stamped]> h; service.env := e4 |}
  /\
  (* on a hit of the gate of pkg/idempotency *)
  (service.idempotency_ s = service.NewIdempotency codec time_Now ->
   service.CreateUser s time_Now idempotencyId (Some a)
     {| service.heap := h; service.env := e0 |}
   = Some ((Some p, None), w')
   /\ p <> a
   /\ service.heap w' !! a = Some stamped
   /\ service.heap w' !! p = Some cachedUser).
Proof.
  intros HN HT HG Hu HR HGet HD HC stamped p w'.
  pose proof (lookup_lt_Some _ _ _ Hu) as Hlt.
  pose proof (CreateUser_unfold s time_Now idempotencyId a h u e0 uow e1 t e2
                sid e3 repo e4 HN HT HG Hu HR) as HU.
  change (service.stamp sid (Time_UTC t) u) with stamped in HU.
  split; [exact HU|].
  intros Hgate. repeat split.
  - rewrite HU, Hgate. unfold bind at 1.
    rewrite (gate_hit_allocates codec time_Now repo idempotencyId
               constant.RequestTypeCreateUser sid
               (service.createUser_fn uow (Some a))
               (<[a := stamped]> h) e4 rec e5 cachedUser HGet HD).
    unfold bind, service.liftE, ret. cbn. rewrite HC.
    rewrite length_insert. reflexivity.
  - subst p. lia.
  - subst w'. cbn. rewrite lookup_app_l by (rewrite length_insert; exact Hlt).
    apply list_lookup_insert_eq. exact Hlt.
  - subst w' p. cbn. apply list_lookup_middle. rewrite length_insert. reflexivity.
Qed.

End CreateUserOnHit.

(** *** The service on the fixtures *)

Lemma finalization_errors_witness :
  let hit := fixture.recordRepo (Some fixture.cachedUserRecord, None) None in
  let down := fixture.recordRepo (None, Some fixture.dbErr) None in
  let found := fixture.userRepo (Some fixture.alice, None) None in
  let broken := fixture.userRepo (None, Some fixture.dbErr) None in
  let stamped :=
    {| Id := 12345; Email := "a@b.com"; Username := "alice"; Password := "hash";
       CreatedAt := {| instant := 1700000000; utc := true |};
       UpdatedAt := {| instant := 1700000000; utc := true |} |} in
  let cachedUser :=
    {| Id := 0; Email := "cached@test.com"; Username := ""; Password := "";
       CreatedAt := Time_zero; UpdatedAt := Time_zero |} in
  (* GetUser, Commit fails *)
  service.GetUser
    (fixture.userService (fixture.unitOfWork (Some fixture.commitErr) None found hit))
    1 fixture.world0
  = Some ((None, Some fixture.commitErr),
          {| service.heap := [fixture.alice; fixture.alice];
             service.env := ["New"; "UserRepository.Get"; "Commit"] |})
  /\
  (* CreateUser, Commit fails *)
  service.CreateUser
    (fixture.userService (fixture.unitOfWork (Some fixture.commitErr) None found hit))
    fixture.now 99 (Some 0%nat) fixture.world0
  = Some ((None, Some fixture.commitErr),
          {| service.heap := [stamped; cachedUser];
             service.env := ["New"; "Generate"; "RecordRepository.Get"; "Commit"] |})
  /\
  (* GetUser, Abort fails *)
  service.GetUser
    (fixture.userService (fixture.unitOfWork None (Some fixture.abortErr) broken hit))
    1 fixture.world0
  = Some ((None, Some fixture.dbErr),
          {| service.heap := [fixture.alice];
             service.env := ["New"; "UserRepository.Get"; "Abort"] |})
  /\
  (* CreateUser, Abort fails *)
  service.CreateUser
    (fixture.userService (fixture.unitOfWork None (Some fixture.abortErr) found down))
    fixture.now 99 (Some 0%nat) fixture.world0
  = Some ((None, Some fixture.dbErr),
          {| service.heap := [stamped];
             service.env := ["New"; "Generate"; "RecordRepository.Get"; "Abort"] |}).
Proof.
  cbv zeta. split; [|split; [|split]].
  - exact (proj1 (finalization_errors
                    (fixture.userService
                       (fixture.unitOfWork (Some fixture.commitErr) None
                          (fixture.userRepo (Some fixture.alice, None) None)
                          (fixture.recordRepo (Some fixture.cachedUserRecord, None) None))))
             1 [fixture.alice] [] _ ["New"] _ ["New"]
             (Some fixture.alice) ["New"; "UserRepository.Get"] fixture.commitErr
             ["New"; "UserRepository.Get"; "Commit"]
             eq_refl eq_refl eq_refl eq_refl).
  - exact (proj1 (proj2 (finalization_errors
                    (fixture.userService
                       (fixture.unitOfWork (Some fixture.commitErr) None
                          (fixture.userRepo (Some fixture.alice, None) None)
                          (fixture.recordRepo (Some fixture.cachedUserRecord, None) None)))))
             fixture.now 99 0%nat [fixture.alice] fixture.alice
             [] _ ["New"] fixture.t0 ["New"] fixture.snowflakeId
             ["New"; "Generate"] _ ["New"; "Generate"]
             (any_User (Some 1%nat))
             {| service.heap :=
                  [ {| Id := 12345; Email := "a@b.com"; Username := "alice";
                       Password := "hash";
                       CreatedAt := {| instant := 1700000000; utc := true |};
                       UpdatedAt := {| instant := 1700000000; utc := true |} |};
                    {| Id := 0; Email := "cached@test.com"; Username := "";
                       Password := ""; CreatedAt := Time_zero;
                       UpdatedAt := Time_zero |} ];
                service.env := ["New"; "Generate"; "RecordRepository.Get"] |}
             fixture.commitErr
             ["New"; "Generate"; "RecordRepository.Get"; "Commit"]
             eq_refl eq_refl eq_refl eq_refl eq_refl eq_refl eq_refl).
  - exact (proj1 (proj2 (proj2 (finalization_errors
                    (fixture.userService
                       (fixture.unitOfWork None (Some fixture.abortErr)
                          (fixture.userRepo (None, Some fixture.dbErr) None)
                          (fixture.recordRepo (Some fixture.cachedUserRecord, None) None))))))
             1 [fixture.alice] [] _ ["New"] _ ["New"]
             None fixture.dbErr ["New"; "UserRepository.Get"]
             (Some fixture.abortErr)
             ["New"; "UserRepository.Get"; "Abort"]
             eq_refl eq_refl eq_refl eq_refl).
  - exact (proj2 (proj2 (proj2 (finalization_errors
                    (fixture.userService
                       (fixture.unitOfWork None (Some fixture.abortErr)
                          (fixture.userRepo (Some fixture.alice, None) None)
                          (fixture.recordRepo (None, Some fixture.dbErr) None))))))
             fixture.now 99 0%nat [fixture.alice] fixture.alice
             [] _ ["New"] fixture.t0 ["New"] fixture.snowflakeId
             ["New"; "Generate"] _ ["New"; "Generate"]
             any_nil fixture.dbErr
             {| service.heap :=
                  [ {| Id := 12345; Email := "a@b.com"; Username := "alice";
                       Password := "hash";
                       CreatedAt := {| instant := 1700000000; utc := true |};
                       UpdatedAt := {| instant := 1700000000; utc := true |} |} ];
                service.env := ["New"; "Generate"; "RecordRepository.Get"] |}
             (Some fixture.abortErr)
             ["New"; "Generate"; "RecordRepository.Get"; "Abort"]
             eq_refl eq_refl eq_refl eq_refl eq_refl eq_refl eq_refl).
Defined.

(** C4, as the claim has it, fails: here [Abort] returns [abortErr] (the
    call is in the log), and [GetUser] hands the caller [dbErr], the error of
    the repository, not the error of [Abort]. *)
Lemma abort_error_not_surfaced :
  let u := fixture.unitOfWork None (Some fixture.abortErr)
             (fixture.userRepo (None, Some fixture.dbErr) None)
             (fixture.recordRepo (None, None) None) in
  service.Abort u ["New"; "UserRepository.Get"]
  = Some (Some fixture.abortErr, ["New"; "UserRepository.Get"; "Abort"])
  /\ service.GetUser (fixture.userService u) 1 fixture.world0
     = Some ((None, Some fixture.dbErr),
             {| service.heap := [fixture.alice];
                service.env := ["New"; "UserRepository.Get"; "Abort"] |})
  /\ ~ (exists r w, service.GetUser (fixture.userService u) 1 fixture.world0
                    = Some ((r, Some fixture.abortErr), w)).
Proof.
  cbv zeta. split; [reflexivity|]. split; [reflexivity|].
  intros (r & w & H). vm_compute in H. discriminate H.
Qed.

Lemma CreateUser_hit_mutates_input_witness :
  let u := fixture.unitOfWork None None
             (fixture.userRepo (None, None) None)
             (fixture.recordRepo (Some fixture.cachedUserRecord, None) None) in
  service.CreateUser (fixture.userService u) fixture.now 99 (Some 0%nat)
    fixture.world0
  = Some ((Some 1%nat, None),
          {| service.heap :=
               [ {| Id := 12345; Email := "a@b.com"; Username := "alice";
                    Password := "hash";
                    CreatedAt := {| instant := 1700000000; utc := true |};
                    UpdatedAt := {| instant := 1700000000; utc := true |} |};
                 {| Id := 0; Email := "cached@test.com"; Username := "";
                    Password := ""; CreatedAt := Time_zero;
                    UpdatedAt := Time_zero |} ];
             service.env := ["New"; "Generate"; "RecordRepository.Get"; "Commit"] |}).
Proof.
  exact (proj1 (proj2 (CreateUser_hit_mutates_input
           (fixture.userService
              (fixture.unitOfWork None None
                 (fixture.userRepo (None, None) None)
                 (fixture.recordRepo (Some fixture.cachedUserRecord, None) None)))
           fixture.codec fixture.now 99 0%nat [fixture.alice] fixture.alice
           [] _ ["New"] fixture.t0 ["New"] fixture.snowflakeId
           ["New"; "Generate"] _ ["New"; "Generate"]
           fixture.cachedUserRecord
           ["New"; "Generate"; "RecordRepository.Get"]
           _ ["New"; "Generate"; "RecordRepository.Get"; "Commit"]
           eq_refl eq_refl eq_refl eq_refl eq_refl eq_refl eq_refl eq_refl)
           eq_refl)).
Defined.

(** ** The retry executor *)

Section RetryFacts.
Import retry.

Lemma exponential_never_stops (b : goretry.exponentialBackoff) :
  snd (fst (goretry.exponentialBackoff_Next b)) = false.
Proof.
  unfold goretry.exponentialBackoff_Next.
  destruct (_ <=? 0); reflexivity.
Qed.

Lemma delays_S (b : goretry.exponentialBackoff) (k : nat) :
  delays b (S k)
  = (fst (fst (goretry.exponentialBackoff_Next b))
       :: fst (delays (snd (goretry.exponentialBackoff_Next b)) k),
     snd (delays (snd (goretry.exponentialBackoff_Next b)) k)).
Proof.
  cbn [delays].
  destruct (goretry.exponentialBackoff_Next b) as [[d st] b']. cbn [fst snd].
  destruct (delays b' k) as [ds b'']. reflexivity.
Qed.

(** One round: a failed call that the executor takes for retryable, with
    budget left, steps the backoff, sleeps, and loops. *)
Lemma Do_round (r : goRetry) (script : nat -> option error) (fuel : nat)
    (w : Sim) (e : error) :
  valid r ->
  goretry.attempt (backoff r) < goretry.max (backoff r) ->
  script (callCount w) = Some e ->
  retryable r e = true ->
  goretry.Do simRuntime (S fuel) Background (backoff r)
    (attempt_fn r (op script)) w
  = goretry.Do simRuntime fuel Background (backoff (retried 1 r))
      (attempt_fn r (op script)) (slept_after 1 r w).
Proof.
  intros [[Hlo Hhi] Hmax] Hlt Hs Hr.
  cbn [goretry.Do]. unfold bind at 1. cbn.
  unfold bind at 1. unfold attempt_fn at 1. unfold bind at 1. unfold op at 1.
  rewrite Hs. unfold retryable in Hr.
  assert (Hfn : match retryableFn r with
                | Some p => if negb (p e) then @ret Sim _ (Some e)
                            else ret (Some (retryableError e))
                | None => ret (Some (retryableError e))
                end = ret (Some (retryableError e))).
  { destruct (retryableFn r); [rewrite Hr|]; reflexivity. }
  rewrite Hfn. unfold ret at 1. cbn [goretry.as_retryableError].
  unfold goretry.Next, goretry.maxRetries_Backoff, goretry.maxRetries_Next.
  destruct (Z.leb_spec (goretry.max (backoff r)) (goretry.attempt (backoff r)));
    [lia|].
  unfold goretry.Next, goretry.exponentialBackoff_Backoff.
  pose proof (exponential_never_stops (goretry.next (backoff r))) as Hns.
  unfold retried, slept_after. rewrite delays_S. cbn [delays fst snd].
  destruct (goretry.exponentialBackoff_Next (goretry.next (backoff r)))
    as [[d st] b'] eqn:Hnext.
  cbn in Hns. subst st. cbn [fst snd].
  unfold bind. cbn [callCount slept clock].
  unfold uint64_wrap. rewrite Z.mod_small by lia.
  change (Z.of_nat 1) with 1.
  replace (callCount w + 1)%nat with (S (callCount w)) by lia.
  cbn [foldr]. replace (d + 0) with d by lia.
  reflexivity.
Qed.


Lemma retried_valid (r : goRetry) (k : nat) :
  valid r ->
  goretry.attempt (backoff r) + Z.of_nat k <= goretry.max (backoff r) ->
  valid (retried k r).
Proof. unfold valid, retried. cbn. lia. Qed.

Lemma retried_S (r : goRetry) (k : nat) :
  retried (S k) r = retried k (retried 1 r).
Proof.
  unfold retried. cbn [backoff retryableFn goretry.max goretry.attempt goretry.next].
  rewrite (delays_S _ k). rewrite (delays_S _ 0). cbn [delays fst snd].
  f_equal. f_equal. lia.
Qed.

Lemma slept_after_S (r : goRetry) (k : nat) (w : Sim) :
  slept_after (S k) r w = slept_after k (retried 1 r) (slept_after 1 r w).
Proof.
  unfold slept_after, retried.
  cbn [backoff retryableFn goretry.max goretry.attempt goretry.next
       callCount slept clock].
  rewrite (delays_S _ k). rewrite (delays_S _ 0). cbn [delays fst snd foldr].
  f_equal.
  - lia.
  - rewrite <- app_assoc. reflexivity.
  - lia.
Qed.

(** [k] rounds in a row. *)
Lemma Do_rounds (script : nat -> option error) (k : nat) :
  forall (r : goRetry) (w : Sim) (fuel : nat),
  valid r ->
  goretry.attempt (backoff r) + Z.of_nat k <= goretry.max (backoff r) ->
  (forall i, (i < k)%nat ->
     exists e, script (callCount w + i)%nat = Some e /\ retryable r e = true) ->
  goretry.Do simRuntime (k + fuel) Background (backoff r)
    (attempt_fn r (op script)) w
  = goretry.Do simRuntime fuel Background (backoff (retried k r))
      (attempt_fn r (op script)) (slept_after k r w).
Proof.
  induction k as [|k IH]; intros r w fuel Hv Hb Hf.
  - unfold retried, slept_after. cbn.
    destruct r as [[m a n] p]; destruct w as [c s cl]; cbn.
    rewrite ?Z.add_0_r, ?Nat.add_0_r, ?app_nil_r. reflexivity.
  - destruct (Hf 0%nat ltac:(lia)) as (e & He & Hr).
    rewrite Nat.add_0_r in He.
    change (S k + fuel)%nat with (S (k + fuel)).
    rewrite (Do_round r script (k + fuel) w e Hv ltac:(lia) He Hr).
    change (attempt_fn r (op script))
      with (@attempt_fn Sim Context (retried 1 r) (op script)).
    rewrite (IH (retried 1 r) (slept_after 1 r w) fuel).
    + rewrite <- retried_S, <- slept_after_S. reflexivity.
    + apply retried_valid; [exact Hv | lia].
    + unfold retried. cbn. lia.
    + intros i Hi. destruct (Hf (S i) ltac:(lia)) as (e' & He' & Hr').
      exists e'. split; [|exact Hr'].
      unfold slept_after. cbn [callCount].
      replace (callCount w + 1 + i)%nat with (callCount w + S i)%nat by lia.
      exact He'.
Qed.

(** The last call of a run: success. *)
Lemma Do_success (r : goRetry) (script : nat -> option error) (fuel : nat)
    (b : goretry.maxRetries goretry.exponentialBackoff) (w : Sim) :
  script (callCount w) = None ->
  goretry.Do simRuntime (S fuel) Background b (attempt_fn r (op script)) w
  = Some ((Some None, b),
          {| callCount := S (callCount w); slept := slept w; clock := clock w |}).
Proof.
  intros Hs. cbn [goretry.Do]. unfold bind, attempt_fn, op, ret. cbn.
  rewrite Hs. reflexivity.
Qed.

(** The last call of a run: a retryable failure with no budget left comes
    back as it was raised. *)
Lemma Do_exhausted (r : goRetry) (script : nat -> option error) (fuel : nat)
    (b : goretry.maxRetries goretry.exponentialBackoff) (w : Sim) (e : error) :
  goretry.max b <= goretry.attempt b ->
  script (callCount w) = Some e ->
  retryable r e = true ->
  goretry.Do simRuntime (S fuel) Background b (attempt_fn r (op script)) w
  = Some ((Some (Some e), b),
          {| callCount := S (callCount w); slept := slept w; clock := clock w |}).
Proof.
  intros Hb Hs Hr. cbn [goretry.Do]. unfold bind, attempt_fn, op, ret. cbn.
  rewrite Hs. unfold retryable in Hr.
  destruct (retryableFn r) as [p|]; [rewrite Hr|]; cbn;
    unfold goretry.Next, goretry.maxRetries_Backoff, goretry.maxRetries_Next;
    destruct (Z.leb_spec (goretry.max b) (goretry.attempt b));
    try lia; reflexivity.
Qed.

(** The last call of a run: a failure the predicate rejects is returned at
    once (go-retry only loops on errors wrapped by [RetryableError]). *)
Lemma Do_not_retryable (r : goRetry) (script : nat -> option error)
    (fuel : nat) (b : goretry.maxRetries goretry.exponentialBackoff)
    (w : Sim) (e : error) :
  script (callCount w) = Some e ->
  retryable r e = false ->
  goretry.as_retryableError e = None ->
  goretry.Do simRuntime (S fuel) Background b (attempt_fn r (op script)) w
  = Some ((Some (Some e), b),
          {| callCount := S (callCount w); slept := slept w; clock := clock w |}).
Proof.
  intros Hs Hr Ha. cbn [goretry.Do]. unfold bind, attempt_fn, op, ret. cbn.
  rewrite Hs. unfold retryable in Hr.
  destruct (retryableFn r) as [p|]; [|discriminate].
  rewrite Hr. cbn. rewrite Ha. reflexivity.
Qed.

(** What the claim says of [Execute], for an executor that still has the
    budget: [k] retryable failures and then a success make [k + 1] calls and
    a nil error, provided [k] does not exceed the retries the executor has
    left; the executor comes back with [k] of them used up. *)
Lemma Execute_succeeds_within_budget (r : goRetry)
    (script : nat -> option error) (k fuel : nat) :
  valid r ->
  (k <= budget r)%nat ->
  (forall i, (i < k)%nat ->
     exists e, script i = Some e /\ retryable r e = true) ->
  script k = None ->
  (k < fuel)%nat ->
  run fuel r script
  = Some (Some None, S k, fst (delays (goretry.next (backoff r)) k),
          retried k r).
Proof.
  intros Hv Hk Hf Hs Hfuel. unfold run, Execute, budget in *.
  destruct Hv as [[Hlo Hhi] Hmax].
  replace fuel with (k + S (fuel - S k))%nat by lia.
  unfold bind at 1.
  rewrite (Do_rounds script k r sim0 (S (fuel - S k))).
  - rewrite Do_success by (cbn; exact Hs).
    unfold ret, slept_after. cbn. reflexivity.
  - repeat split; assumption.
  - lia.
  - intros i Hi. cbn. exact (Hf i Hi).
Qed.

(** An operation that keeps failing is called once more than the executor
    has retries left, and the last error comes back. *)
Lemma Execute_fails_after_budget (r : goRetry)
    (script : nat -> option error) (fuel : nat) (last : error) :
  valid r ->
  (forall i, (i <= budget r)%nat ->
     exists e, script i = Some e /\ retryable r e = true) ->
  script (budget r) = Some last ->
  (budget r < fuel)%nat ->
  run fuel r script
  = Some (Some (Some last), S (budget r),
          fst (delays (goretry.next (backoff r)) (budget r)),
          retried (budget r) r).
Proof.
  intros Hv Hf Hs Hfuel. unfold run, Execute.
  pose proof Hv as [[Hlo Hhi] Hmax].
  assert (Hb : goretry.attempt (backoff r) + Z.of_nat (budget r)
               = goretry.max (backoff r)) by (unfold budget; lia).
  replace fuel with (budget r + S (fuel - S (budget r)))%nat by lia.
  unfold bind at 1.
  rewrite (Do_rounds script (budget r) r sim0 (S (fuel - S (budget r)))).
  - destruct (Hf (budget r) (Nat.le_refl _)) as (e & He & Hr).
    rewrite Hs in He. injection He as <-.
    rewrite (Do_exhausted r script _ _ _ last).
    + unfold ret, slept_after. cbn. reflexivity.
    + unfold retried. cbn. lia.
    + cbn. exact Hs.
    + exact Hr.
  - exact Hv.
  - lia.
  - intros i Hi. cbn. apply Hf. lia.
Qed.

(** [NewRetry] builds an executor with all of its [maxRetries] left. *)
Lemma NewRetry_fresh (maxRetries : Z) (opts : list Option) (r : goRetry) :
  0 <= maxRetries < 2 ^ 64 ->
  NewRetry maxRetries opts = Some r ->
  valid r /\ budget r = Z.to_nat maxRetries
  /\ goretry.next (backoff r)
     = {| goretry.base := Interval (ApplyOptions opts); goretry.exp_attempt := 0 |}
  /\ retryableFn r = RetryableFn (ApplyOptions opts).
Proof.
  intros Hm. unfold NewRetry, goretry.NewExponential.
  destruct (_ <=? 0); [discriminate|].
  intros [= <-]. unfold valid, budget. cbn. repeat split; try lia.
  all: try (f_equal; lia).
Qed.


Lemma int64_wrap_small (z : Z) : 0 <= z < 2 ^ 63 -> int64_wrap z = z.
Proof.
  intros H. unfold int64_wrap.
  rewrite Z.mod_small by lia. lia.
Qed.

(** While the shift does not overflow, the delays of an exponential backoff
    that has been asked [n] times are [base * 2^n], [base * 2^(n+1)], ... *)
Lemma delays_exponential (base : Z) (k : nat) :
  forall n : Z,
  0 < base -> 0 <= n ->
  base * 2 ^ (n + Z.of_nat k) <= 2 ^ 63 ->
  delays {| goretry.base := base; goretry.exp_attempt := n |} k
  = (map (fun i : nat => base * 2 ^ (n + Z.of_nat i)) (seq 0 k),
     {| goretry.base := base; goretry.exp_attempt := n + Z.of_nat k |}).
Proof.
  induction k as [|k IH]; intros n Hb Hn Hk.
  - cbn. rewrite Z.add_0_r. reflexivity.
  - assert (Hpow : 2 ^ (n + Z.of_nat (S k)) = 2 * 2 ^ (n + Z.of_nat k)).
    { replace (n + Z.of_nat (S k)) with (Z.succ (n + Z.of_nat k)) by lia.
      apply Z.pow_succ_r. lia. }
    assert (Hmono : 2 ^ n <= 2 ^ (n + Z.of_nat k))
      by (apply Z.pow_le_mono_r; lia).
    assert (Hpos : 0 < 2 ^ n) by (apply Z.pow_pos_nonneg; lia).
    assert (Hlt : base * 2 ^ n < 2 ^ 63) by nia.
    assert (Hn64 : n < 63).
    { destruct (Z.lt_ge_cases n 63) as [|Hge]; [assumption|].
      assert (2 ^ 63 <= 2 ^ n) by (apply Z.pow_le_mono_r; lia). nia. }
    rewrite delays_S.
    assert (Hnext : goretry.exponentialBackoff_Next
                      {| goretry.base := base; goretry.exp_attempt := n |}
                    = ((base * 2 ^ n, false),
                       {| goretry.base := base; goretry.exp_attempt := n + 1 |})).
    { unfold goretry.exponentialBackoff_Next. cbn [goretry.base goretry.exp_attempt].
      unfold uint64_wrap. rewrite (Z.mod_small (n + 1)) by lia.
      replace (n + 1 - 1) with n by lia. rewrite (Z.mod_small n) by lia.
      unfold int64_shl. destruct (Z.leb_spec 64 n); [lia|].
      rewrite Z.shiftl_mul_pow2 by lia.
      rewrite int64_wrap_small by nia.
      destruct (Z.leb_spec (base * 2 ^ n) 0); [nia|]. reflexivity. }
    rewrite Hnext. cbn [fst snd].
    rewrite (IH (n + 1)); try lia.
    2:{ replace (n + 1 + Z.of_nat k) with (n + Z.of_nat (S k)) by lia. lia. }
    cbn [fst snd seq map]. f_equal.
    + f_equal; [f_equal; f_equal; lia|].
      rewrite <- seq_shift, map_map. apply map_ext. intros i.
      f_equal. f_equal. lia.
    + f_equal. lia.
Qed.

(** On an executor straight from [NewRetry], the first [Execute] does what
    the claims say: [k <= maxRetries] retryable failures then a success give
    nil after [k + 1] calls, with the waits [Interval * 2^i] in between
    (as long as they fit a duration); failures throughout give
    [1 + maxRetries] calls and the last error. *)
Lemma first_Execute_after_NewRetry (maxRetries : Z) (opts : list Option)
    (r : goRetry) (script : nat -> option error) (fuel : nat) :
  0 <= maxRetries < 2 ^ 64 ->
  NewRetry maxRetries opts = Some r ->
  (forall k, Z.of_nat k <= maxRetries ->
     (forall i, (i < k)%nat ->
        exists e, script i = Some e /\ retryable r e = true) ->
     script k = None -> (k < fuel)%nat ->
     exists ds r',
       run fuel r script = Some (Some None, S k, ds, r')
       /\ (Interval (ApplyOptions opts) * 2 ^ Z.of_nat k <= 2 ^ 63 ->
           ds = map (fun i : nat => Interval (ApplyOptions opts) * 2 ^ Z.of_nat i)
                    (seq 0 k)))
  /\ (forall last,
        (forall i, (Z.of_nat i <= maxRetries) ->
           exists e, script i = Some e /\ retryable r e = true) ->
        script (Z.to_nat maxRetries) = Some last ->
        (Z.to_nat maxRetries < fuel)%nat ->
        exists ds r',
          run fuel r script
          = Some (Some (Some last), S (Z.to_nat maxRetries), ds, r')).
Proof.
  intros Hm HN.
  destruct (NewRetry_fresh maxRetries opts r Hm HN) as (Hv & Hb & Hnext & Hfn).
  assert (Hpos : 0 < Interval (ApplyOptions opts)).
  { unfold NewRetry, goretry.NewExponential in HN.
    destruct (Z.leb_spec (Interval (ApplyOptions opts)) 0); [discriminate|lia]. }
  split.
  - intros k Hk Hf Hs Hfuel.
    eexists _, _. split.
    + apply Execute_succeeds_within_budget; try assumption. rewrite Hb. lia.
    + intros Hfit. rewrite Hnext.
      rewrite (delays_exponential _ k 0 Hpos ltac:(lia)
                 ltac:(rewrite Z.add_0_l; exact Hfit)).
      cbn [fst]. apply map_ext. intros i. rewrite Z.add_0_l. reflexivity.
  - intros last Hf Hs Hfuel. rewrite <- Hb in *.
    eexists _, _. apply Execute_fails_after_budget; try assumption.
    intros i Hi. apply Hf. rewrite Hb in Hi. lia.
Qed.

(** Once an executor has used up its retries, no [Execute] on it retries
    any more: whatever the operation would do later, a first retryable
    failure is final. *)
Lemma exhausted_executor_calls_once (r : goRetry)
    (script : nat -> option error) (fuel : nat) (e : error) :
  goretry.max (backoff r) <= goretry.attempt (backoff r) ->
  script 0%nat = Some e ->
  retryable r e = true ->
  run (S fuel) r script = Some (Some (Some e), 1%nat, [], r).
Proof.
  intros Hb Hs Hr. unfold run, Execute. unfold bind.
  rewrite (Do_exhausted r script fuel (backoff r) sim0 e Hb Hs Hr).
  unfold ret. cbn. destruct r; reflexivity.
Qed.

(** The two together: whatever [maxRetries] and the options are, after one
    [Execute] whose operation kept failing, the next [Execute] of the same
    executor stops at the first retryable failure of its operation. *)
Lemma second_Execute_has_no_retries (maxRetries : Z) (opts : list Option)
    (r : goRetry) (script1 script2 : nat -> option error)
    (fuel1 fuel2 : nat) (last e : error) :
  0 <= maxRetries < 2 ^ 64 ->
  NewRetry maxRetries opts = Some r ->
  (forall i, (i <= Z.to_nat maxRetries)%nat ->
     exists e1, script1 i = Some e1 /\ retryable r e1 = true) ->
  script1 (Z.to_nat maxRetries) = Some last ->
  (Z.to_nat maxRetries < fuel1)%nat ->
  script2 0%nat = Some e ->
  retryable r e = true ->
  exists ds r',
    run fuel1 r script1
    = Some (Some (Some last), S (Z.to_nat maxRetries), ds, r')
    /\ run (S fuel2) r' script2 = Some (Some (Some e), 1%nat, [], r').
Proof.
  intros Hm HN Hf Hlast Hfuel Hs2 Hr2.
  destruct (NewRetry_fresh maxRetries opts r Hm HN) as (Hv & Hb & _ & _).
  rewrite <- Hb in *.
  eexists _, _. split.
  - apply Execute_fails_after_budget; assumption.
  - apply exhausted_executor_calls_once; [|exact Hs2|exact Hr2].
    destruct Hv as [[Hlo Hhi] Hmax]. unfold retried, budget. cbn. lia.
Qed.

End RetryFacts.

(** C5, at an input on which the code departs from it.  [NewRetry] builds
    the backoff object once and every [Execute] of the executor draws on it:
    with [maxRetries = 1], a first [Execute] whose operation keeps failing
    makes its 2 calls and uses up the single retry; a second [Execute], whose
    operation fails once and then would succeed (K = 1 <= maxRetries), is
    given no retry: it returns the error after 1 call, where a fresh executor
    returns nil after 2; and an operation that keeps failing is now called
    once, not [1 + maxRetries] times. *)
Theorem Execute_shares_retry_budget :
  let e := errors_New "transient error" in
  let used :=
    {| retry.backoff :=
         {| goretry.max := 1; goretry.attempt := 1;
            goretry.next := {| goretry.base := 1000000;
                               goretry.exp_attempt := 1 |} |};
       retry.retryableFn := None |} in
  let fresh :=
    {| retry.backoff :=
         {| goretry.max := 1; goretry.attempt := 0;
            goretry.next := {| goretry.base := 1000000;
                               goretry.exp_attempt := 0 |} |};
       retry.retryableFn := None |} in
  retry.NewRetry 1 [retry.WithInterval 1000000] = Some fresh
  /\ retry.run 3 fresh (retry.alwaysFails e)
     = Some (Some (Some e), 2%nat, [1000000], used)
  /\ retry.run 3 used (retry.failsThenSucceeds 1 e)
     = Some (Some (Some e), 1%nat, [], used)
  /\ retry.run 3 used (retry.alwaysFails e)
     = Some (Some (Some e), 1%nat, [], used)
  /\ retry.run 3 fresh (retry.failsThenSucceeds 1 e)
     = Some (Some None, 2%nat, [1000000], used).
Proof. cbv zeta. repeat split; reflexivity. Qed.

(** C6, at an input on which the code departs from it.  The exponential
    backoff is part of the same shared object, so its exponent counts the
    retries of all calls of the executor: with an interval of 100ms, the
    first [Execute] waits 100ms after its first attempt, and the second
    [Execute] waits 200ms after its first attempt, not [100ms * 2^0]. *)
Theorem Execute_backoff_carries_over :
  let e := errors_New "transient error" in
  let once :=
    {| retry.backoff :=
         {| goretry.max := 2; goretry.attempt := 1;
            goretry.next := {| goretry.base := 100000000;
                               goretry.exp_attempt := 1 |} |};
       retry.retryableFn := None |} in
  let twice :=
    {| retry.backoff :=
         {| goretry.max := 2; goretry.attempt := 2;
            goretry.next := {| goretry.base := 100000000;
                               goretry.exp_attempt := 2 |} |};
       retry.retryableFn := None |} in
  let fresh :=
    {| retry.backoff :=
         {| goretry.max := 2; goretry.attempt := 0;
            goretry.next := {| goretry.base := 100000000;
                               goretry.exp_attempt := 0 |} |};
       retry.retryableFn := None |} in
  retry.NewRetry 2 [retry.WithInterval 100000000] = Some fresh
  /\ retry.run 3 fresh (retry.failsThenSucceeds 1 e)
     = Some (Some None, 2%nat, [100000000 * 2 ^ 0], once)
  /\ retry.run 3 once (retry.failsThenSucceeds 1 e)
     = Some (Some None, 2%nat, [100000000 * 2 ^ 1], twice).
Proof. cbv zeta. repeat split; reflexivity. Qed.

(** ** The circuit breaker *)

Section BreakerFacts.
Context {W : Type} (time_Now : M W Z).

(** An open breaker of the gobreaker module, before its timeout, answers
    with the circuit-open error and stays as it is. *)
Lemma gobreaker_open_rejects (cb : gobreaker.CircuitBreaker)
    (op : M W (any * option error)) w now w1 :
  gobreaker.state cb = gobreaker.StateOpen ->
  time_Now w = Some (now, w1) ->
  now - gobreaker.openedAt cb < gobreaker.Timeout (gobreaker.settings cb) ->
  gobreaker.Execute time_Now cb op w
  = Some (((any_nil, Some ErrOpenState), cb), w1).
Proof.
  intros Hs Hn Ht.
  unfold gobreaker.Execute, bind. rewrite Hn.
  unfold gobreaker.currentState. rewrite Hs.
  destruct (Z.leb_spec (gobreaker.Timeout (gobreaker.settings cb))
              (now - gobreaker.openedAt cb)); [lia|].
  rewrite Hs. reflexivity.
Qed.

(** C8: while the breaker is open and the timeout has not elapsed since it
    opened, [Execute] returns the circuit-open error and no result, whatever
    the wrapped operation is: the operation is not invoked (the world is the
    one the clock read left), and the breaker is left as it was, so the same
    holds of the next call. *)
Theorem open_breaker_rejects (g : cbImpl.gobreakerCircuitBreaker)
    (fn : M W (any * option error)) w now w1 :
  gobreaker.state (cbImpl.cb g) = gobreaker.StateOpen ->
  time_Now w = Some (now, w1) ->
  now - gobreaker.openedAt (cbImpl.cb g)
    < gobreaker.Timeout (gobreaker.settings (cbImpl.cb g)) ->
  cbImpl.Execute time_Now g fn w
  = Some (((any_nil, Some ErrOpenState), g), w1).
Proof.
  intros Hs Hn Ht.
  unfold cbImpl.Execute, bind.
  rewrite (gobreaker_open_rejects (cbImpl.cb g) fn w now w1 Hs Hn Ht).
  unfold ret. destruct g. reflexivity.
Qed.

(** How a breaker gets there: a failure of the wrapped operation on a closed
    breaker, with the trip predicate true of the counts that include it,
    leaves the breaker open, [openedAt] being the time read after the call;
    the failure itself is handed to the caller as it is. *)
Lemma failure_trips_breaker (g : cbImpl.gobreakerCircuitBreaker)
    (fn : M W (any * option error)) w now w1 v e w2 now' w3 :
  gobreaker.state (cbImpl.cb g) = gobreaker.StateClosed ->
  time_Now w = Some (now, w1) ->
  fn w1 = Some ((v, Some e), w2) ->
  time_Now w2 = Some (now', w3) ->
  gobreaker.ReadyToTrip (gobreaker.settings (cbImpl.cb g))
    {| gobreaker.Requests := S (gobreaker.Requests (gobreaker.counts (cbImpl.cb g)));
       gobreaker.TotalSuccesses := gobreaker.TotalSuccesses (gobreaker.counts (cbImpl.cb g));
       gobreaker.TotalFailures := S (gobreaker.TotalFailures (gobreaker.counts (cbImpl.cb g)));
       gobreaker.ConsecutiveSuccesses := 0;
       gobreaker.ConsecutiveFailures :=
         S (gobreaker.ConsecutiveFailures (gobreaker.counts (cbImpl.cb g))) |}
    = true ->
  cbImpl.Execute time_Now g fn w
  = Some (((v, Some e),
           {| cbImpl.cb :=
                {| gobreaker.settings := gobreaker.settings (cbImpl.cb g);
                   gobreaker.state := gobreaker.StateOpen;
                   gobreaker.counts := gobreaker.noCounts;
                   gobreaker.openedAt := now' |} |}), w3).
Proof.
  intros Hs Hn Hf Hn' Htrip.
  unfold cbImpl.Execute, gobreaker.Execute, bind. rewrite Hn.
  unfold gobreaker.currentState. rewrite Hs. rewrite Hs.
  rewrite Hf. rewrite Hn'. unfold ret.
  unfold gobreaker.onFailure, gobreaker.withCounts, gobreaker.onRequest.
  cbn. rewrite Hs. rewrite Htrip. reflexivity.
Qed.

(** From the trip on: once a failure has tripped the breaker, a call made
    before the timeout has elapsed is rejected without its operation being
    invoked. *)
Lemma tripped_breaker_rejects (g : cbImpl.gobreakerCircuitBreaker)
    (fn fn2 : M W (any * option error)) w now w1 v e w2 now' w3 now2 w4 :
  gobreaker.state (cbImpl.cb g) = gobreaker.StateClosed ->
  time_Now w = Some (now, w1) ->
  fn w1 = Some ((v, Some e), w2) ->
  time_Now w2 = Some (now', w3) ->
  gobreaker.ReadyToTrip (gobreaker.settings (cbImpl.cb g))
    {| gobreaker.Requests := S (gobreaker.Requests (gobreaker.counts (cbImpl.cb g)));
       gobreaker.TotalSuccesses := gobreaker.TotalSuccesses (gobreaker.counts (cbImpl.cb g));
       gobreaker.TotalFailures := S (gobreaker.TotalFailures (gobreaker.counts (cbImpl.cb g)));
       gobreaker.ConsecutiveSuccesses := 0;
       gobreaker.ConsecutiveFailures :=
         S (gobreaker.ConsecutiveFailures (gobreaker.counts (cbImpl.cb g))) |}
    = true ->
  time_Now w3 = Some (now2, w4) ->
  now2 - now' < gobreaker.Timeout (gobreaker.settings (cbImpl.cb g)) ->
  exists g',
    cbImpl.Execute time_Now g fn w = Some (((v, Some e), g'), w3)
    /\ gobreaker.state (cbImpl.cb g') = gobreaker.StateOpen
    /\ cbImpl.Execute time_Now g' fn2 w3
       = Some (((any_nil, Some ErrOpenState), g'), w4).
Proof.
  intros Hs Hn Hf Hn' Htrip Hn2 Ht.
  eexists. split; [|split].
  - apply (failure_trips_breaker g fn w now w1 v e w2 now' w3); assumption.
  - reflexivity.
  - unfold cbImpl.Execute, bind.
    rewrite (gobreaker_open_rejects _ fn2 w3 now2 w4); [reflexivity|reflexivity|assumption|].
    cbn. exact Ht.
Qed.

(** Every call of a run is rejected, as long as the clock stays short of the
    timeout: here the clock read leaves the world alone and always reports an
    instant before the timeout has elapsed. *)
Lemma open_breaker_rejects_every_call (g : cbImpl.gobreakerCircuitBreaker)
    (fns : list (M W (any * option error))) :
  gobreaker.state (cbImpl.cb g) = gobreaker.StateOpen ->
  (forall w, exists now,
      time_Now w = Some (now, w)
      /\ now - gobreaker.openedAt (cbImpl.cb g)
         < gobreaker.Timeout (gobreaker.settings (cbImpl.cb g))) ->
  forall w,
    cbImpl.ExecuteAll time_Now g fns w
    = Some ((map (fun _ => (any_nil, Some ErrOpenState)) fns, g), w).
Proof.
  intros Hs Hclock. induction fns as [|fn fns IH]; intros w.
  - reflexivity.
  - destruct (Hclock w) as (now & Hn & Ht).
    cbn [cbImpl.ExecuteAll map]. unfold bind at 1.
    unfold cbImpl.Execute, bind at 1.
    rewrite (gobreaker_open_rejects (cbImpl.cb g) fn w now w Hs Hn Ht).
    unfold ret at 1. unfold bind.
    replace {| cbImpl.cb := cbImpl.cb g |} with g by (destruct g; reflexivity).
    rewrite IH. reflexivity.
Qed.

End BreakerFacts.

Lemma open_breaker_rejects_witness :
  cbImpl.Execute fixture.clockNow fixture.openBreaker fixture.failing 5000
  = Some (((any_nil, Some ErrOpenState), fixture.openBreaker), 5000).
Proof.
  apply (open_breaker_rejects fixture.clockNow fixture.openBreaker
           fixture.failing 5000 5000 5000); [reflexivity|reflexivity|].
  vm_compute. reflexivity.
Defined.

(** ** The unit of work *)

Section UnitOfWorkFacts.
Import repository.

Lemma accessor_unfold (k : Kind) (m : Memory) :
  accessor k m
  = if done (once k (uow m))
    then Some (slot k (uow m), m)
    else Some (Some (length (objects m)),
               {| uow := set_once k {| done := true |}
                           (set_slot k (Some (length (objects m))) (uow m));
                  objects := objects m ++ [bound k (uow m)] |}).
Proof.
  destruct m as [u h]. destruct k; cbn;
    unfold UserRepository, LedgerRepository, IdempotencyRecordRepository,
           Once_Do, bind, read, write, NewUserRepository, NewLedgerRepository,
           NewIdempotencyRecordRepository, NewRepository; cbn;
    match goal with |- context [done ?o] => destruct (done o) end; reflexivity.
Qed.

Lemma constructed_app (k : Kind) (h1 h2 : list Object) :
  constructed k (h1 ++ h2) = (constructed k h1 + constructed k h2)%nat.
Proof. unfold constructed. rewrite filter_app, length_app. reflexivity. Qed.

Lemma constructed_one (k k' : Kind) (u : transactionDbUnitOfWork) :
  constructed k [bound k' u] = if Kind_eqb k' k then 1%nat else 0%nat.
Proof. destruct k, k'; reflexivity. Qed.

(** One accessor call keeps the invariant, returns the address in the slot,
    leaves the [Once] fired, and does not move a slot already filled. *)
Lemma accessor_spec (u0 : transactionDbUnitOfWork) (h0 : list Object)
    (k : Kind) (m : Memory) :
  inv u0 h0 m ->
  exists a m',
    accessor k m = Some (Some a, m')
    /\ inv u0 h0 m'
    /\ slot k (uow m') = Some a
    /\ done (once k (uow m')) = true
    /\ (forall k', done (once k' (uow m)) = true ->
                   done (once k' (uow m')) = true
                   /\ slot k' (uow m') = slot k' (uow m)).
Proof.
  intros (Htx & Hcb & Hre & new & Hobj & Hk).
  rewrite accessor_unfold.
  destruct (done (once k (uow m))) eqn:Hd.
  - pose proof (Hk k) as Hkk. rewrite Hd in Hkk.
    destruct Hkk as [(a & Hslot & Hlook) Hone].
    exists a, m. rewrite Hslot. repeat split; try assumption.
    exists new. split; assumption.
  - exists (length (objects m)). eexists. split; [reflexivity|].
    cbn [uow objects].
    assert (Hb : bound k (uow m) = bound k u0).
    { unfold bound. rewrite Htx, Hcb, Hre. reflexivity. }
    repeat split.
    + destruct k; cbn; assumption.
    + destruct k; cbn; assumption.
    + destruct k; cbn; assumption.
    + exists (new ++ [bound k (uow m)]). split.
      * rewrite Hobj, app_assoc. reflexivity.
      * intros k'. pose proof (Hk k') as Hk'. cbn [uow objects].
        rewrite constructed_app, constructed_one.
        destruct (Kind_eqb k k') eqn:Heq.
        -- assert (k = k') by (destruct k, k'; (reflexivity || discriminate)).
           subst k'. rewrite Hd in Hk'.
           replace (done (once k (set_once k {| done := true |}
                      (set_slot k (Some (length (objects m))) (uow m)))))
             with true by (destruct k; reflexivity).
           cbv iota. split; [|lia].
           exists (length (objects m)). split; [destruct k; reflexivity|].
           rewrite Hb. apply list_lookup_middle. reflexivity.
        -- replace (done (once k' (set_once k {| done := true |}
                      (set_slot k (Some (length (objects m))) (uow m)))))
             with (done (once k' (uow m)))
             by (destruct k, k'; (reflexivity || discriminate)).
           replace (slot k' (set_once k {| done := true |}
                      (set_slot k (Some (length (objects m))) (uow m))))
             with (slot k' (uow m))
             by (destruct k, k'; (reflexivity || discriminate)).
           destruct (done (once k' (uow m))); cbv iota.
           ++ destruct Hk' as [(a & Hslot & Hlook) Hone]. split; [|lia].
              exists a. split; [assumption|].
              rewrite lookup_app_l; [assumption|].
              apply lookup_lt_Some in Hlook. exact Hlook.
           ++ lia.
    + destruct k; reflexivity.
    + destruct k; reflexivity.
    + destruct k, k'; cbn in *; congruence.
    + destruct k, k'; cbn in *; congruence.
Qed.


(** Any sequence of accessor calls keeps the invariant, and every call
    returns what its slot holds at the end of the sequence. *)
Lemma calls_spec (u0 : transactionDbUnitOfWork) (h0 : list Object)
    (ks : list Kind) :
  forall m, inv u0 h0 m ->
  exists ps m',
    calls ks m = Some (ps, m')
    /\ inv u0 h0 m'
    /\ (forall k', done (once k' (uow m)) = true ->
                   done (once k' (uow m')) = true
                   /\ slot k' (uow m') = slot k' (uow m))
    /\ length ps = length ks
    /\ (forall i k, ks !! i = Some k ->
          ps !! i = Some (slot k (uow m'))
          /\ done (once k (uow m')) = true).
Proof.
  induction ks as [|k ks IH]; intros m Hinv.
  - exists [], m. split; [reflexivity|]. split; [exact Hinv|].
    split; [intros k' H; split; [exact H|reflexivity]|].
    split; [reflexivity|].
    intros i k H. rewrite lookup_nil in H. discriminate H.
  - destruct (accessor_spec u0 h0 k m Hinv)
      as (a & m1 & Hacc & Hinv1 & Hslot1 & Hdone1 & Hstab1).
    destruct (IH m1 Hinv1) as (ps & m' & Hcalls & Hinv' & Hstab & Hlen & Hres).
    exists (Some a :: ps), m'.
    cbn [calls]. unfold bind. rewrite Hacc, Hcalls. unfold ret.
    split; [reflexivity|]. split; [exact Hinv'|]. split; [|split].
    + intros k' H. destruct (Hstab1 k' H) as [Hd Hs].
      destruct (Hstab k' Hd) as [Hd' Hs']. split; [exact Hd'|congruence].
    + cbn. rewrite Hlen. reflexivity.
    + intros i k0 H. destruct i as [|i]; cbn in H |- *.
      * injection H as <-. destruct (Hstab k Hdone1) as [Hd Hs].
        split; [congruence|exact Hd].
      * apply (Hres i k0 H).
Qed.

(** C9: on a unit of work as the factory builds it, whatever accessors are
    called and in whatever order, every call returns the address of a
    repository of its kind bound to the transaction handle, the breaker and
    the retry executor of the unit of work; two calls of the same accessor
    return the same address; and at most one repository of each kind is
    built. *)
Theorem repositories_built_once
    (Begin : handle -> handle * option error)
    (f : transactionDbUnitOfWorkFactory) (u : transactionDbUnitOfWork)
    (h : list Object) (ks : list Kind) :
  New Begin f = (Some u, None) ->
  exists ps m',
    calls ks {| uow := u; objects := h |} = Some (ps, m')
    /\ length ps = length ks
    /\ (forall i j k p q,
          ks !! i = Some k -> ks !! j = Some k ->
          ps !! i = Some p -> ps !! j = Some q -> p = q)
    /\ (forall i k p,
          ks !! i = Some k -> ps !! i = Some p ->
          exists a, p = Some a
                    /\ objects m' !! a
                       = Some {| kind := k;
                                 impl := {| db := tx u; cb := f_cb f;
                                            retry := f_retry f;
                                            notFoundAsError := false |} |})
    /\ (exists new, objects m' = h ++ new
                    /\ forall k, (constructed k new <= 1)%nat).
Proof.
  intros HN.
  assert (Hu : uow_cb u = f_cb f /\ uow_retry u = f_retry f
               /\ forall k, done (once k u) = false).
  { unfold New in HN. destruct (Begin (f_db f)) as [t [e|]]; [discriminate|].
    injection HN as <-. repeat split. intros k; destruct k; reflexivity. }
  destruct Hu as (Hcb & Hre & Hfresh).
  assert (Hinv : inv u h {| uow := u; objects := h |}).
  { split; [reflexivity|]. split; [reflexivity|]. split; [reflexivity|].
    exists []. split; [cbn; rewrite app_nil_r; reflexivity|].
    intros k. cbn [uow]. rewrite Hfresh. reflexivity. }
  destruct (calls_spec u h ks _ Hinv)
    as (ps & m' & Hcalls & Hinv' & _ & Hlen & Hres).
  exists ps, m'. split; [exact Hcalls|]. split; [exact Hlen|].
  split; [|split].
  - intros i j k p q Hi Hj Hp Hq.
    destruct (Hres i k Hi) as [Hp' _]. destruct (Hres j k Hj) as [Hq' _].
    congruence.
  - intros i k p Hi Hp.
    destruct (Hres i k Hi) as [Hp' Hd].
    destruct Hinv' as (_ & _ & _ & new & _ & Hk).
    specialize (Hk k). rewrite Hd in Hk.
    destruct Hk as [(a & Hslot & Hlook) _].
    exists a. split; [congruence|].
    rewrite Hlook. unfold bound. rewrite Hcb, Hre. reflexivity.
  - destruct Hinv' as (_ & _ & _ & new & Hobj & Hk).
    exists new. split; [exact Hobj|].
    intros k. specialize (Hk k).
    destruct (done (once k (uow m'))); [destruct Hk as [_ Hk]|]; lia.
Qed.

End UnitOfWorkFacts.

(** The run of five accessor calls on a fresh unit of work: three objects are
    built, and the repeated calls return the first addresses. *)
Example accessors_run :
  repository.calls
    [repository.KUser; repository.KIdempotencyRecord; repository.KUser;
     repository.KLedger; repository.KIdempotencyRecord]
    {| repository.uow := fixture.freshUow; repository.objects := [] |}
  = Some ([Some 0%nat; Some 1%nat; Some 0%nat; Some 2%nat; Some 1%nat],
          {| repository.uow :=
               {| repository.tx := 11; repository.uow_cb := 2;
                  repository.uow_retry := 3;
                  repository.userRepository := Some 0%nat;
                  repository.userRepositoryOnce := {| repository.done := true |};
                  repository.ledgerRepository := Some 2%nat;
                  repository.ledgerRepositoryOnce := {| repository.done := true |};
                  repository.idempotencyRecordRepository := Some 1%nat;
                  repository.idempotencyRecordRepositoryOnce :=
                    {| repository.done := true |} |};
             repository.objects :=
               [repository.bound repository.KUser fixture.freshUow;
                repository.bound repository.KIdempotencyRecord fixture.freshUow;
                repository.bound repository.KLedger fixture.freshUow] |}).
Proof. reflexivity. Qed.

Lemma repositories_built_once_witness :
  let ks := [repository.KUser; repository.KIdempotencyRecord; repository.KUser;
             repository.KLedger; repository.KIdempotencyRecord] in
  exists ps m',
    repository.calls ks
      {| repository.uow := fixture.freshUow; repository.objects := [] |}
    = Some (ps, m')
    /\ length ps = length ks
    /\ (forall i j k p q,
          ks !! i = Some k -> ks !! j = Some k ->
          ps !! i = Some p -> ps !! j = Some q -> p = q)
    /\ (forall i k p,
          ks !! i = Some k -> ps !! i = Some p ->
          exists a, p = Some a
                    /\ repository.objects m' !! a
                       = Some {| repository.kind := k;
                                 repository.impl :=
                                   {| repository.db := 11; repository.cb := 2;
                                      repository.retry := 3;
                                      repository.notFoundAsError := false |} |})
    /\ (exists new, repository.objects m' = [] ++ new
                    /\ forall k, (repository.constructed k new <= 1)%nat).
Proof.
  exact (repositories_built_once fixture.begin fixture.someFactory
           fixture.freshUow []
           [repository.KUser; repository.KIdempotencyRecord; repository.KUser;
            repository.KLedger; repository.KIdempotencyRecord]
           eq_refl).
Defined.

(** ** More on the idempotency gate *)

Ltac gate_step :=
  match goal with
  | H : ?m ?w = Some _ |- context [?m ?w] => rewrite H; cbn
  end.

Ltac gate_run :=
  unfold idempotency.observedExecute, idempotency.Execute,
         idempotency.observedRepo, idempotency.quietStdlib;
  repeat (cbn; unfold bind, observe, quiet, ret; cbn; try gate_step).

Section ExecuteErrors.
Context {W : Type} (std : idempotency.Stdlib W)
        (repo : idempotency.RecordRepository W)
        (id : Z) (requestType : string) (referenceId : Z).

(** X1: an error of [Get] ends [Execute] at once: the error is returned
    with no result, [Get] is the only call made, and neither the result
    factory nor the business function is invoked (both may be functions that
    panic when called). *)
Theorem Execute_get_error_stops (newResult : M W any)
    (fn : M W (any * option error)) w rec e w1 :
  idempotency.Get repo id w = Some ((rec, Some e), w1) ->
  idempotency.observedExecute std repo id requestType referenceId newResult fn w
    = Some ((any_nil, Some e), (w1, [idempotency.CallGet id]))
  /\ idempotency.Execute std repo id requestType referenceId panic panic w
    = Some ((any_nil, Some e), w1).
Proof.
  intros HG. split; gate_run; reflexivity.
Qed.

(** X2: when the result of the business function does not serialize, the
    error of [json.Marshal] is returned with no result and no record is
    written: the calls made are [Get] and the function, and an [Insert] that
    panics when called is never reached. *)
Theorem Execute_marshal_error_writes_nothing (newResult : M W any)
    (fn : M W (any * option error)) w w1 R w2 data e w3 :
  idempotency.Get repo id w = Some ((None, None), w1) ->
  fn w1 = Some ((R, None), w2) ->
  idempotency.json_Marshal std R w2 = Some ((data, Some e), w3) ->
  idempotency.observedExecute std repo id requestType referenceId newResult fn w
    = Some ((any_nil, Some e),
            (w3, [idempotency.CallGet id; idempotency.CallFn]))
  /\ idempotency.Execute std
       {| idempotency.Get := idempotency.Get repo;
          idempotency.Insert := fun _ => panic |}
       id requestType referenceId newResult fn w
    = Some ((any_nil, Some e), w3).
Proof.
  intros HG HF HM. split.
  - exact (Execute_marshal_error std repo id requestType referenceId newResult
             fn w w1 R w2 data e w3 HG HF HM).
  - gate_run. reflexivity.
Qed.

End ExecuteErrors.

Section ExecuteTwice.
Context {S : Type} (std : idempotency.Stdlib (gmap Z idempotency.Record * S))
        (id : Z) (requestType : string) (referenceId : Z)
        (newResult : M (gmap Z idempotency.Record * S) any).

(** X3: over the record table, a first [Execute] that misses, runs the
    business function and inserts the record is followed, for the same id, by
    calls that are served from that record: with the table as the first call
    left it, a second [Execute] (whatever its own request type, reference id
    and business function) hands [json.Unmarshal] exactly the payload the
    first call serialized, returns the instance so filled, makes no call but
    [Get] and the result factory, and leaves the table alone. *)
Theorem second_Execute_served_from_first
    (fn fn2 : M (gmap Z idempotency.Record * S) (any * option error))
    (requestType2 : string) (referenceId2 : Z)
    (t : gmap Z idempotency.Record) (s : S)
    R s1 data s2 now s3 s4 res s5 s6 :
  t !! id = None ->
  fn (t, s) = Some ((R, None), (t, s1)) ->
  idempotency.json_Marshal std R (t, s1) = Some ((data, None), (t, s2)) ->
  idempotency.time_Now std (t, s2) = Some (now, (t, s3)) ->
  let rec := {| idempotency.Id := id; idempotency.RequestType := requestType;
                idempotency.ReferenceId := referenceId;
                idempotency.ResponseData := data;
                idempotency.CreatedAt := now |} in
  newResult (<[id := rec]> t, s4) = Some (res, (<[id := rec]> t, s5)) ->
  idempotency.json_Unmarshal std data res (<[id := rec]> t, s5)
    = Some (None, (<[id := rec]> t, s6)) ->
  idempotency.Execute std store.repo id requestType referenceId newResult fn (t, s)
    = Some ((R, None), (<[id := rec]> t, s3))
  /\ idempotency.observedExecute std store.repo id requestType2 referenceId2
       newResult fn2 (<[id := rec]> t, s4)
     = Some ((res, None),
             ((<[id := rec]> t, s6),
              [idempotency.CallGet id; idempotency.CallNewResult])).
Proof.
  intros Hnone HF HM HT rec HN HU. subst rec. split.
  - unfold idempotency.Execute, bind. cbn. unfold store.Get. cbn.
    rewrite Hnone, HF, HM, HT. cbn. unfold store.Insert. cbn.
    rewrite Hnone. reflexivity.
  - unfold idempotency.observedExecute, idempotency.Execute,
           idempotency.observedRepo, idempotency.quietStdlib.
    cbn. unfold bind, observe, quiet, ret, store.Get. cbn [fst snd].
    rewrite lookup_insert_eq. cbn [fst snd].
    rewrite HN. cbn [fst snd idempotency.ResponseData]. rewrite HU. reflexivity.
Qed.

End ExecuteTwice.

Lemma Execute_get_error_stops_witness :
  idempotency.observedExecute fixture.std sample.downRepo 100 "create_user" 200
    fixture.newResult (fixture.fnOk any_nil) (fixture.emptyTable, 0%nat)
  = Some ((any_nil, Some sample.connErr),
          ((fixture.emptyTable, 0%nat), [idempotency.CallGet 100])).
Proof.
  exact (proj1 (Execute_get_error_stops fixture.std sample.downRepo 100
                  "create_user" 200 fixture.newResult (fixture.fnOk any_nil)
                  (fixture.emptyTable, 0%nat) None sample.connErr
                  (fixture.emptyTable, 0%nat) eq_refl)).
Defined.

Lemma Execute_marshal_error_writes_nothing_witness :
  idempotency.observedExecute sample.stdNoMarshal store.repo 100 "create_user"
    200 fixture.newResult (fixture.fnOk (any_User (Some 7%nat)))
    (fixture.emptyTable, 0%nat)
  = Some ((any_nil, Some sample.unsupported),
          ((fixture.emptyTable, 1%nat),
           [idempotency.CallGet 100; idempotency.CallFn])).
Proof.
  exact (proj1 (Execute_marshal_error_writes_nothing sample.stdNoMarshal
                  store.repo 100 "create_user" 200 fixture.newResult
                  (fixture.fnOk (any_User (Some 7%nat)))
                  (fixture.emptyTable, 0%nat) (fixture.emptyTable, 0%nat)
                  (any_User (Some 7%nat)) (fixture.emptyTable, 1%nat)
                  "" sample.unsupported (fixture.emptyTable, 1%nat)
                  eq_refl eq_refl eq_refl)).
Defined.

Lemma second_Execute_served_from_first_witness :
  let rec := {| idempotency.Id := 100; idempotency.RequestType := "create_user";
                idempotency.ReferenceId := 200; idempotency.ResponseData := "{}";
                idempotency.CreatedAt := fixture.t0 |} in
  idempotency.Execute fixture.std store.repo 100 "create_user" 200
    fixture.newResult (fixture.fnOk (any_User (Some 7%nat)))
    (fixture.emptyTable, 0%nat)
  = Some ((any_User (Some 7%nat), None), (<[100 := rec]> fixture.emptyTable, 1%nat))
  /\ idempotency.observedExecute fixture.std store.repo 100 "other" 300
       fixture.newResult (fixture.fnOk (any_User (Some 9%nat)))
       (<[100 := rec]> fixture.emptyTable, 1%nat)
     = Some ((any_User (Some 0%nat), None),
             ((<[100 := rec]> fixture.emptyTable, 1%nat),
              [idempotency.CallGet 100; idempotency.CallNewResult])).
Proof.
  exact (second_Execute_served_from_first fixture.std 100 "create_user" 200
           fixture.newResult (fixture.fnOk (any_User (Some 7%nat)))
           (fixture.fnOk (any_User (Some 9%nat))) "other" 300
           fixture.emptyTable 0%nat (any_User (Some 7%nat)) 1%nat "{}" 1%nat
           fixture.t0 1%nat 1%nat (any_User (Some 0%nat)) 1%nat 1%nat
           eq_refl eq_refl eq_refl eq_refl eq_refl eq_refl).
Defined.

(** ** The gate inside the user service *)

Section ExecuteMiss.
Context {W : Type} (std : idempotency.Stdlib W)
        (repo : idempotency.RecordRepository W)
        (id : Z) (requestType : string) (referenceId : Z).

(** The miss branch as a whole, for use by the services. *)
Lemma Execute_miss (newResult : M W any)
    (fn : M W (any * option error)) w w1 R w2 data w3 now w4 ierr w5 :
  idempotency.Get repo id w = Some ((None, None), w1) ->
  fn w1 = Some ((R, None), w2) ->
  idempotency.json_Marshal std R w2 = Some ((data, None), w3) ->
  idempotency.time_Now std w3 = Some (now, w4) ->
  idempotency.Insert repo
    {| idempotency.Id := id; idempotency.RequestType := requestType;
       idempotency.ReferenceId := referenceId;
       idempotency.ResponseData := data; idempotency.CreatedAt := now |} w4
    = Some (ierr, w5) ->
  idempotency.Execute std repo id requestType referenceId newResult fn w
    = Some (match ierr with
            | Some e => (any_nil, Some e)
            | None => (R, None)
            end, w5).
Proof.
  intros HG HF HM HT HI. gate_run. destruct ierr; reflexivity.
Qed.

End ExecuteMiss.

(** ** More on the user service *)

Section Finalization.
Context {E : Type}.

(** X4: every return of [GetUser] finalizes the unit of work it opened
    exactly once: if the factory fails nothing is committed or aborted;
    otherwise either [Commit] is called once and [Abort] never, or [Abort] is
    called once, [Commit] never, and an error is returned.  This holds
    whatever the collaborators answer, an absent user included. *)
Theorem GetUser_finalizes_once (s : service.userService E)
    (g : service.Idempotency (E * list finalization.Call)) id h e r w' :
  service.GetUser (finalization.observedService s g) id
    {| service.heap := h; service.env := (e, []) |} = Some (r, w') ->
  match service.New (service.uowFactory s) e with
  | Some ((_, None), _) =>
      snd (service.env w') = [finalization.Committed]
      \/ (snd (service.env w') = [finalization.Aborted] /\ snd r <> None)
  | _ => snd (service.env w') = []
  end.
Proof.
  intros H.
  unfold service.GetUser, service.UserRepository_Get, finalization.observedService,
    finalization.observedFactory, finalization.observedUow,
    finalization.quietUserRepo, service.liftE, service.alloc, bind, ret, observe,
    quiet in H.
  cbn in H.
  destruct (service.New (service.uowFactory s) e) as [[[u [err|]] e1]|];
    cbn in H; [injection H as <- <-; reflexivity | | discriminate].
  destruct (service.UserRepository_ u e1) as [[repo e2]|]; cbn in H;
    [|discriminate].
  destruct (service.Get repo id e2) as [[[ou [cause|]] e3]|]; cbn in H;
    [| |discriminate].
  - right. destruct ou; cbn in H.
    + destruct (service.Abort u e3) as [[a e4]|]; cbn in H; [|discriminate].
      injection H as <- <-. split; [reflexivity|discriminate].
    + destruct (service.Abort u e3) as [[a e4]|]; cbn in H; [|discriminate].
      injection H as <- <-. split; [reflexivity|discriminate].
  - left. destruct ou; cbn in H.
    + destruct (service.Commit u e3) as [[[c|] e4]|]; cbn in H;
        [| |discriminate]; injection H as <- <-; reflexivity.
    + destruct (service.Commit u e3) as [[[c|] e4]|]; cbn in H;
        [| |discriminate]; injection H as <- <-; reflexivity.
Qed.


(** X5: with the gate of pkg/idempotency, every return of [CreateUser]
    finalizes the unit of work it opened exactly once, whatever the
    collaborators and the codec answer: nothing is committed or aborted if
    the factory fails; otherwise [Commit] is called once and [Abort] never,
    or [Abort] once, [Commit] never, and an error is returned. *)
Theorem CreateUser_finalizes_once (s : service.userService E)
    (codec : service.Codec) (now : M E Time) idempotencyId user h e r w' :
  service.CreateUser
    (finalization.observedService s (service.NewIdempotency codec (quiet now)))
    (quiet now) idempotencyId user
    {| service.heap := h; service.env := (e, []) |} = Some (r, w') ->
  match service.New (service.uowFactory s) e with
  | Some ((_, None), _) =>
      snd (service.env w') = [finalization.Committed]
      \/ (snd (service.env w') = [finalization.Aborted] /\ snd r <> None)
  | _ => snd (service.env w') = []
  end.
Proof.
  intros H.
  unfold service.CreateUser, service.NewIdempotency, idempotency.Execute,
    service.createUser_fn, service.UserRepository_Get,
    service.UserRepository_Insert, service.newUser, service.stdlib,
    service.json_Marshal, service.json_Unmarshal, service.liftRepo,
    finalization.observedService, finalization.observedFactory,
    finalization.observedUow, finalization.quietUserRepo,
    finalization.quietRecordRepo, service.liftE, service.alloc, service.store,
    service.load, bind, ret, panic, observe, quiet in H.
  cbn in H.
  repeat match type of H with
         | context [match ?x with _ => _ end] =>
             lazymatch x with
             | context [match _ with _ => _ end] => fail
             | _ => destruct x eqn:?; cbn in H; try discriminate H
             end
         end.
  all: injection H as <- <-; cbn.
  all: match goal with
       | |- context [let (_, _) := ?p in _] => destruct p as [? [?|]]
       end; cbn in *; try discriminate; auto.
  all: right; split; [reflexivity|discriminate].
Qed.


(** X6: when the factory cannot open a unit of work, [GetUser] and
    [CreateUser] return its error and do nothing else: no other collaborator
    is called, and [CreateUser] has not written to the caller's object (the
    pointer is not even dereferenced, so a nil one does no harm). *)
Theorem factory_error_stops_service (s : service.userService E)
    (time_Now : M E Time) id idempotencyId user h e0 uow err e1 :
  service.New (service.uowFactory s) e0 = Some ((uow, Some err), e1) ->
  service.GetUser s id {| service.heap := h; service.env := e0 |}
    = Some ((None, Some err), {| service.heap := h; service.env := e1 |})
  /\ service.CreateUser s time_Now idempotencyId user
       {| service.heap := h; service.env := e0 |}
     = Some ((None, Some err), {| service.heap := h; service.env := e1 |}).
Proof.
  intros HN. split.
  - unfold service.GetUser, bind, service.liftE. cbn. rewrite HN. reflexivity.
  - unfold service.CreateUser, bind, service.liftE. cbn. rewrite HN. reflexivity.
Qed.

End Finalization.

Section CreateUserOnMiss.
Context {E : Type}.

(** The closure of [CreateUser] on a stamped heap: the user is inserted as
    stamped, read back by the generated id, and the object read back is
    returned at a fresh address; a failed insert ends it before the read. *)
Lemma createUser_fn_runs (uow : service.UnitOfWork E) (h : list User) a stamped
    e5 repoU e6 ierr e7 :
  h !! a = Some stamped ->
  service.UserRepository_ uow e5 = Some (repoU, e6) ->
  service.Insert repoU stamped e6 = Some (ierr, e7) ->
  service.createUser_fn uow (Some a) {| service.heap := h; service.env := e5 |}
  = match ierr with
    | Some e => Some ((any_nil, Some e), {| service.heap := h; service.env := e7 |})
    | None =>
        match service.UserRepository_ uow e7 with
        | Some (repoU2, e8) =>
            match service.Get repoU2 (Id stamped) e8 with
            | Some ((ou, gerr), e9) =>
                let h' := match ou with Some c => h ++ [c] | None => h end in
                let p := match ou with Some _ => Some (length h) | None => None end in
                Some (match gerr with
                      | Some e => (any_nil, Some e)
                      | None => (any_User p, None)
                      end, {| service.heap := h'; service.env := e9 |})
            | None => None
            end
        | None => None
        end
    end.
Proof.
  intros Hu HR HI.
  unfold service.createUser_fn, service.UserRepository_Insert,
         service.UserRepository_Get, bind, service.liftE, ret, service.load,
         service.alloc.
  cbn. rewrite HR. cbn. rewrite Hu. cbn. rewrite HI.
  destruct ierr as [e|]; [reflexivity|]. cbn.
  destruct (service.UserRepository_ uow e7) as [[repoU2 e8]|]; [|reflexivity].
  cbn. rewrite Hu. cbn.
  destruct (service.Get repoU2 (Id stamped) e8) as [[[ou gerr] e9]|];
    [|reflexivity].
  destruct ou; cbn; destruct gerr; reflexivity.
Qed.

(** X7: a first [CreateUser] (no record for the idempotency id) with the
    gate of pkg/idempotency: the user is inserted with the generated id and
    with [CreatedAt = UpdatedAt =] the clock in UTC, read back by that id,
    and the record written for the idempotency id carries the request type
    of the operation, the generated id as reference and the encoding of the
    user read back; after [Commit] the caller receives the object read back,
    at a new address, not its own object. *)
Theorem CreateUser_miss_inserts_user_and_record (s : service.userService E)
    (codec : service.Codec) (time_Now : M E Time)
    idempotencyId a h u e0 uow e1 t e2 sid e3 repo e4 e5 repoU e6 e7 repoU2 e8
    created e9 data t2 e10 e11 e12 :
  service.idempotency_ s = service.NewIdempotency codec time_Now ->
  service.New (service.uowFactory s) e0 = Some ((uow, None), e1) ->
  time_Now e1 = Some (t, e2) ->
  service.Generate (service.snowflake s) e2 = Some (sid, e3) ->
  h !! a = Some u ->
  service.IdempotencyRecordRepository uow e3 = Some (repo, e4) ->
  idempotency.Get repo idempotencyId e4 = Some ((None, None), e5) ->
  let stamped :=
    {| Id := sid; Email := Email u; Username := Username u;
       Password := Password u;
       CreatedAt := {| instant := instant t; utc := true |};
       UpdatedAt := {| instant := instant t; utc := true |} |} in
  service.UserRepository_ uow e5 = Some (repoU, e6) ->
  service.Insert repoU stamped e6 = Some (None, e7) ->
  service.UserRepository_ uow e7 = Some (repoU2, e8) ->
  service.Get repoU2 sid e8 = Some ((Some created, None), e9) ->
  service.encode codec created = (data, None) ->
  time_Now e9 = Some (t2, e10) ->
  idempotency.Insert repo
    {| idempotency.Id := idempotencyId;
       idempotency.RequestType := constant.RequestTypeCreateUser;
       idempotency.ReferenceId := sid;
       idempotency.ResponseData := data;
       idempotency.CreatedAt := t2 |} e10 = Some (None, e11) ->
  service.Commit uow e11 = Some (None, e12) ->
  service.CreateUser s time_Now idempotencyId (Some a)
    {| service.heap := h; service.env := e0 |}
  = Some ((Some (length h), None),
          {| service.heap := <[a := stamped]> h ++ [created];
             service.env := e12 |})
  /\ length h <> a.
Proof.
  intros Hgate HN HT HG Hu HR HGet stamped HRU HI HRU2 HGU HE HT2 HIR HC.
  pose proof (lookup_lt_Some _ _ _ Hu) as Hlt.
  split; [|lia].
  rewrite (CreateUser_unfold s time_Now idempotencyId a h u e0 uow e1 t e2
             sid e3 repo e4 HN HT HG Hu HR).
  change (service.stamp sid (Time_UTC t) u) with stamped.
  assert (Hst : <[a := stamped]> h !! a = Some stamped)
    by (apply list_lookup_insert_eq; exact Hlt).
  rewrite Hgate. unfold bind at 1.
  assert (HX : service.Execute (service.NewIdempotency codec time_Now)
                 (service.liftRepo repo) idempotencyId
                 constant.RequestTypeCreateUser sid service.newUser
                 (service.createUser_fn uow (Some a))
                 {| service.heap := <[a := stamped]> h; service.env := e4 |}
               = Some ((any_User (Some (length h)), None),
                       {| service.heap := <[a := stamped]> h ++ [created];
                          service.env := e11 |})).
  { cbn [service.Execute service.NewIdempotency].
    refine (Execute_miss
              (service.stdlib codec time_Now) (service.liftRepo repo)
              idempotencyId constant.RequestTypeCreateUser sid service.newUser
              (service.createUser_fn uow (Some a))
              {| service.heap := <[a := stamped]> h; service.env := e4 |}
              {| service.heap := <[a := stamped]> h; service.env := e5 |}
              (any_User (Some (length h)))
              {| service.heap := <[a := stamped]> h ++ [created]; service.env := e9 |}
              data
              {| service.heap := <[a := stamped]> h ++ [created]; service.env := e9 |}
              t2
              {| service.heap := <[a := stamped]> h ++ [created]; service.env := e10 |}
              None
              {| service.heap := <[a := stamped]> h ++ [created]; service.env := e11 |}
              _ _ _ _ _).
    - cbn. unfold service.liftE. cbn. rewrite HGet. reflexivity.
    - rewrite (createUser_fn_runs uow _ a stamped e5 repoU e6 None e7 Hst HRU HI).
      rewrite HRU2. cbn [Id stamped]. rewrite HGU. cbn.
      rewrite length_insert. reflexivity.
    - cbn. unfold bind.
      rewrite (load_valid _ e9 (length h) created).
      2:{ apply list_lookup_middle. rewrite length_insert. reflexivity. }
      unfold ret. rewrite HE. reflexivity.
    - cbn. unfold service.liftE. cbn. rewrite HT2. reflexivity.
    - cbn. unfold service.liftE. cbn. rewrite HIR. reflexivity. }
  rewrite HX. unfold bind, service.liftE, ret. cbn. rewrite HC. reflexivity.
Qed.

(** X8: when the insert of the user fails on a first [CreateUser], the unit
    of work is aborted and the insert's error returned, whatever [Abort]
    answers: the user is not read back, no idempotency record is written and
    nothing is committed, so a retry with the same idempotency id is not
    answered from a record.  The caller's object keeps the stamp. *)
Theorem CreateUser_insert_error_aborts (s : service.userService E)
    (codec : service.Codec) (time_Now : M E Time)
    idempotencyId a h u e0 uow e1 t e2 sid e3 repo e4 e5 repoU e6 cause e7
    aerr e8 :
  service.idempotency_ s = service.NewIdempotency codec time_Now ->
  service.New (service.uowFactory s) e0 = Some ((uow, None), e1) ->
  time_Now e1 = Some (t, e2) ->
  service.Generate (service.snowflake s) e2 = Some (sid, e3) ->
  h !! a = Some u ->
  service.IdempotencyRecordRepository uow e3 = Some (repo, e4) ->
  idempotency.Get repo idempotencyId e4 = Some ((None, None), e5) ->
  let stamped :=
    {| Id := sid; Email := Email u; Username := Username u;
       Password := Password u;
       CreatedAt := {| instant := instant t; utc := true |};
       UpdatedAt := {| instant := instant t; utc := true |} |} in
  service.UserRepository_ uow e5 = Some (repoU, e6) ->
  service.Insert repoU stamped e6 = Some (Some cause, e7) ->
  service.Abort uow e7 = Some (aerr, e8) ->
  service.CreateUser s time_Now idempotencyId (Some a)
    {| service.heap := h; service.env := e0 |}
  = Some ((None, Some cause),
          {| service.heap := <[a := stamped]> h; service.env := e8 |}).
Proof.
  intros Hgate HN HT HG Hu HR HGet stamped HRU HI HA.
  pose proof (lookup_lt_Some _ _ _ Hu) as Hlt.
  rewrite (CreateUser_unfold s time_Now idempotencyId a h u e0 uow e1 t e2
             sid e3 repo e4 HN HT HG Hu HR).
  change (service.stamp sid (Time_UTC t) u) with stamped.
  assert (Hst : <[a := stamped]> h !! a = Some stamped)
    by (apply list_lookup_insert_eq; exact Hlt).
  rewrite Hgate. unfold bind at 1.
  assert (HX : service.Execute (service.NewIdempotency codec time_Now)
                 (service.liftRepo repo) idempotencyId
                 constant.RequestTypeCreateUser sid service.newUser
                 (service.createUser_fn uow (Some a))
                 {| service.heap := <[a := stamped]> h; service.env := e4 |}
               = Some ((any_nil, Some cause),
                       {| service.heap := <[a := stamped]> h;
                          service.env := e7 |})).
  { cbn [service.Execute service.NewIdempotency].
    refine (proj1 (Execute_fn_error (service.stdlib codec time_Now)
              (service.liftRepo repo) idempotencyId
              constant.RequestTypeCreateUser sid service.newUser
              (service.createUser_fn uow (Some a))
              {| service.heap := <[a := stamped]> h; service.env := e4 |}
              {| service.heap := <[a := stamped]> h; service.env := e5 |}
              any_nil cause
              {| service.heap := <[a := stamped]> h; service.env := e7 |}
              _ _)).
    - cbn. unfold service.liftE. cbn. rewrite HGet. reflexivity.
    - rewrite (createUser_fn_runs uow _ a stamped e5 repoU e6 (Some cause) e7
                 Hst HRU HI). reflexivity. }
  rewrite HX. unfold bind, service.liftE, ret. cbn. rewrite HA. reflexivity.
Qed.

End CreateUserOnMiss.

(** ** The ledger service *)

Section Ledgers.
Context {E : Type}.


End Ledgers.

Lemma GetUser_finalizes_once_witness :
  snd (service.env
         {| service.heap := [fixture.alice];
            service.env := (["New"; "UserRepository.Get"; "Commit"],
                            [finalization.Committed]) |})
    = [finalization.Committed]
  \/ (snd (service.env
             {| service.heap := [fixture.alice];
                service.env := (["New"; "UserRepository.Get"; "Commit"],
                                [finalization.Committed]) |})
        = [finalization.Aborted]
      /\ snd (Some 0%nat, @None error) <> None).
Proof.
  exact (GetUser_finalizes_once
           (fixture.userService
              (fixture.unitOfWork None None
                 (fixture.userRepo (Some fixture.alice, None) None)
                 (fixture.recordRepo (None, None) None)))
           (service.NewIdempotency fixture.codec (quiet fixture.now))
           1 [] [] (Some 0%nat, None)
           {| service.heap := [fixture.alice];
              service.env := (["New"; "UserRepository.Get"; "Commit"],
                              [finalization.Committed]) |}
           eq_refl).
Defined.

Lemma CreateUser_finalizes_once_witness :
  let w' :=
    {| service.heap := [service.stamp fixture.snowflakeId (Time_UTC fixture.t0)
                          fixture.alice];
       service.env := (["New"; "Generate"; "RecordRepository.Get";
                        "UserRepository.Insert"; "Abort"],
                       [finalization.Aborted]) |} in
  snd (service.env w') = [finalization.Committed]
  \/ (snd (service.env w') = [finalization.Aborted]
      /\ snd (@None loc, Some fixture.dbErr) <> None).
Proof.
  exact (CreateUser_finalizes_once
           (fixture.userService
              (fixture.unitOfWork None None
                 (fixture.userRepo (None, None) (Some fixture.dbErr))
                 (fixture.recordRepo (None, None) None)))
           fixture.codec fixture.now 99 (Some 0%nat) [fixture.alice] []
           (None, Some fixture.dbErr)
           {| service.heap := [service.stamp fixture.snowflakeId
                                 (Time_UTC fixture.t0) fixture.alice];
              service.env := (["New"; "Generate"; "RecordRepository.Get";
                               "UserRepository.Insert"; "Abort"],
                              [finalization.Aborted]) |}
           eq_refl).
Defined.

Lemma factory_error_stops_service_witness :
  let u := fixture.unitOfWork None None
             (fixture.userRepo (Some fixture.alice, None) None)
             (fixture.recordRepo (None, None) None) in
  service.GetUser (serviceSample.brokenService u) 1 fixture.world0
    = Some ((None, Some fixture.dbErr),
            {| service.heap := [fixture.alice]; service.env := ["New"] |})
  /\ service.CreateUser (serviceSample.brokenService u) fixture.now 99 None
       fixture.world0
     = Some ((None, Some fixture.dbErr),
             {| service.heap := [fixture.alice]; service.env := ["New"] |}).
Proof.
  exact (factory_error_stops_service
           (serviceSample.brokenService
              (fixture.unitOfWork None None
                 (fixture.userRepo (Some fixture.alice, None) None)
                 (fixture.recordRepo (None, None) None)))
           fixture.now 1 99 None [fixture.alice] []
           (fixture.unitOfWork None None
              (fixture.userRepo (Some fixture.alice, None) None)
              (fixture.recordRepo (None, None) None))
           fixture.dbErr ["New"] eq_refl).
Defined.

Lemma CreateUser_miss_inserts_user_and_record_witness :
  let u := fixture.unitOfWork None None
             (fixture.userRepo (Some serviceSample.created, None) None)
             (fixture.recordRepo (None, None) None) in
  service.CreateUser (fixture.userService u) fixture.now 99 (Some 0%nat)
    fixture.world0
  = Some ((Some 1%nat, None),
          {| service.heap :=
               [service.stamp fixture.snowflakeId (Time_UTC fixture.t0)
                  fixture.alice; serviceSample.created];
             service.env := ["New"; "Generate"; "RecordRepository.Get";
                             "UserRepository.Insert"; "UserRepository.Get";
                             "RecordRepository.Insert"; "Commit"] |})
  /\ 1%nat <> 0%nat.
Proof.
  exact (CreateUser_miss_inserts_user_and_record
           (fixture.userService
              (fixture.unitOfWork None None
                 (fixture.userRepo (Some serviceSample.created, None) None)
                 (fixture.recordRepo (None, None) None)))
           fixture.codec fixture.now 99 0%nat [fixture.alice] fixture.alice []
           (fixture.unitOfWork None None
              (fixture.userRepo (Some serviceSample.created, None) None)
              (fixture.recordRepo (None, None) None))
           ["New"] fixture.t0 ["New"] fixture.snowflakeId ["New"; "Generate"]
           (fixture.recordRepo (None, None) None) ["New"; "Generate"]
           ["New"; "Generate"; "RecordRepository.Get"]
           (fixture.userRepo (Some serviceSample.created, None) None)
           ["New"; "Generate"; "RecordRepository.Get"]
           ["New"; "Generate"; "RecordRepository.Get"; "UserRepository.Insert"]
           (fixture.userRepo (Some serviceSample.created, None) None)
           ["New"; "Generate"; "RecordRepository.Get"; "UserRepository.Insert"]
           serviceSample.created
           ["New"; "Generate"; "RecordRepository.Get"; "UserRepository.Insert";
            "UserRepository.Get"]
           "a@b.com" fixture.t0
           ["New"; "Generate"; "RecordRepository.Get"; "UserRepository.Insert";
            "UserRepository.Get"]
           ["New"; "Generate"; "RecordRepository.Get"; "UserRepository.Insert";
            "UserRepository.Get"; "RecordRepository.Insert"]
           ["New"; "Generate"; "RecordRepository.Get"; "UserRepository.Insert";
            "UserRepository.Get"; "RecordRepository.Insert"; "Commit"]
           eq_refl eq_refl eq_refl eq_refl eq_refl eq_refl eq_refl eq_refl
           eq_refl eq_refl eq_refl eq_refl eq_refl eq_refl eq_refl).
Defined.

Lemma CreateUser_insert_error_aborts_witness :
  let u := fixture.unitOfWork None (Some fixture.abortErr)
             (fixture.userRepo (None, None) (Some fixture.dbErr))
             (fixture.recordRepo (None, None) None) in
  service.CreateUser (fixture.userService u) fixture.now 99 (Some 0%nat)
    fixture.world0
  = Some ((None, Some fixture.dbErr),
          {| service.heap :=
               [service.stamp fixture.snowflakeId (Time_UTC fixture.t0)
                  fixture.alice];
             service.env := ["New"; "Generate"; "RecordRepository.Get";
                             "UserRepository.Insert"; "Abort"] |}).
Proof.
  exact (CreateUser_insert_error_aborts
           (fixture.userService
              (fixture.unitOfWork None (Some fixture.abortErr)
                 (fixture.userRepo (None, None) (Some fixture.dbErr))
                 (fixture.recordRepo (None, None) None)))
           fixture.codec fixture.now 99 0%nat [fixture.alice] fixture.alice []
           (fixture.unitOfWork None (Some fixture.abortErr)
              (fixture.userRepo (None, None) (Some fixture.dbErr))
              (fixture.recordRepo (None, None) None))
           ["New"] fixture.t0 ["New"] fixture.snowflakeId ["New"; "Generate"]
           (fixture.recordRepo (None, None) None) ["New"; "Generate"]
           ["New"; "Generate"; "RecordRepository.Get"]
           (fixture.userRepo (None, None) (Some fixture.dbErr))
           ["New"; "Generate"; "RecordRepository.Get"]
           fixture.dbErr
           ["New"; "Generate"; "RecordRepository.Get"; "UserRepository.Insert"]
           (Some fixture.abortErr)
           ["New"; "Generate"; "RecordRepository.Get"; "UserRepository.Insert";
            "Abort"]
           eq_refl eq_refl eq_refl eq_refl eq_refl eq_refl eq_refl eq_refl
           eq_refl eq_refl).
Defined.


(** ** More on the retry executor *)

Section RetryOptions.
Import retry.





End RetryOptions.

Section RetryOutcome.
Import retry.

Lemma delays_length (k : nat) :
  forall b, length (fst (delays b k)) = k.
Proof.
  induction k as [|k IH]; intros b; [reflexivity|].
  rewrite delays_S. cbn [fst length]. rewrite IH. reflexivity.
Qed.

Lemma retried_0 (r : goRetry) : retried 0 r = r.
Proof.
  destruct r as [[m a n] p]. unfold retried. cbn.
  rewrite Z.add_0_r. reflexivity.
Qed.

Lemma slept_after_0 (r : goRetry) (w : Sim) : slept_after 0 r w = w.
Proof.
  destruct w as [c s t]. unfold slept_after. cbn.
  rewrite Nat.add_0_r, app_nil_r, Z.add_0_r. reflexivity.
Qed.

(** X12: the predicate is asked anew for every error: after [k] failures it
    accepts, within the budget, a failure it rejects ends [Execute] at once
    with that very error, not wrapped, after [k + 1] calls and [k] sleeps;
    the [k] retries made stay spent. *)
Theorem Execute_stops_at_rejected_error (r : goRetry)
    (script : nat -> option error) (k fuel : nat) (e : error) :
  valid r ->
  (k <= budget r)%nat ->
  (forall i, (i < k)%nat ->
     exists e', script i = Some e' /\ retryable r e' = true) ->
  script k = Some e ->
  retryable r e = false ->
  goretry.as_retryableError e = None ->
  (k < fuel)%nat ->
  run fuel r script
  = Some (Some (Some e), S k, fst (delays (goretry.next (backoff r)) k),
          retried k r).
Proof.
  intros Hv Hk Hf Hs Hr Ha Hfuel. unfold run, Execute, budget in *.
  destruct Hv as [[Hlo Hhi] Hmax].
  replace fuel with (k + S (fuel - S k))%nat by lia.
  unfold bind at 1.
  rewrite (Do_rounds script k r sim0 (S (fuel - S k))).
  - rewrite (Do_not_retryable r script _ _ _ e) by (cbn; assumption).
    unfold ret, slept_after. cbn. reflexivity.
  - repeat split; assumption.
  - lia.
  - intros i Hi. cbn. exact (Hf i Hi).
Qed.

(** Every return of the loop, from any state of the executor: some number
    [k] of failures were retried, and the call after them decided. *)
Lemma Do_returns (script : nat -> option error) :
  (forall i e, script i = Some e -> goretry.as_retryableError e = None) ->
  forall (fuel : nat) (r : goRetry) (w : Sim) res b' w',
  valid r ->
  goretry.Do simRuntime fuel Background (backoff r)
    (attempt_fn r (op script)) w = Some ((Some res, b'), w') ->
  exists k : nat,
    goretry.attempt (backoff r) + Z.of_nat k <= goretry.max (backoff r)
    /\ (forall i, (i < k)%nat ->
          exists e, script (callCount w + i)%nat = Some e
                    /\ retryable r e = true)
    /\ res = script (callCount w + k)%nat
    /\ b' = backoff (retried k r)
    /\ w' = {| callCount := S (callCount (slept_after k r w));
               slept := slept (slept_after k r w);
               clock := clock (slept_after k r w) |}
    /\ match res with
       | None => True
       | Some e =>
           retryable r e = false
           \/ goretry.attempt (backoff r) + Z.of_nat k = goretry.max (backoff r)
       end.
Proof.
  intros Hplain. induction fuel as [|fuel IH]; intros r w res b' w' Hv H.
  - cbn in H. unfold ret in H. discriminate.
  - destruct (script (callCount w)) as [e|] eqn:Hs.
    + destruct (retryable r e) eqn:Hr.
      * destruct (Z.leb_spec (goretry.max (backoff r))
                    (goretry.attempt (backoff r))) as [Hex|Hlt].
        -- rewrite (Do_exhausted r script fuel (backoff r) w e Hex Hs Hr) in H.
           injection H as <- <- <-. exists 0%nat.
           rewrite retried_0, slept_after_0, Nat.add_0_r.
           destruct Hv as [[Hlo Hhi] Hmax].
           split; [cbn; lia|]. split; [intros i Hi; lia|].
           split; [symmetry; exact Hs|]. split; [reflexivity|].
           split; [reflexivity|]. right. cbn. lia.
        -- rewrite (Do_round r script fuel w e Hv Hlt Hs Hr) in H.
           change (@attempt_fn Sim Context r (op script))
             with (@attempt_fn Sim Context (retried 1 r) (op script)) in H.
           assert (Hv1 : valid (retried 1 r))
             by (apply retried_valid; [exact Hv|cbn; lia]).
           destruct (IH (retried 1 r) (slept_after 1 r w) res b' w' Hv1 H)
             as (k & Hb & Hf & Hres & Hb' & Hw' & Hwhy).
           exists (S k).
           assert (Hc : callCount (slept_after 1 r w) = S (callCount w))
             by (unfold slept_after; cbn; lia).
           rewrite Hc in Hf, Hres.
           rewrite retried_S, slept_after_S.
           split; [cbn in Hb; lia|]. split.
           { intros i Hi. destruct i as [|i].
             - rewrite Nat.add_0_r. exists e. split; assumption.
             - destruct (Hf i ltac:(lia)) as (e' & He' & Hr').
               exists e'. split; [|exact Hr'].
               rewrite <- He'. f_equal. lia. }
           split; [rewrite Hres; f_equal; lia|].
           split; [exact Hb'|]. split; [exact Hw'|].
           destruct res as [e'|]; [|exact I].
           destruct Hwhy as [Hno|Hfull]; [left; exact Hno|right].
           cbn in Hfull. lia.
      * rewrite (Do_not_retryable r script fuel (backoff r) w e Hs Hr
                   (Hplain _ _ Hs)) in H.
        injection H as <- <- <-. exists 0%nat.
        rewrite retried_0, slept_after_0, Nat.add_0_r.
        destruct Hv as [[Hlo Hhi] Hmax].
        split; [cbn; lia|]. split; [intros i Hi; lia|].
        split; [symmetry; exact Hs|]. split; [reflexivity|].
        split; [reflexivity|]. left. exact Hr.
    + rewrite (Do_success r script fuel (backoff r) w Hs) in H.
      injection H as <- <- <-. exists 0%nat.
      rewrite retried_0, slept_after_0, Nat.add_0_r.
      destruct Hv as [[Hlo Hhi] Hmax].
      split; [cbn; lia|]. split; [intros i Hi; lia|].
      split; [symmetry; exact Hs|]. split; [reflexivity|].
      split; [reflexivity|exact I].
Qed.

(** X13: every [Execute] that returns, on an executor in any state and for
    any operation (whose errors are not go-retry's own wrapper): the
    operation was called once more than the executor slept; every call but
    the last failed with an error the predicate accepts; the value returned
    is what the last call returned, unwrapped; an error is only returned
    because the predicate rejected it or no retry was left; and the executor
    comes back with its budget lowered by the number of sleeps, never
    raised. *)
Theorem Execute_outcome (r : goRetry) (script : nat -> option error)
    (fuel : nat) res (n : nat) (ds : list goretry.Duration) (r' : goRetry) :
  valid r ->
  (forall i e, script i = Some e -> goretry.as_retryableError e = None) ->
  run fuel r script = Some (Some res, n, ds, r') ->
  n = S (length ds)
  /\ res = script (length ds)
  /\ (forall i, (i < length ds)%nat ->
        exists e, script i = Some e /\ retryable r e = true)
  /\ match res with
     | None => True
     | Some e => retryable r e = false \/ budget r' = 0%nat
     end
  /\ ds = fst (delays (goretry.next (backoff r)) (length ds))
  /\ r' = retried (length ds) r
  /\ valid r'
  /\ (budget r' + length ds = budget r)%nat.
Proof.
  intros Hv Hplain H. unfold run, Execute in H. unfold bind at 1 in H.
  destruct (goretry.Do simRuntime fuel Background (backoff r)
              (attempt_fn r (op script)) sim0)
    as [[[res0 b'] w']|] eqn:HD; [|discriminate].
  unfold ret in H. injection H as -> <- <- <-.
  destruct (Do_returns script Hplain fuel r sim0 res b' w' Hv HD)
    as (k & Hb & Hf & Hres & Hb' & Hw' & Hwhy).
  subst w' b'. cbn [callCount slept clock sim0 slept_after app] in *.
  rewrite delays_length.
  assert (Hr' : {| backoff := backoff (retried k r);
                   retryableFn := retryableFn r |} = retried k r)
    by reflexivity.
  rewrite Hr'.
  assert (Hbud : (budget (retried k r) + k = budget r)%nat).
  { unfold budget, retried. cbn. destruct Hv as [[Hlo Hhi] Hmax]. lia. }
  split; [reflexivity|]. split; [exact Hres|]. split; [exact Hf|].
  split.
  { destruct res as [e|]; [|exact I].
    destruct Hwhy as [Hno|Hfull]; [left; exact Hno|right].
    unfold budget, retried. cbn. lia. }
  split; [reflexivity|]. split; [reflexivity|].
  split; [apply retried_valid; assumption|exact Hbud].
Qed.

(** X14: a context that is done when [Execute] is entered: the context's
    error is returned, the operation is not called (it may be one that
    panics), and the executor is left as it was. *)
Theorem Execute_done_context_never_calls {W Ctx : Type}
    (rt : goretry.Runtime W Ctx) (fuel : nat) (r : goRetry) (ctx : Ctx)
    (w w1 w2 : W) (e : option error) :
  goretry.ctx_Done rt ctx w = Some (true, w1) ->
  goretry.ctx_Err rt ctx w1 = Some (e, w2) ->
  forall fn : M W (option error),
    Execute rt (S fuel) r ctx fn w = Some ((Some e, r), w2)
    /\ Execute rt (S fuel) r ctx panic w = Execute rt (S fuel) r ctx fn w.
Proof.
  intros HD HE fn.
  assert (HX : forall g : M W (option error),
             Execute rt (S fuel) r ctx g w = Some ((Some e, r), w2)).
  { intros g. unfold Execute. cbn [goretry.Do]. unfold bind.
    rewrite HD. rewrite HE. unfold ret. destruct r; reflexivity. }
  split; [apply HX|]. rewrite !HX. reflexivity.
Qed.

(** X15: a context cancelled while [Execute] waits before a retry: the
    operation has been called once, the context's error is returned in place
    of the operation's, and the retry that was never made is spent all the
    same: the executor comes back one step further in its backoff. *)
Theorem Execute_cancelled_while_waiting (r : goRetry)
    (script : nat -> option error) (fuel : nat) (ctx : Context) (w : Sim)
    (e : error) (t : Z) :
  valid r ->
  goretry.attempt (backoff r) < goretry.max (backoff r) ->
  script (callCount w) = Some e ->
  retryable r e = true ->
  cancelAt ctx = Some t ->
  clock w < t <= clock w
                 + fst (fst (goretry.exponentialBackoff_Next
                               (goretry.next (backoff r)))) ->
  Execute simRuntime (S fuel) r ctx (op script) w
  = Some ((Some (Some context_Canceled), retried 1 r),
          {| callCount := S (callCount w); slept := slept w; clock := t |})
  /\ (budget (retried 1 r) + 1 = budget r)%nat.
Proof.
  intros [[Hlo Hhi] Hmax] Hlt Hs Hr Hc Ht.
  split; [|unfold budget, retried; cbn; lia].
  unfold Execute. cbn [goretry.Do]. unfold bind at 1. unfold bind at 1.
  cbn [goretry.ctx_Done simRuntime]. unfold cancelled at 1. rewrite Hc.
  destruct (Z.leb_spec t (clock w)) as [Hbad|_]; [lia|].
  unfold bind at 1. unfold attempt_fn at 1. unfold bind at 1. unfold op at 1.
  rewrite Hs. unfold retryable in Hr.
  assert (Hfn : match retryableFn r with
                | Some p => if negb (p e) then @ret Sim _ (Some e)
                            else ret (Some (retryableError e))
                | None => ret (Some (retryableError e))
                end = ret (Some (retryableError e))).
  { destruct (retryableFn r); [rewrite Hr|]; reflexivity. }
  rewrite Hfn. unfold ret at 1. cbn [goretry.as_retryableError].
  unfold goretry.Next, goretry.maxRetries_Backoff, goretry.maxRetries_Next.
  destruct (Z.leb_spec (goretry.max (backoff r)) (goretry.attempt (backoff r)));
    [lia|].
  unfold goretry.Next, goretry.exponentialBackoff_Backoff.
  pose proof (exponential_never_stops (goretry.next (backoff r))) as Hns.
  unfold retried. rewrite delays_S. cbn [delays fst snd].
  destruct (goretry.exponentialBackoff_Next (goretry.next (backoff r)))
    as [[d st] b'] eqn:Hnext.
  cbn in Hns. subst st. cbn [fst snd] in *.
  assert (H1 : (t <=? clock w) = false) by (apply Z.leb_gt; lia).
  assert (H2 : (t <=? clock w + d) = true) by (apply Z.leb_le; lia).
  assert (H3 : (t <=? Z.max t (clock w)) = true) by (apply Z.leb_le; lia).
  assert (H4 : Z.max t (clock w) = t) by lia.
  unfold bind, ret.
  cbn [goretry.ctx_Done goretry.ctx_Err goretry.timer_wait simRuntime
       callCount slept clock].
  unfold cancelled. rewrite Hc. cbn [callCount slept clock].
  repeat (first [rewrite H1 | rewrite H2 | rewrite H3];
          cbv beta iota; cbn [callCount slept clock]).
  rewrite H4.
  unfold uint64_wrap. rewrite Z.mod_small by lia.
  change (Z.of_nat 1) with 1. reflexivity.
Qed.

End RetryOutcome.



Lemma Execute_stops_at_rejected_error_witness :
  retry.run 5 retrySample.selective retrySample.twoThenFatal
  = Some (Some (Some retrySample.fatalErr), 3%nat, [1000000; 2000000],
          retry.retried 2 retrySample.selective).
Proof.
  refine (Execute_stops_at_rejected_error retrySample.selective
            retrySample.twoThenFatal 2 5 retrySample.fatalErr
            _ _ _ eq_refl eq_refl eq_refl _).
  - unfold retry.valid. cbn. lia.
  - vm_compute. lia.
  - intros i Hi. exists retrySample.retryableErr.
    destruct i as [|[|i]]; [split; reflexivity|split; reflexivity|lia].
  - lia.
Defined.

Lemma Execute_outcome_witness :
  let script := retry.failsThenSucceeds 2 (errors_New "error") in
  let ds := [1000000; 2000000] in
  let r' := retry.retried 2 retrySample.executor in
  3%nat = S (length ds)
  /\ None = script (length ds)
  /\ (forall i, (i < length ds)%nat ->
        exists e, script i = Some e
                  /\ retry.retryable retrySample.executor e = true)
  /\ True
  /\ ds = fst (retry.delays
                 (goretry.next (retry.backoff retrySample.executor)) (length ds))
  /\ r' = retry.retried (length ds) retrySample.executor
  /\ retry.valid r'
  /\ (retry.budget r' + length ds = retry.budget retrySample.executor)%nat.
Proof.
  refine (Execute_outcome retrySample.executor
            (retry.failsThenSucceeds 2 (errors_New "error")) 5 None 3
            [1000000; 2000000] (retry.retried 2 retrySample.executor)
            _ _ eq_refl).
  - unfold retry.valid. cbn. lia.
  - intros i e H. unfold retry.failsThenSucceeds in H.
    destruct (i <? 2)%nat; [injection H as <-; reflexivity|discriminate].
Defined.

Lemma Execute_done_context_never_calls_witness :
  let ctx := {| retry.cancelAt := Some 0 |} in
  let fn := retry.op (retry.alwaysFails (errors_New "keep failing")) in
  retry.Execute retry.simRuntime 1 retrySample.executor ctx fn retry.sim0
    = Some ((Some (Some context_Canceled), retrySample.executor), retry.sim0)
  /\ retry.Execute retry.simRuntime 1 retrySample.executor ctx panic retry.sim0
     = retry.Execute retry.simRuntime 1 retrySample.executor ctx fn retry.sim0.
Proof.
  exact (Execute_done_context_never_calls retry.simRuntime 0
           retrySample.executor {| retry.cancelAt := Some 0 |}
           retry.sim0 retry.sim0 retry.sim0 (Some context_Canceled)
           eq_refl eq_refl
           (retry.op (retry.alwaysFails (errors_New "keep failing")))).
Defined.

Lemma Execute_cancelled_while_waiting_witness :
  retry.Execute retry.simRuntime 1 retrySample.executor
    retrySample.soonCancelled
    (retry.op (retry.alwaysFails (errors_New "keep failing"))) retry.sim0
  = Some ((Some (Some context_Canceled), retry.retried 1 retrySample.executor),
          {| retry.callCount := 1; retry.slept := []; retry.clock := 500000 |})
  /\ (retry.budget (retry.retried 1 retrySample.executor) + 1
      = retry.budget retrySample.executor)%nat.
Proof.
  refine (Execute_cancelled_while_waiting retrySample.executor
            (retry.alwaysFails (errors_New "keep failing")) 0
            retrySample.soonCancelled retry.sim0
            (errors_New "keep failing") 500000 _ _ eq_refl eq_refl eq_refl _).
  - unfold retry.valid. cbn. lia.
  - cbn. lia.
  - vm_compute. split; [reflexivity|discriminate].
Defined.

(** ** More on the unit of work *)

Section UnitOfWorkApart.
Import repository.

(** X16: on a unit of work as the factory builds it, and for any sequence
    of accessor calls: no accessor returns nil; accessors of different kinds
    never return the same object; the objects that were on the heap before
    are left as they were; and the unit of work keeps its transaction and
    the breaker and retry executor of its factory. *)
Theorem accessors_keep_repositories_apart
    (Begin : handle -> handle * option error)
    (f : transactionDbUnitOfWorkFactory) (u : transactionDbUnitOfWork)
    (h : list Object) (ks : list Kind) ps m' :
  New Begin f = (Some u, None) ->
  calls ks {| uow := u; objects := h |} = Some (ps, m') ->
  (forall i p, ps !! i = Some p -> p <> None)
  /\ (forall i j k1 k2 p q,
        ks !! i = Some k1 -> ks !! j = Some k2 ->
        ps !! i = Some p -> ps !! j = Some q ->
        k1 <> k2 -> p <> q)
  /\ (forall a o, h !! a = Some o -> objects m' !! a = Some o)
  /\ tx (uow m') = tx u
  /\ uow_cb (uow m') = f_cb f
  /\ uow_retry (uow m') = f_retry f.
Proof.
  intros HN HC.
  assert (Hu : uow_cb u = f_cb f /\ uow_retry u = f_retry f
               /\ forall k, done (once k u) = false).
  { unfold New in HN. destruct (Begin (f_db f)) as [t [e|]]; [discriminate|].
    injection HN as <-. split; [reflexivity|]. split; [reflexivity|].
    intros k; destruct k; reflexivity. }
  destruct Hu as (Hcb & Hre & Hfresh).
  assert (Hinv : inv u h {| uow := u; objects := h |}).
  { split; [reflexivity|]. split; [reflexivity|]. split; [reflexivity|].
    exists []. split; [cbn; rewrite app_nil_r; reflexivity|].
    intros k. cbn [uow]. rewrite Hfresh. reflexivity. }
  destruct (calls_spec u h ks _ Hinv)
    as (ps0 & m0 & Hcalls & Hinv' & _ & Hlen & Hres).
  rewrite HC in Hcalls. injection Hcalls as <- <-.
  destruct Hinv' as (Htx & Hcb' & Hre' & new & Hobj & Hk).
  assert (Hat : forall i k p, ks !! i = Some k -> ps !! i = Some p ->
                  exists a, p = Some a /\ objects m' !! a = Some (bound k u)).
  { intros i k p Hi Hp. destruct (Hres i k Hi) as [Hp' Hd].
    specialize (Hk k). rewrite Hd in Hk.
    destruct Hk as [(a & Hslot & Hlook) _].
    exists a. split; [congruence|exact Hlook]. }
  split; [|split; [|split; [|split; [|split]]]].
  - intros i p Hp.
    destruct (ks !! i) as [k|] eqn:Hi.
    + destruct (Hat i k p Hi Hp) as (a & -> & _). discriminate.
    + apply lookup_ge_None in Hi. apply lookup_lt_Some in Hp. lia.
  - intros i j k1 k2 p q Hi Hj Hp Hq Hne Heq.
    destruct (Hat i k1 p Hi Hp) as (a1 & -> & H1).
    destruct (Hat j k2 q Hj Hq) as (a2 & -> & H2).
    injection Heq as ->. rewrite H1 in H2. injection H2 as H2.
    exact (Hne H2).
  - intros a o Ha. rewrite Hobj. apply lookup_app_l_Some. exact Ha.
  - exact Htx.
  - congruence.
  - congruence.
Qed.

End UnitOfWorkApart.

Lemma accessors_keep_repositories_apart_witness :
  let ks := [repository.KUser; repository.KIdempotencyRecord; repository.KUser;
             repository.KLedger; repository.KIdempotencyRecord] in
  let ps := [Some 0%nat; Some 1%nat; Some 0%nat; Some 2%nat; Some 1%nat] in
  let m' :=
    {| repository.uow :=
         {| repository.tx := 11; repository.uow_cb := 2;
            repository.uow_retry := 3;
            repository.userRepository := Some 0%nat;
            repository.userRepositoryOnce := {| repository.done := true |};
            repository.ledgerRepository := Some 2%nat;
            repository.ledgerRepositoryOnce := {| repository.done := true |};
            repository.idempotencyRecordRepository := Some 1%nat;
            repository.idempotencyRecordRepositoryOnce :=
              {| repository.done := true |} |};
       repository.objects :=
         [repository.bound repository.KUser fixture.freshUow;
          repository.bound repository.KIdempotencyRecord fixture.freshUow;
          repository.bound repository.KLedger fixture.freshUow] |} in
  (forall i p, ps !! i = Some p -> p <> None)
  /\ (forall i j k1 k2 p q,
        ks !! i = Some k1 -> ks !! j = Some k2 ->
        ps !! i = Some p -> ps !! j = Some q ->
        k1 <> k2 -> p <> q)
  /\ (forall a o, @nil repository.Object !! a = Some o ->
                  repository.objects m' !! a = Some o)
  /\ repository.tx (repository.uow m') = repository.tx fixture.freshUow
  /\ repository.uow_cb (repository.uow m') = repository.f_cb fixture.someFactory
  /\ repository.uow_retry (repository.uow m')
     = repository.f_retry fixture.someFactory.
Proof.
  exact (accessors_keep_repositories_apart fixture.begin fixture.someFactory
           fixture.freshUow []
           [repository.KUser; repository.KIdempotencyRecord; repository.KUser;
            repository.KLedger; repository.KIdempotencyRecord]
           [Some 0%nat; Some 1%nat; Some 0%nat; Some 2%nat; Some 1%nat]
           _ eq_refl eq_refl).
Defined.

(** ** The snowflake node of a pod *)

Section PodNode.

Lemma testbit_255 (m : Z) : 0 <= m -> Z.testbit 255 m = (m <? 8).
Proof.
  intros Hm. change 255 with (Z.ones 8).
  destruct (Z.ltb_spec m 8).
  - apply Z.ones_spec_low. lia.
  - apply Z.ones_spec_high. lia.
Qed.

Lemma byte_bit (v k n : Z) :
  0 <= k -> 0 <= n ->
  Z.testbit (Z.shiftl (fnv.byte (Z.shiftr v k)) k) n
  = Z.testbit v n && (k <=? n) && (n <? k + 8).
Proof.
  intros Hk Hn. unfold fnv.byte. rewrite Z.shiftl_spec by lia.
  destruct (Z.leb_spec k n) as [Hle|Hlt].
  - rewrite Z.land_spec, Z.shiftr_spec by lia.
    rewrite testbit_255 by lia.
    replace (n - k + k) with n by lia.
    rewrite andb_true_r. f_equal.
    destruct (Z.ltb_spec (n - k) 8), (Z.ltb_spec n (k + 8)); (reflexivity || lia).
  - rewrite Z.testbit_neg_r by lia. rewrite andb_false_r. reflexivity.
Qed.

Lemma high_bits_clear (v n : Z) : 0 <= v < 2 ^ 64 -> 64 <= n -> Z.testbit v n = false.
Proof.
  intros Hv Hn. destruct (Z.eq_dec v 0) as [->|Hnz].
  - apply Z.bits_0.
  - apply Z.bits_above_log2; [lia|].
    assert (Z.log2 v < 64) by (apply Z.log2_lt_pow2; lia). lia.
Qed.

(** The digest read back is the hash. *)
Lemma Uint64_Sum (v : Z) :
  0 <= v < 2 ^ 64 ->
  binary.BigEndian_Uint64 (fnv.Sum v []) = Some v.
Proof.
  intros Hv. unfold fnv.Sum, binary.BigEndian_Uint64. cbn [app]. f_equal.
  apply Z.bits_inj'. intros n Hn.
  rewrite <- (Z.shiftl_0_r (fnv.byte v)).
  rewrite <- (Z.shiftr_0_r v) at 1.
  rewrite !Z.lor_spec, !byte_bit by lia.
  destruct (Z.testbit v n) eqn:Hb; [|reflexivity].
  assert (n < 64).
  { destruct (Z.lt_ge_cases n 64) as [|Hge]; [assumption|].
    rewrite (high_bits_clear v n Hv Hge) in Hb. discriminate. }
  cbn [andb].
  repeat match goal with
         | |- context [?a <=? ?b] => destruct (Z.leb_spec a b)
         | |- context [?a <? ?b] => destruct (Z.ltb_spec a b)
         end; cbn; (reflexivity || lia).
Qed.

Lemma Write_range (data : list Z) :
  forall s, 0 <= s < 2 ^ 64 -> 0 <= fnv.Write s data < 2 ^ 64.
Proof.
  unfold fnv.Write. induction data as [|c data IH]; intros s Hs; [exact Hs|].
  cbn [fold_left]. apply IH. unfold uint64_wrap. apply Z.mod_pos_bound. lia.
Qed.

(** What [PodNodeID] computes. *)
Lemma PodNodeID_spec (environ : gmap string string) :
  let hostname := bootstrap.os_Getenv environ "HOSTNAME" in
  if String.eqb hostname ""
  then bootstrap.PodNodeID environ = Some (0, Some (errors_New "HOSTNAME is not set"))
  else exists n,
         bootstrap.PodNodeID environ = Some (n, None)
         /\ n = fnv.Write fnv.New64a (bootstrap.bytes hostname) mod 1024
         /\ 0 <= n <= 1023.
Proof.
  intros hostname. unfold bootstrap.PodNodeID. fold hostname.
  destruct (String.eqb hostname ""); [reflexivity|].
  assert (Hh : 0 <= fnv.Write fnv.New64a (bootstrap.bytes hostname) < 2 ^ 64).
  { apply Write_range. unfold fnv.New64a, fnv.offset64. lia. }
  rewrite (Uint64_Sum _ Hh).
  pose proof (Z.mod_pos_bound
                (fnv.Write fnv.New64a (bootstrap.bytes hostname)) 1024
                ltac:(lia)) as Hm.
  eexists. split; [reflexivity|].
  rewrite int64_wrap_small by lia. split; [reflexivity|lia].
Qed.

(** X17: [PodNodeID] never panics; it fails exactly when [HOSTNAME] is
    unset or empty, with the node 0 beside the error; otherwise the node is
    the FNV-1a hash of the host name modulo 1024 (the digest bytes read back
    are the hash itself), a number from 0 to 1023. *)
Theorem PodNodeID_range (environ : gmap string string) :
  let hostname := bootstrap.os_Getenv environ "HOSTNAME" in
  if String.eqb hostname ""
  then bootstrap.PodNodeID environ = Some (0, Some (errors_New "HOSTNAME is not set"))
  else exists n,
         bootstrap.PodNodeID environ = Some (n, None)
         /\ n = fnv.Write fnv.New64a (bootstrap.bytes hostname) mod 1024
         /\ 0 <= n <= 1023.
Proof. exact (PodNodeID_spec environ). Qed.

(** X18: [InitializeSnowflake] never panics and fails only for want of a
    host name: every node [PodNodeID] computes is one [NewNode] accepts, so
    with [HOSTNAME] set and not empty a generator is returned, on the node
    [PodNodeID] computed, and with [HOSTNAME] unset or empty the error of
    [PodNodeID] is returned and no generator. *)
Theorem InitializeSnowflake_needs_only_hostname (environ : gmap string string) :
  if String.eqb (bootstrap.os_Getenv environ "HOSTNAME") ""
  then bootstrap.InitializeSnowflake environ
       = Some (None, Some (errors_New "HOSTNAME is not set"))
  else exists n,
         bootstrap.PodNodeID environ = Some (n, None)
         /\ bootstrap.InitializeSnowflake environ
            = Some (Some {| bootstrap.node := {| bwmarrin.node := n |} |}, None).
Proof.
  pose proof (PodNodeID_spec environ) as H. cbv zeta in H.
  unfold bootstrap.InitializeSnowflake.
  destruct (String.eqb (bootstrap.os_Getenv environ "HOSTNAME") "").
  - rewrite H. reflexivity.
  - destruct H as (n & HP & Hr). exists n. split; [exact HP|].
    rewrite HP. unfold bootstrap.NewSnowflake, bwmarrin.NewNode, bwmarrin.nodeMax.
    destruct (Z.ltb_spec n 0); [lia|].
    destruct (Z.ltb_spec 1023 n); [lia|]. reflexivity.
Qed.

(** X19: the node is not a function of the pod alone: two pods whose host
    names differ can be given the same node. *)
Theorem PodNodeID_not_injective :
  exists h1 h2 n,
    h1 <> h2
    /\ bootstrap.PodNodeID {[ "HOSTNAME" := h1 ]} = Some (n, None)
    /\ bootstrap.PodNodeID {[ "HOSTNAME" := h2 ]} = Some (n, None).
Proof.
  exists "pod-58", "pod-126", 702. split; [discriminate|].
  split; vm_compute; reflexivity.
Qed.

End PodNode.

(** ** The gRPC layer *)

Lemma string_append_assoc (a b c : string) :
  ((a ++ b) ++ c = a ++ (b ++ c))%string.
Proof.
  induction a as [|x a IH]; [reflexivity|].
  change (String x ((a ++ b) ++ c) = String x (a ++ (b ++ c)))%string.
  f_equal. exact IH.
Qed.

Section GrpcLayer.
Context {E : Type}.

(** X20: a request that fails validation stops at the controller: for
    every user service, one that panics when called included, the handler
    returns a wrapped [ErrInvalidArgument] and leaves the world as it was (no
    user object is allocated either), and the interceptor answers
    [InvalidArgument] with the controller's text, logging nothing.  For
    [CreateUser] the first of the four checks that fails decides the text. *)
Theorem invalid_requests_stop_at_controller
    (userService : controller.UserService E) (FullMethod : string)
    (get : v1.GetUserByIdRequest) (create : v1.CreateUserRequest)
    (w : service.World E) :
  v1.Id get <= 0 ->
  v1.IdempotencyId create <= 0 \/ v1.Email create = ""
    \/ v1.Username create = "" \/ v1.Password create = "" ->
  interceptor.ErrorInterceptor FullMethod
    (controller.GetUserById userService get) w
  = ((None, Some {| grpc.code := grpc.InvalidArgument;
                    grpc.message := "id must be greater than 0: invalid argument" |}),
     [], Some w)
  /\ exists prefix,
       controller.CreateUser userService create w
       = Some ((None, Some (apperror.Errorf prefix
                              (apperror.sentinel apperror.ErrInvalidArgument))), w)
       /\ interceptor.ErrorInterceptor FullMethod
            (controller.CreateUser userService create) w
          = ((None, Some {| grpc.code := grpc.InvalidArgument;
                            grpc.message := prefix ++ "invalid argument" |}),
             [], Some w)
       /\ prefix
          = if v1.IdempotencyId create <=? 0
            then "idempotency_id must be greater than 0: "
            else if String.eqb (v1.Email create) "" then "email is required: "
            else if String.eqb (v1.Username create) "" then "username is required: "
            else "password is required: ".
Proof.
  intros Hget Hcreate. split.
  - unfold interceptor.ErrorInterceptor, controller.GetUserById.
    destruct (Z.leb_spec (v1.Id get) 0); [reflexivity|lia].
  - unfold interceptor.ErrorInterceptor, controller.CreateUser.
    destruct (Z.leb_spec (v1.IdempotencyId create) 0) as [Hi|Hi].
    { eexists. split; [reflexivity|]. split; reflexivity. }
    destruct (String.eqb_spec (v1.Email create) "") as [He|He].
    { eexists. split; [reflexivity|]. split; reflexivity. }
    destruct (String.eqb_spec (v1.Username create) "") as [Hu|Hu].
    { eexists. split; [reflexivity|]. split; reflexivity. }
    destruct (String.eqb_spec (v1.Password create) "") as [Hp|Hp].
    { eexists. split; [reflexivity|]. split; reflexivity. }
    exfalso. destruct Hcreate as [H|[H|[H|H]]]; [lia|auto..].
Qed.

(** X21: a user the service does not find (a nil user with a nil error) is
    answered [NotFound] with the text "user <id>: not found"; nothing is
    logged, and the world is the one the service left. *)
Theorem absent_user_is_NotFound (userService : controller.UserService E)
    (FullMethod : string) (request : v1.GetUserByIdRequest)
    (w w' : service.World E) :
  0 < v1.Id request ->
  controller.GetUser userService (v1.Id request) w = Some ((None, None), w') ->
  interceptor.ErrorInterceptor FullMethod
    (controller.GetUserById userService request) w
  = ((None, Some {| grpc.code := grpc.NotFound;
                    grpc.message :=
                      "user " ++ controller.itoa (v1.Id request) ++ ": not found" |}),
     [], Some w').
Proof.
  intros Hid HG.
  unfold interceptor.ErrorInterceptor, controller.GetUserById.
  destruct (Z.leb_spec (v1.Id request) 0); [lia|].
  unfold bind. rewrite HG. unfold ret, grpc.status_Error.
  cbn [apperror.errors_Is apperror.Sentinel_eqb apperror.Error_].
  rewrite !string_append_assoc. reflexivity.
Qed.

(** X22: what the interceptor lets out, for every handler and world.  A
    response is returned only with a nil error, and then nothing is logged.
    A status is [NotFound] or [InvalidArgument] only for an error of the
    handler that wraps the sentinel, with that error's text and no log entry.
    Everything else, a panic of the handler included, is [Internal] with the
    fixed text "internal server error" and exactly one call of [log.Error]:
    no text of an unknown error reaches the caller. *)
Theorem interceptor_outcomes {A : Type} (FullMethod : string)
    (handler : M (service.World E) (option A * option apperror.Error))
    (w : service.World E) :
  let '((resp, st), log, w') :=
    interceptor.ErrorInterceptor FullMethod handler w in
  match st with
  | None => log = [] /\ handler w = Some ((resp, None), default w w') /\ w' <> None
  | Some s =>
      resp = None
      /\ match grpc.code s with
         | grpc.Internal =>
             grpc.message s = "internal server error"
             /\ length log = 1%nat
             /\ (handler w = None
                 \/ exists r err w1,
                      handler w = Some ((r, Some err), w1)
                      /\ apperror.errors_Is err apperror.ErrNotFound = false
                      /\ apperror.errors_Is err apperror.ErrInvalidArgument = false)
         | grpc.NotFound =>
             log = []
             /\ exists r err w1,
                  handler w = Some ((r, Some err), w1)
                  /\ apperror.errors_Is err apperror.ErrNotFound = true
                  /\ grpc.message s = apperror.Error_ err
         | grpc.InvalidArgument =>
             log = []
             /\ exists r err w1,
                  handler w = Some ((r, Some err), w1)
                  /\ apperror.errors_Is err apperror.ErrInvalidArgument = true
                  /\ grpc.message s = apperror.Error_ err
         end
  end.
Proof.
  unfold interceptor.ErrorInterceptor.
  destruct (handler w) as [[[resp [err|]] w1]|].
  - destruct (apperror.errors_Is err apperror.ErrNotFound) eqn:HN.
    + cbn. split; [reflexivity|]. split; [reflexivity|].
      exists resp, err, w1. split; [reflexivity|]. split; [exact HN|reflexivity].
    + destruct (apperror.errors_Is err apperror.ErrInvalidArgument) eqn:HI.
      * cbn. split; [reflexivity|]. split; [reflexivity|].
        exists resp, err, w1. split; [reflexivity|].
        split; [exact HI|reflexivity].
      * cbn. split; [reflexivity|]. split; [reflexivity|].
        split; [reflexivity|]. right.
        exists resp, err, w1. split; [reflexivity|]. split; assumption.
  - cbn. split; [reflexivity|]. split; [reflexivity|discriminate].
  - cbn. split; [reflexivity|]. split; [reflexivity|].
    split; [reflexivity|]. left. reflexivity.
Qed.

(** X23: an error of the user service passes the controllers unchanged and
    leaves the server as [Internal] with the fixed text, whatever the error
    says; it is logged once, as it is, together with the method.  For
    [CreateUser] the service was handed a new object holding the three fields
    of the request and zero values elsewhere. *)
Theorem service_errors_become_Internal (userService : controller.UserService E)
    (FullMethod : string) (get : v1.GetUserByIdRequest)
    (create : v1.CreateUserRequest) (w w1 w2 : service.World E)
    (u1 u2 : option loc) (e1 e2 : error) :
  0 < v1.Id get ->
  controller.GetUser userService (v1.Id get) w = Some ((u1, Some e1), w1) ->
  0 < v1.IdempotencyId create ->
  v1.Email create <> "" -> v1.Username create <> "" ->
  v1.Password create <> "" ->
  controller.CreateUser_ userService (v1.IdempotencyId create)
    (@Some loc (length (service.heap w)))
    {| service.heap :=
         service.heap w ++
           [ {| Id := 0; Email := v1.Email create;
                Username := v1.Username create;
                Password := v1.Password create;
                CreatedAt := Time_zero; UpdatedAt := Time_zero |} ];
       service.env := service.env w |}
    = Some ((u2, Some e2), w2) ->
  interceptor.ErrorInterceptor FullMethod
    (controller.GetUserById userService get) w
  = ((None, Some {| grpc.code := grpc.Internal;
                    grpc.message := "internal server error" |}),
     [ {| interceptor.msg := "unhandled error";
          interceptor.fields := [interceptor.Err (apperror.lower e1);
                                 interceptor.String_ "method" FullMethod] |} ],
     Some w1)
  /\ interceptor.ErrorInterceptor FullMethod
       (controller.CreateUser userService create) w
     = ((None, Some {| grpc.code := grpc.Internal;
                       grpc.message := "internal server error" |}),
        [ {| interceptor.msg := "unhandled error";
             interceptor.fields := [interceptor.Err (apperror.lower e2);
                                    interceptor.String_ "method" FullMethod] |} ],
        Some w2).
Proof.
  intros Hid HG Hidem He Hu Hp HC. split.
  - unfold interceptor.ErrorInterceptor, controller.GetUserById.
    destruct (Z.leb_spec (v1.Id get) 0); [lia|].
    unfold bind. rewrite HG. reflexivity.
  - unfold interceptor.ErrorInterceptor, controller.CreateUser.
    destruct (Z.leb_spec (v1.IdempotencyId create) 0); [lia|].
    destruct (String.eqb_spec (v1.Email create) ""); [contradiction|].
    destruct (String.eqb_spec (v1.Username create) ""); [contradiction|].
    destruct (String.eqb_spec (v1.Password create) ""); [contradiction|].
    unfold bind, service.alloc. rewrite HC. reflexivity.
Qed.

(** X24: a nil user with a nil error from the service is not an answer
    [CreateUser] can build a response from: the handler panics on the
    dereference, and the interceptor recovers, answers [Internal] with the
    fixed text and logs the panic; where [GetUserById] reports the same
    answer of the service as [NotFound]. *)
Theorem CreateUser_nil_user_panics (userService : controller.UserService E)
    (FullMethod : string) (create : v1.CreateUserRequest)
    (w w2 : service.World E) :
  0 < v1.IdempotencyId create ->
  v1.Email create <> "" -> v1.Username create <> "" ->
  v1.Password create <> "" ->
  controller.CreateUser_ userService (v1.IdempotencyId create)
    (@Some loc (length (service.heap w)))
    {| service.heap :=
         service.heap w ++
           [ {| Id := 0; Email := v1.Email create;
                Username := v1.Username create;
                Password := v1.Password create;
                CreatedAt := Time_zero; UpdatedAt := Time_zero |} ];
       service.env := service.env w |}
    = Some ((None, None), w2) ->
  controller.CreateUser userService create w = None
  /\ interceptor.ErrorInterceptor FullMethod
       (controller.CreateUser userService create) w
     = ((None, Some {| grpc.code := grpc.Internal;
                       grpc.message := "internal server error" |}),
        [ {| interceptor.msg := "panic recovered";
             interceptor.fields := [interceptor.String_panic;
                                    interceptor.String_ "method" FullMethod] |} ],
        None).
Proof.
  intros Hidem He Hu Hp HC.
  assert (HX : controller.CreateUser userService create w = None).
  { unfold controller.CreateUser.
    destruct (Z.leb_spec (v1.IdempotencyId create) 0); [lia|].
    destruct (String.eqb_spec (v1.Email create) ""); [contradiction|].
    destruct (String.eqb_spec (v1.Username create) ""); [contradiction|].
    destruct (String.eqb_spec (v1.Password create) ""); [contradiction|].
    unfold bind, service.alloc. rewrite HC. reflexivity. }
  split; [exact HX|].
  unfold interceptor.ErrorInterceptor. rewrite HX. reflexivity.
Qed.

End GrpcLayer.

Lemma invalid_requests_stop_at_controller_witness :
  let get := {| v1.Id := 0 |} in
  let create := {| v1.IdempotencyId := 99; v1.Email := "";
                   v1.Username := "alice"; v1.Password := "" |} in
  interceptor.ErrorInterceptor "/v1.UserService/GetUserById"
    (controller.GetUserById grpcSample.unreachable get) grpcSample.noWorld
  = ((None, Some {| grpc.code := grpc.InvalidArgument;
                    grpc.message := "id must be greater than 0: invalid argument" |}),
     [], Some grpcSample.noWorld)
  /\ exists prefix,
       controller.CreateUser grpcSample.unreachable create grpcSample.noWorld
       = Some ((None, Some (apperror.Errorf prefix
                              (apperror.sentinel apperror.ErrInvalidArgument))),
               grpcSample.noWorld)
       /\ interceptor.ErrorInterceptor "/v1.UserService/GetUserById"
            (controller.CreateUser grpcSample.unreachable create)
            grpcSample.noWorld
          = ((None, Some {| grpc.code := grpc.InvalidArgument;
                            grpc.message := prefix ++ "invalid argument" |}),
             [], Some grpcSample.noWorld)
       /\ prefix = "email is required: ".
Proof.
  exact (invalid_requests_stop_at_controller grpcSample.unreachable
           "/v1.UserService/GetUserById" {| v1.Id := 0 |}
           {| v1.IdempotencyId := 99; v1.Email := "";
              v1.Username := "alice"; v1.Password := "" |}
           grpcSample.noWorld ltac:(cbn; lia) (or_intror (or_introl eq_refl))).
Defined.

Lemma absent_user_is_NotFound_witness :
  interceptor.ErrorInterceptor "/v1.UserService/GetUserById"
    (controller.GetUserById grpcSample.emptyDb {| v1.Id := 42 |})
    grpcSample.noWorld
  = ((None, Some {| grpc.code := grpc.NotFound;
                    grpc.message := "user 42: not found" |}),
     [],
     Some {| service.heap := [];
             service.env := ["New"; "UserRepository.Get"; "Commit"] |}).
Proof.
  exact (absent_user_is_NotFound grpcSample.emptyDb
           "/v1.UserService/GetUserById" {| v1.Id := 42 |} grpcSample.noWorld
           {| service.heap := [];
              service.env := ["New"; "UserRepository.Get"; "Commit"] |}
           eq_refl eq_refl).
Defined.

Lemma service_errors_become_Internal_witness :
  let internal := Some {| grpc.code := grpc.Internal;
                          grpc.message := "internal server error" |} in
  let logged m :=
    [ {| interceptor.msg := "unhandled error";
         interceptor.fields :=
           [interceptor.Err (apperror.lower fixture.dbErr);
            interceptor.String_ "method" m] |} ] in
  interceptor.ErrorInterceptor "/v1.UserService/Method"
    (controller.GetUserById grpcSample.brokenDb {| v1.Id := 42 |})
    grpcSample.noWorld
  = ((None, internal), logged "/v1.UserService/Method",
     Some {| service.heap := [];
             service.env := ["New"; "UserRepository.Get"; "Abort"] |})
  /\ interceptor.ErrorInterceptor "/v1.UserService/Method"
       (controller.CreateUser grpcSample.brokenDb grpcSample.newUserRequest)
       grpcSample.noWorld
     = ((None, internal), logged "/v1.UserService/Method",
        Some {| service.heap :=
                  [ {| Id := fixture.snowflakeId; Email := "a@b.com";
                       Username := "alice"; Password := "hash";
                       CreatedAt := Time_UTC fixture.t0;
                       UpdatedAt := Time_UTC fixture.t0 |} ];
                service.env := ["New"; "Generate"; "RecordRepository.Get";
                                "UserRepository.Insert"; "Abort"] |}).
Proof.
  exact (service_errors_become_Internal grpcSample.brokenDb
           "/v1.UserService/Method" {| v1.Id := 42 |} grpcSample.newUserRequest
           grpcSample.noWorld
           {| service.heap := [];
              service.env := ["New"; "UserRepository.Get"; "Abort"] |}
           {| service.heap :=
                [ {| Id := fixture.snowflakeId; Email := "a@b.com";
                     Username := "alice"; Password := "hash";
                     CreatedAt := Time_UTC fixture.t0;
                     UpdatedAt := Time_UTC fixture.t0 |} ];
              service.env := ["New"; "Generate"; "RecordRepository.Get";
                              "UserRepository.Insert"; "Abort"] |}
           None None fixture.dbErr fixture.dbErr
           eq_refl eq_refl eq_refl
           ltac:(discriminate) ltac:(discriminate) ltac:(discriminate)
           eq_refl).
Defined.

Lemma CreateUser_nil_user_panics_witness :
  controller.CreateUser grpcSample.emptyDb grpcSample.newUserRequest
    grpcSample.noWorld = None
  /\ interceptor.ErrorInterceptor "/v1.UserService/CreateUser"
       (controller.CreateUser grpcSample.emptyDb grpcSample.newUserRequest)
       grpcSample.noWorld
     = ((None, Some {| grpc.code := grpc.Internal;
                       grpc.message := "internal server error" |}),
        [ {| interceptor.msg := "panic recovered";
             interceptor.fields :=
               [interceptor.String_panic;
                interceptor.String_ "method" "/v1.UserService/CreateUser"] |} ],
        None).
Proof.
  exact (CreateUser_nil_user_panics grpcSample.emptyDb
           "/v1.UserService/CreateUser" grpcSample.newUserRequest
           grpcSample.noWorld
           {| service.heap :=
                [ {| Id := fixture.snowflakeId; Email := "a@b.com";
                     Username := "alice"; Password := "hash";
                     CreatedAt := Time_UTC fixture.t0;
                     UpdatedAt := Time_UTC fixture.t0 |} ];
              service.env := ["New"; "Generate"; "RecordRepository.Get";
                              "UserRepository.Insert"; "UserRepository.Get";
                              "RecordRepository.Insert"; "Commit"] |}
           eq_refl
           ltac:(discriminate) ltac:(discriminate) ltac:(discriminate)
           eq_refl).
Defined.
